(** * extract-manylinux: the runtime extraction and relocation engine

    A shallow embedding of [extract_manylinux/extract.py] (classes
    [PythonVersion] and [Extractor]) and of the destination check of
    [extractor_cli.py], with the properties of the specification stated
    and proved over it.

    Conventions of the embedding.
    - A Python [str] is a [string]; its characters are the code points
      below 256.
    - A Python [int] is a [Z].
    - A raised exception is a value [Raise e]; a normal return is [Ok v].
    - A [pathlib.Path] is a record of a root and a list of components,
      built by [PurePath.parse] as [PurePosixPath] does.
    - The file system and the two external tools ([readelf], [patchelf])
      are a finite map from path strings to nodes, threaded through the
      calls together with a trace of the external calls made.

    Where the model ends. The commands are run through [sh]: they are
    modelled for targets that are plain words and directives that the
    quotes hold whole ([Sh.plain], [Sh.quotable]). [glob] is modelled
    for a directory text without pattern characters ([glob_literal]).
    The process is not privileged and belongs to the group of the files
    it writes ([FS.written_mode]). The bound of [int()] and [str()] on
    the number of digits is not modelled. The properties that depend on
    one of these say so in a hypothesis. *)

From Stdlib Require Import ZArith Strings.String Strings.Ascii Lia.
From Stdlib Require Import Numbers.DecimalString Numbers.DecimalZ Numbers.DecimalPos.
From Stdlib Require Import Init.Decimal.
From stdpp Require Import base option list strings gmap.

Local Open Scope string_scope.
Local Open Scope list_scope.

(** ** Exceptions and results *)

Inductive exn : Type :=
| ValueError
| NotImplementedError
| FileNotFoundError
| FileExistsError
| NotADirectoryError
| IsADirectoryError
| PermissionError
| OSError
| CalledProcessError
| AssertionError
| RecursionError.

Inductive result (A : Type) : Type :=
| Ok (a : A)
| Raise (e : exn).

Arguments Ok {A} a.
Arguments Raise {A} e.

Definition rbind {A B : Type} (r : result A) (k : A -> result B) : result B :=
  match r with
  | Ok a => k a
  | Raise e => Raise e
  end.

Definition is_ok {A : Type} (r : result A) : bool :=
  match r with Ok _ => true | Raise _ => false end.

(** ** Python strings *)

Module PyStr.

(** [str.startswith] with a one-character argument. *)
Definition startswith_char (c : ascii) (s : string) : bool :=
  match s with
  | String c' _ => Ascii.eqb c' c
  | EmptyString => false
  end.

(** [s[1:]]. *)
Definition drop_first (s : string) : string :=
  match s with
  | String _ s' => s'
  | EmptyString => EmptyString
  end.

(** [str.split(sep, maxsplit)] for a separator of one character: at most
    [maxsplit] cuts, from the left; the result is never empty. *)
Fixpoint split (sep : ascii) (maxsplit : nat) (s : string) : list string :=
  match s with
  | EmptyString => [EmptyString]
  | String c s' =>
      if Ascii.eqb c sep then
        match maxsplit with
        | O => [s]
        | S k => EmptyString :: split sep k s'
        end
      else
        match split sep maxsplit s' with
        | [] => [String c EmptyString]
        | h :: t => String c h :: t
        end
  end.

(** [str.split(sep)] without a bound. *)
Definition split_all (sep : ascii) (s : string) : list string :=
  split sep (String.length s) s.

(** White space as [str.strip()] and [int()] see it, on code points below
    256: TAB..CR, FS..US, SPACE, NEL (0x85) and NBSP (0xA0). *)
Definition is_space (c : ascii) : bool :=
  let n := nat_of_ascii c in
  ((9 <=? n)%nat && (n <=? 13)%nat) || ((28 <=? n)%nat && (n <=? 32)%nat)
  || (n =? 133)%nat || (n =? 160)%nat.

Fixpoint lstrip (s : string) : string :=
  match s with
  | String c s' => if is_space c then lstrip s' else s
  | EmptyString => EmptyString
  end.

Fixpoint rstrip (s : string) : string :=
  match s with
  | EmptyString => EmptyString
  | String c s' =>
      match rstrip s' with
      | EmptyString => if is_space c then EmptyString else String c EmptyString
      | r => String c r
      end
  end.

(** [str.strip()]. *)
Definition strip (s : string) : string := rstrip (lstrip s).

(** [sep.join(parts)]. *)
Fixpoint join (sep : string) (parts : list string) : string :=
  match parts with
  | [] => EmptyString
  | [p] => p
  | p :: rest => p +:+ sep +:+ join sep rest
  end.

(** Does [c] occur in [s]? *)
Fixpoint contains_char (c : ascii) (s : string) : bool :=
  match s with
  | EmptyString => false
  | String c' s' => Ascii.eqb c' c || contains_char c s'
  end.

(** Every character of [s] satisfies [P]. *)
Fixpoint all_chars (P : ascii -> bool) (s : string) : bool :=
  match s with
  | EmptyString => true
  | String c s' => P c && all_chars P s'
  end.

(** [s.startswith(p)]. *)
Definition startswith (p s : string) : bool := String.prefix p s.

(** [s.endswith(p)]. *)
Definition endswith (p s : string) : bool :=
  let n := String.length s in
  let k := String.length p in
  (k <=? n)%nat && String.eqb (String.substring (n - k) k s) p.

End PyStr.

(** ** Python integers: [int(str)] and [str(int)] *)

Module PyInt.

(** The digits of a numeral, underscores removed: a digit, then digits
    each preceded by at most one underscore ([PyLong_FromString], base
    10). [None] is the [ValueError] of [int()]. *)
Fixpoint scan_digits (s : string) : option uint :=
  match s with
  | EmptyString => None
  | String c s' =>
      match s' with
      | EmptyString => uint_of_char c (Some Nil)
      | String "_"%char s'' => uint_of_char c (scan_digits s'')
      | _ => uint_of_char c (scan_digits s')
      end
  end.

(** White space as [int()] sees it, on code points below 256: the
    ASCII ones TAB..CR and SPACE, and NEL (0x85) and NBSP (0xA0), which
    [int()] turns into spaces first. The separators FS..US (0x1C..0x1F),
    which [str.strip()] removes, are no white space here. *)
Definition is_space (c : ascii) : bool :=
  let n := nat_of_ascii c in
  ((9 <=? n)%nat && (n <=? 13)%nat) || (n =? 32)%nat
  || (n =? 133)%nat || (n =? 160)%nat.

Fixpoint skip_left (s : string) : string :=
  match s with
  | String c s' => if is_space c then skip_left s' else s
  | EmptyString => EmptyString
  end.

Fixpoint skip_right (s : string) : string :=
  match s with
  | EmptyString => EmptyString
  | String c s' =>
      match skip_right s' with
      | EmptyString => if is_space c then EmptyString else String c EmptyString
      | r => String c r
      end
  end.

(** [int(s)]: surrounding white space is skipped, one sign is allowed.
    The bound of the interpreter on the number of digits (4300 unless
    [sys.set_int_max_str_digits] changes it) is not modelled: this is
    [int()] on numerals below it. *)
Definition of_str (s : string) : option Z :=
  match skip_right (skip_left s) with
  | String "+"%char r => (fun d => Z.of_int (Pos d)) <$> scan_digits r
  | String "-"%char r => (fun d => Z.of_int (Neg d)) <$> scan_digits r
  | t => (fun d => Z.of_int (Pos d)) <$> scan_digits t
  end.

Definition is_digit (c : ascii) : bool :=
  let n := nat_of_ascii c in (48 <=? n)%nat && (n <=? 57)%nat.

Definition digit_or_minus (c : ascii) : bool :=
  is_digit c || Ascii.eqb c "-".

(** [str(n)], which is also how an f-string renders an [int]. *)
Definition to_str (n : Z) : string := NilZero.string_of_int (Z.to_int n).

End PyInt.

(** ** [PythonVersion] *)

(** [Union[int, str]], the type of the patch component. *)
Inductive int_or_str : Type :=
| PInt (n : Z)
| PStr (s : string).

Record PythonVersion : Type := mkPythonVersion {
  major : Z;
  minor : Z;
  patch : int_or_str
}.

Module Version.

(** [PythonVersion.from_str]. Unpacking the split into three names
    raises [ValueError] unless there are exactly three parts; so does
    [int()] on the first two parts; on the third it is caught. *)
Definition from_str (value : string) : result PythonVersion :=
  match PyStr.split "."%char 2 value with
  | [major_s; minor_s; patch_s] =>
      let patch :=
        match PyInt.of_str patch_s with
        | Some n => PInt n
        | None => PStr patch_s
        end in
      match PyInt.of_str major_s, PyInt.of_str minor_s with
      | Some ma, Some mi => Ok (mkPythonVersion ma mi patch)
      | _, _ => Raise ValueError
      end
  | _ => Raise ValueError
  end.

(** How an f-string renders the patch component. *)
Definition format_patch (p : int_or_str) : string :=
  match p with
  | PInt n => PyInt.to_str n
  | PStr s => s
  end.

(** [PythonVersion.long]. *)
Definition long (v : PythonVersion) : string :=
  PyInt.to_str (major v) +:+ "." +:+ PyInt.to_str (minor v) +:+ "."
  +:+ format_patch (patch v).

(** [PythonVersion.short]. *)
Definition short (v : PythonVersion) : string :=
  PyInt.to_str (major v) +:+ "." +:+ PyInt.to_str (minor v).

(** [==] on the patch component: an [int] never equals a [str]. *)
Definition patch_eqb (p q : int_or_str) : bool :=
  match p, q with
  | PInt a, PInt b => Z.eqb a b
  | PStr a, PStr b => String.eqb a b
  | _, _ => false
  end.

(** [==] on a named tuple: component by component. *)
Definition eqb (v w : PythonVersion) : bool :=
  Z.eqb (major v) (major w) && Z.eqb (minor v) (minor w)
  && patch_eqb (patch v) (patch w).

(** A non-empty string of decimal digits. *)
Definition is_decimal (s : string) : bool :=
  negb (String.eqb s EmptyString) && PyStr.all_chars PyInt.is_digit s.

(** A numeral that [int()] reads and [str()] writes back unchanged. *)
Definition is_canonical (s : string) : bool :=
  match PyInt.of_str s with
  | Some n => String.eqb (PyInt.to_str n) s
  | None => false
  end.

End Version.

(** ** [pathlib.PurePosixPath] *)

Record Path : Type := mkPath {
  root : string;           (* "", "/" or "//" *)
  parts : list string      (* the components, none empty, none "." *)
}.

Module PurePath.

(** The number of leading slashes of a string, and what follows them. *)
Fixpoint leading_slashes (s : string) : nat * string :=
  match s with
  | String "/"%char s' => let '(n, r) := leading_slashes s' in (S n, r)
  | _ => (O, s)
  end.

(** [splitroot]: exactly two leading slashes are kept as the root "//",
    any other positive number is the root "/". *)
Definition split_root (s : string) : string * string :=
  match leading_slashes s with
  | (O, r) => ("", r)
  | (2%nat, r) => ("//", r)
  | (_, r) => ("/", r)
  end.

Definition keep_component (x : string) : bool :=
  negb (String.eqb x "") && negb (String.eqb x ".").

(** [Path(s)]. *)
Definition parse (s : string) : Path :=
  let '(r, rel) := split_root s in
  mkPath r (List.filter (fun x => keep_component x) (PyStr.split_all "/"%char rel)).

(** [str(p)]. *)
Definition to_str (p : Path) : string :=
  match root p, parts p with
  | "", [] => "."
  | r, ps => r +:+ PyStr.join "/" ps
  end.

(** [p / q] for a path [q]: an absolute right operand replaces the left. *)
Definition join (p q : Path) : Path :=
  if String.eqb (root q) "" then mkPath (root p) (parts p ++ parts q) else q.

(** [p / s] for a string [s]. *)
Definition join_str (p : Path) (s : string) : Path := join p (parse s).

(** [p.name]. *)
Definition name (p : Path) : string := List.last (parts p) "".

(** [p.parent]. *)
Definition parent (p : Path) : Path :=
  mkPath (root p) (List.removelast (parts p)).

End PurePath.

Notation "p // s" := (PurePath.join_str p s) (at level 40, left associativity).

(** ** [os.path] (posixpath) on strings *)

Module OsPath.

(** [posixpath.join(a, b)]. *)
Definition join (a b : string) : string :=
  if PyStr.startswith_char "/"%char b then b
  else if String.eqb a "" || PyStr.endswith "/" a then a +:+ b
  else a +:+ "/" +:+ b.

(** [posixpath.basename]: what follows the last slash. *)
Definition basename (p : string) : string :=
  List.last (PyStr.split_all "/"%char p) "".

(** The loop of [normpath] over the components, [acc] being [new_comps]
    with its last element first. *)
Fixpoint norm_comps (rooted : bool) (comps : list string) (acc : list string)
  : list string :=
  match comps with
  | [] => List.rev acc
  | comp :: rest =>
      if String.eqb comp "" || String.eqb comp "." then norm_comps rooted rest acc
      else if negb (String.eqb comp "..") then norm_comps rooted rest (comp :: acc)
      else
        match acc with
        | [] => if rooted then norm_comps rooted rest acc
                else norm_comps rooted rest (comp :: acc)
        | top :: below =>
            if String.eqb top ".." then norm_comps rooted rest (comp :: acc)
            else norm_comps rooted rest below
        end
  end.

(** [posixpath.normpath]. *)
Definition normpath (path : string) : string :=
  if String.eqb path "" then "."
  else
    let '(r, _) := PurePath.split_root path in
    let comps := norm_comps (negb (String.eqb r "")) (PyStr.split_all "/"%char path) [] in
    let s := r +:+ PyStr.join "/" comps in
    if String.eqb s "" then "." else s.

(** [posixpath.abspath], the working directory being [cwd]. *)
Definition abspath (cwd path : string) : string :=
  if PyStr.startswith_char "/"%char path then normpath path
  else normpath (join cwd path).

(** The common prefix of two lists of components. *)
Fixpoint common_prefix (a b : list string) : list string :=
  match a, b with
  | x :: a', y :: b' => if String.eqb x y then x :: common_prefix a' b' else []
  | _, _ => []
  end.

Definition nonempty_comps (s : string) : list string :=
  List.filter (fun x => negb (String.eqb x "")) (PyStr.split_all "/"%char s).

(** [posixpath.relpath(path, start)]; [path] is never empty here. *)
Definition relpath (cwd path start : string) : string :=
  let start_list := nonempty_comps (abspath cwd start) in
  let path_list := nonempty_comps (abspath cwd path) in
  let i := List.length (common_prefix start_list path_list) in
  let rel_list :=
    (List.repeat ".." (List.length start_list - i) ++ List.skipn i path_list)%list in
  match rel_list with
  | [] => "."
  | _ => List.fold_left join (List.tl rel_list) (List.hd "" rel_list)
  end.

End OsPath.

(** ** The file system, the external tools and the trace *)

(** What a regular file shows to the calls of the program. *)
Record file : Type := mkFile {
  st_mode : Z;                     (* [os.stat(...).st_mode], type bits included *)
  needed : option (list string);   (* what the NEEDED pattern finds in the output of
                                      [readelf -d], in order; [None] when readelf fails *)
  rpath : string;                  (* the directive [patchelf --print-rpath] shows *)
  text : string                    (* the content, read as text *)
}.

Inductive node : Type :=
| NFile (f : file)
| NDir
| NLink (target : string).

(** The calls that leave the program: the two tools, and (as a ghost
    event) each lookup of [locate_library]. *)
Inductive event : Type :=
| EvReadelf (target : string)
| EvLocate (name : string)
| EvPrintRpath (target : string)
| EvSetRpath (target rpath : string).

Record world : Type := mkWorld {
  nodes : gmap string node;   (* the file system, by path string *)
  cwd : string;               (* [os.getcwd()] *)
  module_dir : Path;          (* [Path(__file__).parent] *)
  home : Path;                (* [Path.home()] *)
  trace : list event          (* the calls made so far, oldest first *)
}.

Definition set_nodes (ns : gmap string node) (w : world) : world :=
  mkWorld ns (cwd w) (module_dir w) (home w) (trace w).

Definition emit (ev : event) (w : world) : world :=
  mkWorld (nodes w) (cwd w) (module_dir w) (home w) (trace w ++ [ev]).

(** The state and exception monad of the effectful methods. *)
Definition M (A : Type) : Type := world -> world * result A.

Global Instance M_ret : MRet M := fun A a w => (w, Ok a).
Global Instance M_bind : MBind M := fun A B k m w =>
  match m w with
  | (w', Ok a) => k a w'
  | (w', Raise e) => (w', Raise e)
  end.

Definition raise {A : Type} (e : exn) : M A := fun w => (w, Raise e).
Definition lift {A : Type} (f : world -> result A) : M A := fun w => (w, f w).
Definition tell (ev : event) : M unit := fun w => (emit ev w, Ok tt).

(** [for x in xs: body(x)], stopping at the first exception. *)
Fixpoint for_each {A : Type} (body : A -> M unit) (xs : list A) : M unit :=
  match xs with
  | [] => mret tt
  | x :: rest => body x ;; for_each body rest
  end.

Module FS.

Definition S_IWUSR : Z := 128.      (* 0o200 *)
Definition S_ISUID : Z := 2048.     (* 0o4000 *)
Definition S_ISGID : Z := 1024.     (* 0o2000 *)
Definition S_IFREG : Z := 32768.    (* 0o100000 *)
Definition S_IMODE (m : Z) : Z := Z.land m 4095.   (* 0o7777 *)

(** The bound of the kernel on the links followed in one lookup. *)
Definition MAXSYMLINKS : nat := 40.

(** Where the link at [p] with text [target] leads: a relative text is
    taken from the directory of the link. *)
Definition link_dest (p target : string) : string :=
  PurePath.to_str (PurePath.join (PurePath.parent (PurePath.parse p))
                                 (PurePath.parse target)).

(** What is found at [p]: the working directory and the root are
    directories, whatever the map says. *)
Definition node_at (ns : gmap string node) (p : string) : option node :=
  if String.eqb p "." || String.eqb p "/" then Some NDir else ns !! p.

(** Following symbolic links at the last component of [p]. The
    directories on the way are taken as they are named. *)
Fixpoint resolve (fuel : nat) (ns : gmap string node) (p : string)
  : result (string * option node) :=
  match node_at ns p with
  | Some (NLink t) =>
      match fuel with
      | O => Raise OSError
      | S k => resolve k ns (link_dest p t)
      end
  | o => Ok (p, o)
  end.

Definition lookup_follow (ns : gmap string node) (p : string)
  : result (string * option node) := resolve MAXSYMLINKS ns p.

(** [os.path.isdir]. *)
Definition is_dir (ns : gmap string node) (p : string) : bool :=
  match lookup_follow ns p with
  | Ok (_, Some NDir) => true
  | _ => false
  end.

(** [Path.exists()]: links are followed, a dangling link does not exist. *)
Definition exists_ (ns : gmap string node) (p : string) : bool :=
  match lookup_follow ns p with
  | Ok (_, Some (NFile _ | NDir)) => true
  | _ => false
  end.

(** [os.readlink]. *)
Definition readlink (ns : gmap string node) (p : string) : result string :=
  match node_at ns p with
  | Some (NLink t) => Ok t
  | Some _ => Raise OSError
  | None => Raise FileNotFoundError
  end.

(** Opening [p] for reading. *)
Definition open_read (ns : gmap string node) (p : string) : result file :=
  match lookup_follow ns p with
  | Ok (_, Some (NFile f)) => Ok f
  | Ok (_, Some NDir) => Raise IsADirectoryError
  | Ok (_, _) => Raise FileNotFoundError
  | Raise e => Raise e
  end.

Definition parent_str (p : string) : string :=
  PurePath.to_str (PurePath.parent (PurePath.parse p)).

Definition writable (f : file) : bool :=
  negb (Z.eqb (Z.land (st_mode f) S_IWUSR) 0).

(** Opening [p] for writing and storing [f] there: an existing file must
    be writable by its owner (the process is not privileged), a new one
    needs its directory. Returns the path written. *)
Definition write_file (ns : gmap string node) (p : string) (f : file)
  : result (gmap string node * string) :=
  match lookup_follow ns p with
  | Ok (q, Some (NFile old)) =>
      if writable old then Ok (<[q := NFile f]> ns, q) else Raise PermissionError
  | Ok (_, Some NDir) => Raise IsADirectoryError
  | Ok (q, _) =>
      if is_dir ns (parent_str q) then Ok (<[q := NFile f]> ns, q)
      else Raise FileNotFoundError
  | Raise e => Raise e
  end.

(** The mode of a regular file after a process that is not privileged
    and belongs to the group of the file has written to it: the kernel
    clears the set-user-id bit, and the set-group-id bit when the group
    may execute (bit 3, [S_IXGRP]). *)
Definition written_mode (m : Z) : Z :=
  let m1 := Z.ldiff m S_ISUID in
  if Z.testbit m 3 then Z.ldiff m1 S_ISGID else m1.

(** The file a copy leaves: the content of the source with its
    permission bits ([shutil.copymode]). *)
Definition copied (f : file) : file :=
  mkFile (Z.lor S_IFREG (S_IMODE (st_mode f))) (needed f) (rpath f) (text f).

(** [shutil.copy(src, dst, follow_symlinks=True)], for a source and a
    destination that are not the same file. *)
Definition copy (src dst : string) (ns : gmap string node)
  : result (gmap string node) :=
  let dst' := if is_dir ns dst
              then OsPath.join dst (OsPath.basename src)
              else dst in
  rbind (open_read ns src) (fun f =>
  rbind (write_file ns dst' (copied f)) (fun '(ns', _) => Ok ns')).

(** [Path.stat().st_mode]. *)
Definition stat_mode (ns : gmap string node) (p : string) : result Z :=
  match lookup_follow ns p with
  | Ok (_, Some (NFile f)) => Ok (st_mode f)
  | Ok (_, Some NDir) => Ok 16877%Z     (* S_IFDIR | 0o755 *)
  | Ok (_, _) => Raise FileNotFoundError
  | Raise e => Raise e
  end.

(** [Path.chmod(mode)]: the kernel keeps the permission bits of [mode]. *)
Definition chmod (p : string) (mode : Z) (ns : gmap string node)
  : result (gmap string node) :=
  match lookup_follow ns p with
  | Ok (q, Some (NFile f)) =>
      Ok (<[q := NFile (mkFile (Z.lor S_IFREG (S_IMODE mode)) (needed f) (rpath f) (text f))]> ns)
  | Ok (_, Some NDir) => Ok ns
  | Ok (_, _) => Raise FileNotFoundError
  | Raise e => Raise e
  end.

(** The paths of the proper ancestors of [p], outermost first. *)
Definition ancestors (p : Path) : list string :=
  List.map (fun k => PurePath.to_str (mkPath (root p) (List.firstn k (parts p))))
           (List.seq 1 (List.length (parts p) - 1)).

(** One [os.mkdir] of [mkdir -p]: an existing directory is kept; a file
    in the way raises [on_file], anything else [FileExistsError]. *)
Definition mkdir_step (on_file : exn) (acc : result (gmap string node)) (d : string)
  : result (gmap string node) :=
  rbind acc (fun ns =>
    if is_dir ns d then Ok ns
    else match node_at ns d with
         | Some (NFile _) => Raise on_file
         | Some _ => Raise FileExistsError
         | None => Ok (<[d := NDir]> ns)
         end).

(** [Path.mkdir(parents=True, exist_ok=True)] and
    [os.makedirs(..., exist_ok=True)]. *)
Definition makedirs (p : string) (ns : gmap string node)
  : result (gmap string node) :=
  let pp := PurePath.parse p in
  mkdir_step FileExistsError
    (List.fold_left (mkdir_step NotADirectoryError) (ancestors pp) (Ok ns))
    (PurePath.to_str pp).

(** [Path.unlink(missing_ok=True)]. *)
Definition unlink_missing_ok (p : string) (ns : gmap string node)
  : result (gmap string node) :=
  match node_at ns p with
  | None => Ok ns
  | Some NDir => Raise IsADirectoryError
  | Some _ => Ok (delete p ns)
  end.

(** [Path.symlink_to(target)]. *)
Definition symlink_to (p target : string) (ns : gmap string node)
  : result (gmap string node) :=
  match node_at ns p with
  | Some _ => Raise FileExistsError
  | None =>
      if is_dir ns (parent_str p) then Ok (<[p := NLink target]> ns)
      else Raise FileNotFoundError
  end.

(** The text put before the name of an entry of directory [d]. *)
Definition dir_prefix (d : string) : string :=
  if String.eqb d "." then ""
  else if PyStr.endswith "/" d then d
  else d +:+ "/".

(** [k] without the prefix [pre], when it has it. *)
Fixpoint strip_prefix (pre k : string) : option string :=
  match pre, k with
  | EmptyString, _ => Some k
  | String a pre', String b k' => if Ascii.eqb a b then strip_prefix pre' k' else None
  | _, _ => None
  end.

(** The entries below directory [d], at any depth, with their paths
    relative to [d]. *)
Definition entries_below (ns : gmap string node) (d : string)
  : list (string * node) :=
  List.flat_map (fun '(k, n) =>
    match strip_prefix (dir_prefix d) k with
    | Some rel => if String.eqb rel "" then [] else [(rel, n)]
    | None => []
    end) (map_to_list ns).

(** Does the name match the pattern [pre*suf] of [glob]? A leading dot is
    never matched by the star. *)
Definition name_matches (pre suf name : string) : bool :=
  negb (PyStr.contains_char "/"%char name)
  && negb (PyStr.startswith_char "."%char name)
  && PyStr.startswith pre name && PyStr.endswith suf name
  && (String.length pre + String.length suf <=? String.length name)%nat.

(** [glob.glob(d + "/" + pre + "*" + suf)], the directory part [d] being
    free of pattern characters. The order is the one of the directory
    listing, here the one of the map. *)
Definition glob (ns : gmap string node) (d pre suf : string) : list string :=
  List.flat_map (fun '(rel, _) =>
    if name_matches pre suf rel then [dir_prefix d +:+ rel] else [])
    (entries_below ns d).

(** One entry of [shutil.copytree(..., symlinks=True, dirs_exist_ok=True)];
    a failure is recorded and the copy goes on. *)
Definition copytree_entry (dst : string)
  (acc : gmap string node * bool) (e : string * node) : gmap string node * bool :=
  let '(ns, failed) := acc in
  let target := dir_prefix dst +:+ fst e in
  let r := match snd e with
           | NDir => makedirs target ns
           | NFile f => rbind (write_file ns target (copied f)) (fun '(ns', _) => Ok ns')
           | NLink t => symlink_to target t ns
           end in
  match r with
  | Ok ns' => (ns', failed)
  | Raise _ => (ns, true)
  end.

Definition is_NDir (e : string * node) : bool :=
  match snd e with NDir => true | _ => false end.

(** [shutil.copytree(src, dst, symlinks=True, dirs_exist_ok=True)]:
    the directories first, then the files and the links; the errors of
    the entries are raised together at the end. *)
Definition copytree (src dst : string) (ns : gmap string node)
  : gmap string node * result unit :=
  if negb (is_dir ns src) then
    (ns, Raise (if exists_ ns src then NotADirectoryError else FileNotFoundError))
  else
    match makedirs dst ns with
    | Raise e => (ns, Raise e)
    | Ok ns1 =>
        let es := entries_below ns src in
        let '(ns2, f2) :=
          List.fold_left (copytree_entry dst) (List.filter is_NDir es) (ns1, false) in
        let '(ns3, f3) :=
          List.fold_left (copytree_entry dst)
            (List.filter (fun e => negb (is_NDir e)) es) (ns2, f2) in
        (ns3, if f3 then Raise OSError else Ok tt)
    end.

(** Lifting to the monad. *)
Definition update (f : gmap string node -> result (gmap string node)) : M unit :=
  fun w => match f (nodes w) with
           | Ok ns => (set_nodes ns w, Ok tt)
           | Raise e => (w, Raise e)
           end.

Definition query {A : Type} (f : gmap string node -> result A) : M A :=
  fun w => (w, f (nodes w)).

Definition run_copytree (src dst : string) : M unit :=
  fun w => let '(ns, r) := copytree src dst (nodes w) in (set_nodes ns w, r).

End FS.

(** ** Python dictionaries, in insertion order *)

Module Dict.

Section WithValues.
Context {V : Type}.

(** [k in d]. *)
Fixpoint contains (k : string) (d : list (string * V)) : bool :=
  match d with
  | [] => false
  | (k', _) :: rest => String.eqb k' k || contains k rest
  end.

(** [d[k] = v]: an existing key keeps its place, a new one goes last. *)
Fixpoint set (k : string) (v : V) (d : list (string * V)) : list (string * V) :=
  match d with
  | [] => [(k, v)]
  | (k', v') :: rest =>
      if String.eqb k' k then (k', v) :: rest else (k', v') :: set k v rest
  end.

(** [d.update(other)]. *)
Definition update (d other : list (string * V)) : list (string * V) :=
  List.fold_left (fun acc kv => set (fst kv) (snd kv) acc) other d.

(** [d[k]]. *)
Fixpoint get (k : string) (d : list (string * V)) : option V :=
  match d with
  | [] => None
  | (k', v) :: rest => if String.eqb k' k then Some v else get k rest
  end.

Definition keys (d : list (string * V)) : list string := List.map fst d.

End WithValues.

End Dict.

(** ** The dependency resolver: the inner function [recurse] of [ldd] *)

(** The dictionary [dependencies] shared by the calls of [recurse], and
    the calls made so far. *)
Record ldd_state : Type := mkLdd {
  dependencies : list (string * Path);
  calls : list event
}.

Definition record_call (ev : event) (st : ldd_state) : ldd_state :=
  mkLdd (dependencies st) (calls st ++ [ev]).

(** [x in xs] on a list of strings. *)
Definition str_in (x : string) (xs : list string) : bool :=
  List.existsb (String.eqb x) xs.

Section Resolver.

(** [pattern.findall] over the output of [readelf -d target]. *)
Variable readelf : string -> result (list string).
(** [self.locate_library]. *)
Variable locate_library : string -> result Path.
(** [self.excluded]. *)
Variable excluded : list string.

(** The loop [for match in matches] of [recurse], the recursive call
    being [rec]. *)
Fixpoint visit (rec : string -> ldd_state -> option (ldd_state * result unit))
  (matches : list string) (st : ldd_state) : option (ldd_state * result unit) :=
  match matches with
  | [] => Some (st, Ok tt)
  | m :: rest =>
      if negb (Dict.contains m (dependencies st)) && negb (str_in m excluded) then
        let st1 := record_call (EvLocate m) st in
        match locate_library m with
        | Raise e => Some (st1, Raise e)
        | Ok path =>
            let st2 := mkLdd (Dict.set m path (dependencies st1)) (calls st1) in
            match rec (PurePath.to_str path) st2 with
            | Some (st3, Ok _) => visit rec rest st3
            | other => other
            end
        end
      else visit rec rest st
  end.

(** [recurse(target)]. [fuel] bounds the depth of the recursion; [None]
    is a recursion deeper than [fuel]. *)
Fixpoint recurse (fuel : nat) (target : string) (st : ldd_state)
  : option (ldd_state * result unit) :=
  match fuel with
  | O => None
  | S fuel' =>
      let st1 := record_call (EvReadelf target) st in
      match readelf target with
      | Raise e => Some (st1, Raise e)
      | Ok matches => visit (recurse fuel') matches st1
      end
  end.

(** The body of [ldd]: a new dictionary, one call of [recurse]. *)
Definition ldd_run (fuel : nat) (target : string)
  : option (ldd_state * result unit) :=
  recurse fuel target (mkLdd [] []).

End Resolver.

(** ** The class [Extractor] *)

Inductive Arch : Type := AARCH64 | I686 | X86_64.

Inductive PythonImpl : Type := CPYTHON.

Record Extractor : Type := mkExtractor {
  arch : Arch;
  prefix : Path;
  tag : string;
  excludelist : option Path;
  patchelf : Path;
  excluded : list string;
  impl : PythonImpl;
  library_path : list Path;
  python_prefix : Path;
  version : PythonVersion
}.

(** ** Command lines *)

(** The tools are run through [sh]: [readelf -d TARGET],
    [patchelf --print-rpath TARGET] and
    [patchelf --set-rpath 'RPATH' TARGET], the texts put in as they are.
    The model of these commands below is the one of a target that the
    shell hands to the tool as one argument, unchanged, and of a
    directive that the quotes hold whole; the properties of the commands
    are stated for such texts. *)
Module Sh.

(** The characters [sh] takes as they are in a word that is not quoted,
    for what this development needs: letters, digits and [/._-+,:@%]. *)
Definition is_plain_char (c : ascii) : bool :=
  let n := nat_of_ascii c in
  ((48 <=? n)%nat && (n <=? 57)%nat) || ((65 <=? n)%nat && (n <=? 90)%nat)
  || ((97 <=? n)%nat && (n <=? 122)%nat) || PyStr.contains_char c "/._-+,:@%".

(** A word the shell passes on as one argument and the tool takes as a
    file name: not empty, of plain characters, not starting like an
    option. *)
Definition plain (s : string) : bool :=
  negb (String.eqb s "") && PyStr.all_chars is_plain_char s
  && negb (PyStr.startswith_char "-"%char s).

(** A text that ['...'] holds whole: no quote in it, and no NUL (which
    no command line can hold). *)
Definition quotable (s : string) : bool :=
  negb (PyStr.contains_char "'"%char s) && negb (PyStr.contains_char "000"%char s).

End Sh.

Module Ext.

Definition newline : string := String "010"%char EmptyString.

(** The lines of a text file, in universal-newlines mode. *)
Definition split_lines (txt : string) : list string :=
  List.flat_map (PyStr.split_all "013"%char) (PyStr.split_all "010"%char txt).

(** The loop over the lines of the exclude list. *)
Definition read_excluded (txt : string) : list string :=
  List.filter
    (fun line => negb (String.eqb line "") && negb (PyStr.startswith_char "#"%char line))
    (List.map PyStr.strip (split_lines txt)).

(** The search for [patchelf] when none is given. *)
Definition find_patchelf (w : world) : result Path :=
  match List.find (fun p => FS.exists_ (nodes w) (PurePath.to_str (p // "patchelf")))
          [PurePath.parse "/bin"; module_dir w // "bin"; home w // ".local/bin"] with
  | Some p => Ok (p // "patchelf")
  | None => Raise FileNotFoundError
  end.

(** [Extractor(arch, prefix, tag, excludelist, patchelf)]: the generated
    constructor followed by [__post_init__]. *)
Definition init (arch : Arch) (prefix : Path) (tag : string)
  (excludelist patchelf : option Path) (w : world) : result Extractor :=
  (* Locate Python installation. *)
  rbind (FS.readlink (nodes w) (PurePath.to_str (prefix // ("opt/python/" +:+ tag))))
  (fun link =>
  if negb (PyStr.startswith_char "/"%char link) then Raise NotImplementedError else
  let python_prefix := prefix // PyStr.drop_first link in
  (* Parse implementation and version. *)
  match PyStr.split "-"%char 1 (PurePath.name (PurePath.parse link)) with
  | [head; tail] =>
      if negb (String.eqb head "cpython") then Raise NotImplementedError else
      rbind (Version.from_str tail) (fun version =>
      (* Set libraries search path. *)
      let paths :=
        match arch with
        | AARCH64 | X86_64 => [prefix // "lib64"]
        | I686 => [prefix // "lib"]
        end ++ [prefix // "usr/local/lib"] in
      let ssl := FS.glob (nodes w) (PurePath.to_str (prefix // "opt/_internal"))
                         "openssl-" "" in
      let paths :=
        match ssl with
        | first :: _ => paths ++ [PurePath.parse first // "lib"]
        | [] => paths
        end in
      (* Set excluded libraries. *)
      let excl_path :=
        match excludelist with
        | Some p => p
        | None => module_dir w // "share/excludelist"
        end in
      rbind (FS.open_read (nodes w) (PurePath.to_str excl_path)) (fun f =>
      let excluded := read_excluded (text f) in
      (* Set patchelf, if not provided. *)
      rbind
        match patchelf with
        | None => find_patchelf w
        | Some p =>
            if FS.exists_ (nodes w) (PurePath.to_str p) then Ok p
            else Raise AssertionError
        end
      (fun pe =>
      Ok (mkExtractor arch prefix tag excludelist pe excluded CPYTHON paths
                      python_prefix version))))
  | _ => Raise ValueError
  end).

(** [locate_library]. *)
Definition locate_library (e : Extractor) (ns : gmap string node) (name : string)
  : result Path :=
  match List.find (fun dirname => FS.exists_ ns (PurePath.to_str (dirname // name)))
                  (library_path e) with
  | Some dirname => Ok (dirname // name)
  | None => Raise FileNotFoundError
  end.

(** [subprocess.run('readelf -d ' + target, check=True)] followed by
    [pattern.findall], for a target that is a plain word ([Sh.plain]);
    any failure of the tool is [CalledProcessError]. *)
Definition readelf (ns : gmap string node) (target : string) : result (list string) :=
  match FS.open_read ns target with
  | Ok f =>
      match needed f with
      | Some names => Ok names
      | None => Raise CalledProcessError
      end
  | Raise _ => Raise CalledProcessError
  end.

(** Every name some file of the tree declares as NEEDED. *)
Definition all_needed (ns : gmap string node) : list string :=
  List.flat_map (fun kn =>
    match snd kn with
    | NFile f => default [] (needed f)
    | _ => []
    end) (map_to_list ns).

(** A depth no recursion of [ldd] reaches in this tree; the stack of the
    interpreter is taken to allow it. *)
Definition ldd_fuel (ns : gmap string node) : nat := S (List.length (all_needed ns)).

Definition add_trace (evs : list event) (w : world) : world :=
  mkWorld (nodes w) (cwd w) (module_dir w) (home w) (trace w ++ evs).

(** [ldd(target)]. *)
Definition ldd (e : Extractor) (target : string) : M (list (string * Path)) :=
  fun w =>
    match ldd_run (readelf (nodes w)) (locate_library e (nodes w)) (excluded e)
                  (ldd_fuel (nodes w)) target with
    | Some (st, Ok _) => (add_trace (calls st) w, Ok (dependencies st))
    | Some (st, Raise x) => (add_trace (calls st) w, Raise x)
    | None => (w, Raise RecursionError)
    end.

(** [patchelf --print-rpath target] for a target that is a plain word:
    the standard output, decoded. *)
Definition print_rpath (target : string) : M string :=
  tell (EvPrintRpath target) ;;
  FS.query (fun ns =>
    match FS.open_read ns target with
    | Ok f =>
        match needed f with
        | Some _ => Ok (rpath f +:+ newline)
        | None => Raise CalledProcessError
        end
    | Raise _ => Raise CalledProcessError
    end).

(** [patchelf --set-rpath 'rpath' target] for a target that is a plain
    word and a directive the quotes hold whole ([Sh.quotable]). The tool
    writes the file anew in its place, which leaves it with the mode
    [FS.written_mode] gives. *)
Definition patch_rpath (target rpath : string) : M unit :=
  tell (EvSetRpath target rpath) ;;
  FS.update (fun ns =>
    match FS.lookup_follow ns target with
    | Ok (q, Some (NFile f)) =>
        match needed f with
        | Some _ =>
            if FS.writable f
            then Ok (<[q := NFile (mkFile (FS.written_mode (st_mode f)) (needed f)
                                          rpath (text f))]> ns)
            else Raise CalledProcessError
        | None => Raise CalledProcessError
        end
    | _ => Raise CalledProcessError
    end).

(** [set_rpath(target, rpath)]. *)
Definition set_rpath (target rpath : string) : M unit :=
  out ← print_rpath target;
  let current_rpath := PyStr.strip out in
  if negb (String.eqb current_rpath rpath) then patch_rpath target rpath
  else mret tt.

(** The new mode of a copied library: [mode | S_IWUSR] when the owner
    cannot write, no change otherwise ([None]). *)
Definition writable_mode (mode : Z) : option Z :=
  if Z.eqb (Z.land mode FS.S_IWUSR) 0 then Some (Z.lor mode FS.S_IWUSR) else None.

(** The body of the loop "Copy and patch binary dependencies". *)
Definition copy_dependency (libdir : Path) (entry : string * Path) : M unit :=
  let '(name, src) := entry in
  let dst := PurePath.to_str (libdir // name) in
  FS.update (FS.copy (PurePath.to_str src) dst) ;;
  mode ← FS.query (fun ns => FS.stat_mode ns dst);
  match writable_mode mode with
  | Some mode' => FS.update (FS.chmod dst mode')
  | None => mret tt
  end ;;
  set_rpath dst "$ORIGIN".

(** [os.path.relpath(path, start)] on two paths. *)
Definition relpath (path start : Path) : M string :=
  fun w => (w, Ok (OsPath.relpath (cwd w) (PurePath.to_str path) (PurePath.to_str start))).

(** The body of the loop "Patch RPATHs of binary modules". *)
Definition patch_module (libdir : Path) (module : string) : M unit :=
  let src := PurePath.parse module in
  dst ← relpath libdir (PurePath.parent src);
  set_rpath (PurePath.to_str src) ("$ORIGIN/" +:+ dst).

(** The binaries [extract] resolves the dependencies of: the
    interpreter, then the extension modules of [lib-dynload]. *)
Definition entry_points (e : Extractor) (python packages : string)
  (ns : gmap string node) : list string :=
  PurePath.to_str (python_prefix e // ("bin/" +:+ python))
  :: FS.glob ns (PurePath.to_str (python_prefix e // (packages +:+ "/lib-dynload")))
             "" ".so".

(** The loop "Map binary dependencies" over the extension modules. *)
Fixpoint map_modules (e : Extractor) (modules : list string)
  (libs : list (string * Path)) : M (list (string * Path)) :=
  match modules with
  | [] => mret libs
  | module :: rest =>
      l ← ldd e module;
      map_modules e rest (Dict.update libs l)
  end.

(** The part "Map binary dependencies" of [extract]. *)
Definition map_dependencies (e : Extractor) (python packages : string)
  : M (list (string * Path)) :=
  libs ← ldd e (PurePath.to_str (python_prefix e // ("bin/" +:+ python)));
  let path := python_prefix e // (packages +:+ "/lib-dynload") in
  modules ← FS.query (fun ns => Ok (FS.glob ns (PurePath.to_str path) "" ".so"));
  map_modules e modules libs.

(** [extract(destination)]. *)
Definition extract (e : Extractor) (destination : Path) : M unit :=
  let python := "python" +:+ Version.short (version e) in
  let runtime := "bin/" +:+ python in
  let packages := "lib/" +:+ python in
  let major_s := PyInt.to_str (major (version e)) in
  (* Locate include files. *)
  include ← FS.query (fun ns =>
    match FS.glob ns (PurePath.to_str (python_prefix e // "include")) "" "" with
    | first :: _ => Ok ("include/" +:+ PurePath.name (PurePath.parse first))
    | [] => Raise NotImplementedError
    end);
  (* Clone Python installation. *)
  FS.update (FS.makedirs (PurePath.to_str (destination // "bin"))) ;;
  FS.update (FS.copy (PurePath.to_str (python_prefix e // runtime))
                     (PurePath.to_str (destination // runtime))) ;;
  let short := PurePath.to_str (destination // ("bin/python" +:+ major_s)) in
  FS.update (FS.unlink_missing_ok short) ;;
  FS.update (FS.symlink_to short python) ;;
  let short := PurePath.to_str (destination // "bin/python") in
  FS.update (FS.unlink_missing_ok short) ;;
  FS.update (FS.symlink_to short ("python" +:+ major_s)) ;;
  for_each (fun folder =>
      FS.run_copytree (PurePath.to_str (python_prefix e // folder))
                      (PurePath.to_str (destination // folder)))
    [packages; include] ;;
  (* Map binary dependencies. *)
  libs ← map_dependencies e python packages;
  (* Copy and patch binary dependencies. *)
  let libdir := destination // "lib" in
  for_each (copy_dependency libdir) libs ;;
  (* Patch RPATHs of binary modules. *)
  let path := destination // (packages +:+ "/lib-dynload") in
  modules ← FS.query (fun ns => Ok (FS.glob ns (PurePath.to_str path) "" ".so"));
  for_each (patch_module libdir) modules ;;
  (* Patch RPATHs of Python runtime. *)
  let src := destination // runtime in
  dst ← relpath libdir (PurePath.parent src);
  set_rpath (PurePath.to_str src) ("$ORIGIN/" +:+ dst).

End Ext.

(** ** The command line: [main] of [extractor_cli.py], after the
    arguments are parsed *)

Definition main (arch : Arch) (prefix : Path) (tag : string) (output : Path) : M Z :=
  fun w =>
    if FS.exists_ (nodes w) (PurePath.to_str output) then (w, Raise FileExistsError)
    else
      match Ext.init arch prefix tag None None w with
      | Raise e => (w, Raise e)
      | Ok extractor => (Ext.extract extractor output ;; mret 0%Z) w
      end.

(** ** The architecture on the command line *)

Module Cli.

(** The members of [Arch], in the order of the class. *)
Definition members : list Arch := [AARCH64; I686; X86_64].

(** [a.name]. *)
Definition member_name (a : Arch) : string :=
  match a with
  | AARCH64 => "AARCH64"
  | I686 => "I686"
  | X86_64 => "X86_64"
  end.

(** [str.lower()] on the code points below 256: the letters A..Z and the
    capital letters of Latin-1. *)
Definition lower_char (c : ascii) : ascii :=
  let n := nat_of_ascii c in
  if ((65 <=? n)%nat && (n <=? 90)%nat)
     || ((192 <=? n)%nat && (n <=? 222)%nat && negb (n =? 215)%nat)
  then ascii_of_nat (n + 32) else c.

Fixpoint lower (s : string) : string :=
  match s with
  | EmptyString => EmptyString
  | String c s' => String (lower_char c) (lower s')
  end.

(** [str.upper()] on texts of ASCII characters, which is what [main]
    applies it to (the argument has passed the choices of the parser):
    the letters a..z. *)
Definition upper_char (c : ascii) : ascii :=
  let n := nat_of_ascii c in
  if (97 <=? n)%nat && (n <=? 122)%nat then ascii_of_nat (n - 32) else c.

Fixpoint upper (s : string) : string :=
  match s with
  | EmptyString => EmptyString
  | String c s' => String (upper_char c) (upper s')
  end.

(** [Arch.__str__]. *)
Definition arch_str (a : Arch) : string := lower (member_name a).

(** [Arch[name]]: the member of that name, [None] for the [KeyError]. *)
Definition arch_of_name (name : string) : option Arch :=
  List.find (fun a => String.eqb (member_name a) name) members.

(** What becomes of the argument of [--arch]. *)
Inductive parsed : Type :=
| Parsed (a : Arch)
| UsageError        (* the parser rejects the argument and exits *)
| KeyError.         (* [Arch[...]] finds no member *)

(** [--arch] with [choices=tuple(str(a) for a in Arch)], then
    [Arch[parsed_args.arch.upper()]]. *)
Definition parse_arch (arg : string) : parsed :=
  if str_in arg (List.map arch_str members) then
    match arch_of_name (upper arg) with
    | Some a => Parsed a
    | None => KeyError
    end
  else UsageError.

End Cli.

(** ** Sample trees *)

Module Sample.

Definition elf (mode : Z) (names : list string) : node :=
  NFile (mkFile mode (Some names) "" "").

Definition plain (mode : Z) (content : string) : node :=
  NFile (mkFile mode None "" content).

Definition py : string := "img/opt/_internal/cpython-3.11.4".

(** A small image: the interpreter needs [libz]; the module [_ssl] needs
    [libssl], which needs [libcrypto], which needs [libssl] again;
    [libz] is read-only; [libc] is on the exclude list, the loader it
    needs is not. *)
Definition image (link : string) : list (string * node) :=
  [ ("img/opt/python/cp311-cp311", NLink link);
    (py, NDir); (py +:+ "/bin", NDir);
    (py +:+ "/bin/python3.11", elf 33261 ["libz.so.1"; "libc.so.6"]);
    (py +:+ "/include", NDir); (py +:+ "/include/python3.11", NDir);
    (py +:+ "/include/python3.11/Python.h", plain 33060 "h");
    (py +:+ "/lib", NDir); (py +:+ "/lib/python3.11", NDir);
    (py +:+ "/lib/python3.11/os.py", plain 33188 "os");
    (py +:+ "/lib/python3.11/lib-dynload", NDir);
    (py +:+ "/lib/python3.11/lib-dynload/_ssl.so",
       elf 33261 ["libssl.so.1.1"; "libz.so.1"; "libc.so.6"]);
    ("img/lib64", NDir);
    ("img/lib64/libz.so.1", elf 33133 ["libc.so.6"]);
    ("img/lib64/libc.so.6", elf 33261 ["ld-linux-x86-64.so.2"]);
    ("img/lib64/ld-linux-x86-64.so.2", elf 33261 []);
    ("img/usr/local/lib", NDir);
    ("img/usr/local/lib/libssl.so.1.1", elf 33261 ["libcrypto.so.1.1"]);
    ("img/usr/local/lib/libcrypto.so.1.1", elf 33261 ["libssl.so.1.1"; "libc.so.6"]);
    ("/pkg/share/excludelist",
       plain 33188 ("# host libraries" +:+ Ext.newline +:+ "libc.so.6" +:+ Ext.newline));
    ("/bin/patchelf", plain 33261 "") ].

Definition world_of (entries : list (string * node)) : world :=
  mkWorld (list_to_map entries) "/home/u" (PurePath.parse "/pkg")
          (PurePath.parse "/home/u") [].

(** The image as the manylinux images have it: the link names the
    installation prefix. *)
Definition w_image : world := world_of (image "/opt/_internal/cpython-3.11.4").

(** The image of the scenario of the specification: the link names the
    [bin] directory. *)
Definition w_link_bin : world := world_of (image "/opt/_internal/cpython-3.11.4/bin").

(** The image, and a destination [out] that exists already. *)
Definition w_existing : world :=
  world_of (("out", NDir) :: ("out/NOTES", plain 33188 "mine")
            :: image "/opt/_internal/cpython-3.11.4").

(** An image where a binary names a dependency by a path with a
    directory in it. *)
Definition w_nested : world :=
  world_of [ ("img/lib64", NDir); ("img/lib64/sub", NDir);
             ("img/lib64/sub/libx.so", elf 33261 []);
             ("img/app", elf 33261 ["sub/libx.so"]) ].

(** An image where a binary needs a library that is nowhere. *)
Definition w_missing : world :=
  world_of [ ("img/lib64", NDir); ("img/app", elf 33261 ["libgone.so.1"]) ].

(** A tree with one binary to patch. *)
Definition w_binary : world := world_of [ ("out/bin/python3.11", elf 33261 []) ].

(** The extractor [Ext.init] builds on [w_image]. *)
Definition extractor : Extractor :=
  mkExtractor X86_64 (PurePath.parse "img") "cp311-cp311" None
    (PurePath.parse "/bin/patchelf") ["libc.so.6"] CPYTHON
    [PurePath.parse "img/lib64"; PurePath.parse "img/usr/local/lib"]
    (PurePath.parse "img/opt/_internal/cpython-3.11.4")
    (mkPythonVersion 3 11 (PInt 4)).

End Sample.

(** ** Notions the properties are stated with *)

(** The names looked up by [locate_library] in a trace, in order. *)
Definition located (evs : list event) : list string :=
  List.flat_map (fun ev => match ev with EvLocate n => [n] | _ => [] end) evs.

(** The directives written by [patchelf --set-rpath] in a trace. *)
Definition directives (evs : list event) : list (string * string) :=
  List.flat_map (fun ev => match ev with EvSetRpath t r => [(t, r)] | _ => [] end) evs.

(** A text that is not empty and does not start with a slash. *)
Definition relative_text (s : string) : Prop :=
  s <> "" /\ PyStr.startswith_char "/"%char s = false.

(** A directive relative to the binary that holds it: the token
    [$ORIGIN] alone, or followed by a slash and a path that is not empty
    and does not start with a slash. *)
Definition is_self_relative (directive : string) : bool :=
  match FS.strip_prefix "$ORIGIN" directive with
  | Some EmptyString => true
  | Some (String "/"%char rel) =>
      negb (String.eqb rel "") && negb (PyStr.startswith_char "/"%char rel)
  | _ => false
  end.

(** What [extract] may write into the binary [target] of a bundle whose
    shared directory is [libdir], the working directory being [c]:
    [$ORIGIN], or [$ORIGIN/] and the relative path from some directory
    to [libdir]; self-relative in both cases. *)
Definition bundle_directive (c : string) (libdir : Path) (directive : string) : Prop :=
  is_self_relative directive = true /\
  (directive = "$ORIGIN" \/
   exists start : Path,
     directive = "$ORIGIN/" +:+ OsPath.relpath c (PurePath.to_str libdir)
                                               (PurePath.to_str start)).

(** [emits c G Q m]: run from a state whose working directory is [c],
    the computation [m] keeps it, adds events to the trace whose
    directives all satisfy [G], and returns only values that satisfy
    [Q]. *)
Definition emits {A : Type} (c : string) (G : string -> Prop) (Q : A -> Prop)
  (m : M A) : Prop :=
  forall w, cwd w = c ->
    cwd (m w).1 = c /\
    (exists evs, trace (m w).1 = trace w ++ evs /\
                 forall t d, (t, d) ∈ directives evs -> G d) /\
    (forall a, (m w).2 = Ok a -> Q a).

(** A line of the exclude list as the constructor keeps it: not empty,
    no comment, no white space around it, no line end in it. *)
Definition is_clean_name (x : string) : bool :=
  negb (String.eqb x "") && negb (PyStr.startswith_char "#"%char x)
  && String.eqb (PyStr.strip x) x
  && negb (PyStr.contains_char "010"%char x)
  && negb (PyStr.contains_char "013"%char x).

(** A name that is one path component: not empty, not ".", no slash. *)
Definition is_component (name : string) : bool :=
  negb (PyStr.contains_char "/"%char name)
  && negb (String.eqb name "") && negb (String.eqb name ".").

Section Dependencies.

Variable readelf : string -> result (list string).
Variable locate_library : string -> result Path.
Variable excluded : list string.

(** [reach ms n]: [n] is a transitive dependency of a binary whose NEEDED
    names are [ms], through names that are not excluded: it is one of
    [ms], or a dependency of the library one of them resolves to. *)
Inductive reach : list string -> string -> Prop :=
| reach_direct ms n :
    n ∈ ms -> str_in n excluded = false -> reach ms n
| reach_through ms m p ms' n :
    m ∈ ms -> str_in m excluded = false ->
    locate_library m = Ok p -> readelf (PurePath.to_str p) = Ok ms' ->
    reach ms' n -> reach ms n.

(** The transitive, non-excluded dependencies of the binary [target]. *)
Definition depends_on (target n : string) : Prop :=
  exists ms, readelf target = Ok ms /\ reach ms n.

(** [needs ms n]: [n] is a transitive dependency of a binary whose NEEDED
    names are [ms], through whatever names, excluded or not. *)
Inductive needs : list string -> string -> Prop :=
| needs_direct ms n :
    n ∈ ms -> needs ms n
| needs_through ms m p ms' n :
    m ∈ ms ->
    locate_library m = Ok p -> readelf (PurePath.to_str p) = Ok ms' ->
    needs ms' n -> needs ms n.

(** What holds of the shared state between two steps of [recurse]. *)
Definition ldd_wf (st : ldd_state) : Prop :=
  NoDup (Dict.keys (dependencies st)) /\
  NoDup (located (calls st)) /\
  (forall n, n ∈ located (calls st) -> n ∈ Dict.keys (dependencies st)) /\
  (forall n p, (n, p) ∈ dependencies st ->
     str_in n excluded = false /\ locate_library n = Ok p).

(** The NEEDED names of the library [n] resolves to are keys in [ks],
    the excluded ones apart. *)
Definition closed_in (ks : list string) (n : string) : Prop :=
  forall p ms m,
    locate_library n = Ok p -> readelf (PurePath.to_str p) = Ok ms ->
    m ∈ ms -> str_in m excluded = false -> m ∈ ks.

(** What a normal return of the loop over [ms], from state [st] to
    state [st'], establishes. *)
Definition step_ok (ms : list string) (st st' : ldd_state) : Prop :=
  ldd_wf st' /\
  (exists new, dependencies st' = dependencies st ++ new) /\
  (forall m, m ∈ ms -> str_in m excluded = false ->
     m ∈ Dict.keys (dependencies st')) /\
  (forall n, n ∈ Dict.keys (dependencies st') ->
     n ∉ Dict.keys (dependencies st) ->
     closed_in (Dict.keys (dependencies st')) n /\ reach ms n).

(** What any return of the loop over [ms] establishes. *)
Definition visit_post (ms : list string) (st : ldd_state)
  (out : ldd_state * result unit) : Prop :=
  (exists evs, calls (fst out) = calls st ++ evs) /\
  NoDup (located (calls (fst out))) /\
  (is_ok (snd out) = true -> step_ok ms st (fst out)).

(** What any return of [recurse(target)] establishes. *)
Definition recurse_post (target : string) (st : ldd_state)
  (out : ldd_state * result unit) : Prop :=
  (exists evs, calls (fst out) = calls st ++ evs) /\
  NoDup (located (calls (fst out))) /\
  (is_ok (snd out) = true ->
   exists ms, readelf target = Ok ms /\ step_ok ms st (fst out)).

(** The names of [universe] that are not yet keys: what bounds the
    recursion. *)
Definition pending (universe : list string) (st : ldd_state) : nat :=
  List.length
    (List.filter (fun u => negb (Dict.contains u (dependencies st))) universe).

End Dependencies.

Section ResolverCalls.

Variable readelf : string -> result (list string).
Variable locate_library : string -> result Path.
Variable excluded : list string.

(** A call the resolver may make: reading a binary, or looking up a name
    that is not excluded. *)
Definition resolver_call (ev : event) : Prop :=
  match ev with
  | EvReadelf _ => True
  | EvLocate m => str_in m excluded = false
  | _ => False
  end.

(** What a return of [recurse] or of its loop, from state [st], shows of
    the calls made: only resolver calls were added; an exception is the
    one of the last call made; after a normal return every entry added
    names a binary that [readelf] read. *)
Definition calls_post (st : ldd_state) (out : ldd_state * result unit) : Prop :=
  (exists evs, calls out.1 = calls st ++ evs /\ List.Forall resolver_call evs) /\
  (forall x, out.2 = Raise x ->
     (exists t, readelf t = Raise x /\ last (calls out.1) = Some (EvReadelf t)) \/
     (exists m, locate_library m = Raise x /\ str_in m excluded = false /\
                last (calls out.1) = Some (EvLocate m))) /\
  (is_ok out.2 = true ->
   forall n p, (n, p) ∈ dependencies out.1 ->
     (n, p) ∈ dependencies st \/ is_ok (readelf (PurePath.to_str p)) = true).

End ResolverCalls.

(** The file a dependency [f] of the image becomes in the bundle: the
    same content and NEEDED names, the mode of the copy made writable by
    the owner, and the directive [$ORIGIN]; when the directive already
    strips to [$ORIGIN] it is kept and the file is not written again. *)
Definition bundled (f : file) : file :=
  let m0 := st_mode (FS.copied f) in
  let m1 := default m0 (Ext.writable_mode m0) in
  if String.eqb (PyStr.strip (rpath f)) "$ORIGIN"
  then mkFile m1 (needed f) (rpath f) (text f)
  else mkFile (FS.written_mode m1) (needed f) "$ORIGIN" (text f).

(** The set-id bits of a mode apart, which a write may clear. *)
Definition same_permissions (m m' : Z) : Prop :=
  forall i : Z, i <> 10%Z -> i <> 11%Z -> Z.testbit m' i = Z.testbit m i.

(** A text [glob.glob] takes as it is: none of the characters [*?[] that
    make a pattern of it, and no NUL. *)
Definition glob_literal (s : string) : bool :=
  negb (PyStr.contains_char "*"%char s) && negb (PyStr.contains_char "?"%char s)
  && negb (PyStr.contains_char "["%char s) && negb (PyStr.contains_char "000"%char s).

(** The three places [extract] writes a directive to, for a bundle at
    [destination] and an interpreter named [python] ([pythonX.Y]): a
    library under [lib] gets [$ORIGIN], a module of [lib-dynload] gets
    [$ORIGIN/../..], the interpreter gets [$ORIGIN/../lib]. *)
Definition directive_site (destination : Path) (python : string) (t d : string) : Prop :=
  (d = "$ORIGIN" /\
   exists name, t = PurePath.to_str (destination // "lib" // name)) \/
  (d = "$ORIGIN/../.." /\
   exists rel, is_component rel = true /\
     t = PurePath.to_str
           (destination // (("lib/" +:+ python) +:+ "/lib-dynload") // rel)) \/
  (d = "$ORIGIN/../lib" /\
   t = PurePath.to_str (destination // ("bin/" +:+ python))).

(** [emits_at c G Q m]: as [emits], with a condition [G] on the binary
    and the directive together. *)
Definition emits_at {A : Type} (c : string) (G : string -> string -> Prop)
  (Q : A -> Prop) (m : M A) : Prop :=
  forall w, cwd w = c ->
    cwd (m w).1 = c /\
    (exists evs, trace (m w).1 = trace w ++ evs /\
                 forall t d, (t, d) ∈ directives evs -> G t d) /\
    (forall a, (m w).2 = Ok a -> Q a).

(** ** Sentences of the specification, as they are written *)

(** "Parsing and display are lossless": for every [major.minor.rest]
    with decimal major and minor, and a rest that is decimal or a label
    that is not a number. *)
Definition lossless_on_decimal_forms : Prop :=
  forall major_s minor_s rest : string,
    Version.is_decimal major_s = true ->
    Version.is_decimal minor_s = true ->
    Version.is_decimal rest = true \/ PyInt.of_str rest = None ->
    exists v,
      Version.from_str (major_s +:+ "." +:+ minor_s +:+ "." +:+ rest) = Ok v /\
      Version.long v = major_s +:+ "." +:+ minor_s +:+ "." +:+ rest.

(** "An image whose interpreter link is [.../cpython-3.11.4/bin] yields
    CPython 3.11.4 with prefix [/opt/_internal/cpython-3.11.4]", the
    exclude list and [patchelf] being in place. *)
Definition bin_link_yields_descriptor : Prop :=
  forall (w : world) (a : Arch) (pre : Path),
    FS.readlink (nodes w) (PurePath.to_str (pre // "opt/python/cp311-cp311"))
      = Ok "/opt/_internal/cpython-3.11.4/bin" ->
    is_ok (FS.open_read (nodes w)
             (PurePath.to_str (module_dir w // "share/excludelist"))) = true ->
    is_ok (Ext.find_patchelf w) = true ->
    exists e,
      Ext.init a pre "cp311-cp311" None None w = Ok e /\
      impl e = CPYTHON /\
      version e = mkPythonVersion 3 11 (PInt 4) /\
      python_prefix e = pre // "opt/_internal/cpython-3.11.4".

(** "[extract] on a destination that exists fails and leaves it as it
    was." *)
Definition extract_refuses_existing : Prop :=
  forall (e : Extractor) (destination : Path) (w : world),
    FS.exists_ (nodes w) (PurePath.to_str destination) = true ->
    is_ok (Ext.extract e destination w).2 = false /\
    nodes (Ext.extract e destination w).1 = nodes w.

(** "Across one whole extraction each library name is looked up at most
    once." *)
Definition located_once_per_extraction : Prop :=
  forall (e : Extractor) (python packages : string) (w : world),
    trace w = [] ->
    NoDup (located (trace (Ext.map_dependencies e python packages w).1)).

(** "A second [set_rpath] with the same directive makes no patch call." *)
Definition second_set_rpath_never_patches : Prop :=
  forall (target directive : string) (w : world),
    (Ext.set_rpath target directive w).2 = Ok tt ->
    directives (trace (Ext.set_rpath target directive
                         (Ext.set_rpath target directive w).1).1)
    = directives (trace (Ext.set_rpath target directive w).1).

(** "The closure contains every transitive dependency name that is not
    in the exclusion set." *)
Definition closure_has_every_dependency : Prop :=
  forall (e : Extractor) (python packages : string) (w : world)
         (libs : list (string * Path)) (entry : string) (ms : list string) (n : string),
    (Ext.map_dependencies e python packages w).2 = Ok libs ->
    entry ∈ Ext.entry_points e python packages (nodes w) ->
    Ext.readelf (nodes w) entry = Ok ms ->
    needs (Ext.readelf (nodes w)) (Ext.locate_library e (nodes w)) ms n ->
    str_in n (excluded e) = false ->
    n ∈ Dict.keys libs.

(** "The base name of a resolved path always is its key." *)
Definition resolved_basename_is_key : Prop :=
  forall (e : Extractor) (target : string) (w : world) deps n p,
    (Ext.ldd e target w).2 = Ok deps ->
    (n, p) ∈ deps -> PurePath.name p = n.

(** * Properties *)

(** ** The model on concrete inputs *)

Example from_str_release :
  Version.from_str "3.11.4" = Ok (mkPythonVersion 3 11 (PInt 4)).
Proof. reflexivity. Qed.

Example from_str_candidate :
  Version.from_str "3.13.0rc1" = Ok (mkPythonVersion 3 13 (PStr "0rc1")).
Proof. reflexivity. Qed.

Example from_str_two_parts : Version.from_str "3.11" = Raise ValueError.
Proof. reflexivity. Qed.

Example int_with_underscore : PyInt.of_str " +1_0 " = Some 10%Z.
Proof. reflexivity. Qed.

Example int_double_underscore : PyInt.of_str "1__0" = None.
Proof. reflexivity. Qed.

Example path_join_relative :
  PurePath.to_str (PurePath.parse "images/2014/x86_64" // "opt/python/cp311-cp311")
  = "images/2014/x86_64/opt/python/cp311-cp311".
Proof. reflexivity. Qed.

Example path_join_absolute : PurePath.to_str (PurePath.parse "a//b/./c/" // "/x") = "/x".
Proof. reflexivity. Qed.

Example path_name_of_bin_link :
  PurePath.name (PurePath.parse "/opt/_internal/cpython-3.11.4/bin") = "bin".
Proof. reflexivity. Qed.

Example normpath_dots : OsPath.normpath "/a/../../b/./c//" = "/b/c".
Proof. reflexivity. Qed.

Example relpath_of_runtime : OsPath.relpath "/home/u" "out/lib" "out/bin" = "../lib".
Proof. reflexivity. Qed.

Example relpath_of_module :
  OsPath.relpath "/home/u" "out/lib" "out/lib/python3.11/lib-dynload" = "../..".
Proof. reflexivity. Qed.

Example init_on_sample :
  Ext.init X86_64 (PurePath.parse "img") "cp311-cp311" None None Sample.w_image
  = Ok Sample.extractor.
Proof. vm_compute. reflexivity. Qed.

Example extract_on_sample :
  (Ext.extract Sample.extractor (PurePath.parse "out") Sample.w_image).2 = Ok tt.
Proof. vm_compute. reflexivity. Qed.

(** ** Strings and integers *)

Section StringFacts.

Lemma split_zero sep s : PyStr.split sep 0 s = [s].
Proof.
  induction s as [|c s IH]; simpl; [reflexivity|].
  destruct (Ascii.eqb c sep); [reflexivity|]. now rewrite IH.
Qed.

Lemma split_at_first sep k a b :
  PyStr.contains_char sep a = false ->
  PyStr.split sep (S k) (a +:+ String sep b) = a :: PyStr.split sep k b.
Proof.
  induction a as [|c a IH]; simpl; intros H.
  - now rewrite Ascii.eqb_refl.
  - apply orb_false_iff in H as [Hc Ha].
    rewrite Hc, (IH Ha). reflexivity.
Qed.

Lemma all_chars_weaken (P Q : ascii -> bool) s :
  (forall c, P c = true -> Q c = true) ->
  PyStr.all_chars P s = true -> PyStr.all_chars Q s = true.
Proof.
  intros HPQ. induction s as [|c s IH]; simpl; [easy|].
  intros [Hc Hs]%andb_true_iff. rewrite (HPQ _ Hc), (IH Hs). reflexivity.
Qed.

Lemma all_chars_no_char P c s :
  P c = false -> PyStr.all_chars P s = true -> PyStr.contains_char c s = false.
Proof.
  intros HP. induction s as [|c' s IH]; simpl; [easy|].
  intros [Hc Hs]%andb_true_iff. rewrite (IH Hs), orb_false_r.
  destruct (Ascii.eqb_spec c' c); [congruence | reflexivity].
Qed.

Lemma rstrip_no_space s :
  PyStr.all_chars (fun c => negb (PyStr.is_space c)) s = true -> PyStr.rstrip s = s.
Proof.
  induction s as [|c s IH]; simpl; [easy|].
  intros [Hc Hs]%andb_true_iff. rewrite (IH Hs).
  apply negb_true_iff in Hc. rewrite Hc. now destruct s.
Qed.

Lemma lstrip_no_space s :
  PyStr.all_chars (fun c => negb (PyStr.is_space c)) s = true -> PyStr.lstrip s = s.
Proof.
  destruct s as [|c s]; simpl; [easy|].
  intros [Hc Hs]%andb_true_iff. apply negb_true_iff in Hc. now rewrite Hc.
Qed.

Lemma strip_no_space s :
  PyStr.all_chars (fun c => negb (PyStr.is_space c)) s = true -> PyStr.strip s = s.
Proof.
  intros H. unfold PyStr.strip. rewrite (lstrip_no_space _ H). now apply rstrip_no_space.
Qed.

End StringFacts.

Section IntegerFacts.

Lemma uint_chars d : PyStr.all_chars PyInt.is_digit (NilEmpty.string_of_uint d) = true.
Proof. induction d; simpl; auto. Qed.

Lemma string_of_int_chars i :
  PyStr.all_chars PyInt.digit_or_minus (NilZero.string_of_int i) = true.
Proof.
  assert (Hu : forall d, PyStr.all_chars PyInt.digit_or_minus (NilZero.string_of_uint d) = true).
  { intros d. unfold NilZero.string_of_uint.
    destruct d; try reflexivity;
      apply (all_chars_weaken PyInt.is_digit); try apply uint_chars;
      intros c Hc; unfold PyInt.digit_or_minus; now rewrite Hc. }
  destruct i as [d|d]; simpl; [apply Hu|].
  now rewrite Hu.
Qed.

Lemma to_str_chars n : PyStr.all_chars PyInt.digit_or_minus (PyInt.to_str n) = true.
Proof. apply string_of_int_chars. Qed.

Lemma digit_or_minus_not_space c :
  PyInt.digit_or_minus c = true -> negb (PyStr.is_space c) = true.
Proof.
  destruct c as [[] [] [] [] [] [] [] []]; vm_compute; congruence.
Qed.

Lemma to_str_no_dot n : PyStr.contains_char "." (PyInt.to_str n) = false.
Proof. apply (all_chars_no_char PyInt.digit_or_minus); [reflexivity | apply to_str_chars]. Qed.

Lemma to_str_strip n : PyStr.strip (PyInt.to_str n) = PyInt.to_str n.
Proof.
  apply strip_no_space, (all_chars_weaken PyInt.digit_or_minus);
    [apply digit_or_minus_not_space | apply to_str_chars].
Qed.

Lemma skip_no_space s :
  PyStr.all_chars (fun c => negb (PyInt.is_space c)) s = true ->
  PyInt.skip_right (PyInt.skip_left s) = s.
Proof.
  intros H.
  assert (Hl : PyInt.skip_left s = s).
  { destruct s as [|c s]; simpl in *; [easy|].
    apply andb_true_iff in H as [Hc _]. apply negb_true_iff in Hc. now rewrite Hc. }
  rewrite Hl. induction s as [|c s IH]; simpl in *; [easy|].
  apply andb_true_iff in H as [Hc Hs].
  assert (Hl' : PyInt.skip_left s = s).
  { destruct s as [|c' s]; simpl in *; [easy|].
    apply andb_true_iff in Hs as [Hc' _]. apply negb_true_iff in Hc'. now rewrite Hc'. }
  rewrite (IH Hs Hl'). apply negb_true_iff in Hc. rewrite Hc. now destruct s.
Qed.

Lemma digit_or_minus_not_int_space c :
  PyInt.digit_or_minus c = true -> negb (PyInt.is_space c) = true.
Proof.
  destruct c as [[] [] [] [] [] [] [] []]; vm_compute; congruence.
Qed.

Lemma scan_digits_uint d :
  d <> Nil -> PyInt.scan_digits (NilEmpty.string_of_uint d) = Some d.
Proof.
  induction d; intros Hd; try congruence;
    (destruct (uint_eq_dec d Nil) as [->|Hn];
     [reflexivity
     | specialize (IHd Hn); simpl;
       destruct d; try congruence; simpl in *; now rewrite IHd]).
Qed.

Lemma of_str_unsigned d :
  d <> Nil ->
  PyInt.of_str (NilEmpty.string_of_uint d) = Some (Z.of_int (Pos d)).
Proof.
  intros Hd. unfold PyInt.of_str.
  rewrite skip_no_space.
  2:{ apply (all_chars_weaken PyInt.is_digit); [|apply uint_chars].
      intros c Hc. apply digit_or_minus_not_int_space.
      unfold PyInt.digit_or_minus. now rewrite Hc. }
  pose proof (scan_digits_uint d Hd) as Hs.
  destruct d; try congruence;
    change (NilEmpty.string_of_uint ?x) with (NilEmpty.string_of_uint x) in *;
    cbn [NilEmpty.string_of_uint] in *; rewrite Hs; reflexivity.
Qed.

(** [int(str(n)) == n]. *)
Lemma of_str_to_str n : PyInt.of_str (PyInt.to_str n) = Some n.
Proof.
  destruct n as [|p|p].
  - reflexivity.
  - unfold PyInt.to_str. cbn [Z.to_int NilZero.string_of_int].
    pose proof (DecimalPos.Unsigned.to_uint_nonnil p) as Hn.
    unfold NilZero.string_of_uint.
    replace (match Pos.to_uint p with Nil => "0" | _ => NilEmpty.string_of_uint (Pos.to_uint p) end)
      with (NilEmpty.string_of_uint (Pos.to_uint p)) by (now destruct (Pos.to_uint p)).
    rewrite (of_str_unsigned _ Hn). f_equal.
    change (Z.of_int (Z.to_int (Z.pos p)) = Z.pos p). apply DecimalZ.of_to.
  - unfold PyInt.to_str. cbn [Z.to_int NilZero.string_of_int].
    pose proof (DecimalPos.Unsigned.to_uint_nonnil p) as Hn.
    unfold NilZero.string_of_uint.
    replace (match Pos.to_uint p with Nil => "0" | _ => NilEmpty.string_of_uint (Pos.to_uint p) end)
      with (NilEmpty.string_of_uint (Pos.to_uint p)) by (now destruct (Pos.to_uint p)).
    unfold PyInt.of_str.
    rewrite skip_no_space.
    2:{ simpl. apply (all_chars_weaken PyInt.is_digit); [|apply uint_chars].
        intros c Hc. apply digit_or_minus_not_int_space.
        unfold PyInt.digit_or_minus. now rewrite Hc. }
    rewrite (scan_digits_uint _ Hn). simpl. f_equal.
    change (Z.of_int (Z.to_int (Z.neg p)) = Z.neg p). apply DecimalZ.of_to.
Qed.

End IntegerFacts.

(** ** [PythonVersion]: parsing and display *)

Section VersionFacts.

Lemma canonical_inv s :
  Version.is_canonical s = true ->
  exists n, PyInt.of_str s = Some n /\ PyInt.to_str n = s.
Proof.
  unfold Version.is_canonical. destruct (PyInt.of_str s) as [n|]; [|easy].
  intros H%String.eqb_eq. now exists n.
Qed.

Lemma canonical_no_dot s :
  Version.is_canonical s = true -> PyStr.contains_char "." s = false.
Proof. intros (n & _ & <-)%canonical_inv. apply to_str_no_dot. Qed.

Lemma split_three a b c :
  PyStr.contains_char "." a = false -> PyStr.contains_char "." b = false ->
  PyStr.split "." 2 (a +:+ "." +:+ b +:+ "." +:+ c) = [a; b; c].
Proof.
  intros Ha Hb.
  change (a +:+ "." +:+ b +:+ "." +:+ c) with (a +:+ String "." (b +:+ String "." c)).
  now rewrite (split_at_first _ _ _ _ Ha), (split_at_first _ _ _ _ Hb), split_zero.
Qed.

Lemma patch_eqb_eq p q : Version.patch_eqb p q = true <-> p = q.
Proof.
  destruct p, q; simpl; split; try congruence.
  - now intros ->%Z.eqb_eq.
  - intros [= ->]. apply Z.eqb_refl.
  - now intros ->%String.eqb_eq.
  - intros [= ->]. apply String.eqb_refl.
Qed.

Lemma version_eqb_eq v w : Version.eqb v w = true <-> v = w.
Proof.
  destruct v as [a b p], w as [a' b' p']. unfold Version.eqb. simpl.
  rewrite !andb_true_iff, !Z.eqb_eq, patch_eqb_eq.
  split; [intros [[-> ->] ->]; reflexivity | intros [= -> -> ->]; auto].
Qed.

End VersionFacts.

(** C9, as the specification words it, fails: a numeral with a leading
    zero is read as a number and displayed without the zero. *)
Lemma version_leading_zero_not_lossless :
  Version.is_decimal "3" = true /\ Version.is_decimal "11" = true /\
  Version.is_decimal "04" = true /\
  Version.from_str "3.11.04" = Ok (mkPythonVersion 3 11 (PInt 4)) /\
  Version.long (mkPythonVersion 3 11 (PInt 4)) = "3.11.4" /\
  ~ lossless_on_decimal_forms.
Proof.
  repeat split; try reflexivity.
  intros H.
  destruct (H "3" "11" "04" eq_refl eq_refl (or_introl eq_refl)) as (v & Hv & Hl).
  vm_compute in Hv. injection Hv as <-. vm_compute in Hl. discriminate.
Qed.

(** C9 (amended): when major and minor are numerals that [int()] reads
    and [str()] writes back unchanged (no leading zero, sign [+], white
    space or underscore), and the rest is such a numeral or a label that
    [int()] rejects, [from_str] followed by [long] gives the string back;
    and two versions are equal under [==] exactly when their components
    are. *)
Theorem version_roundtrip_canonical (major_s minor_s rest : string) :
  Version.is_canonical major_s = true ->
  Version.is_canonical minor_s = true ->
  Version.is_canonical rest = true \/ PyInt.of_str rest = None ->
  (exists v, Version.from_str (major_s +:+ "." +:+ minor_s +:+ "." +:+ rest) = Ok v /\
             Version.long v = major_s +:+ "." +:+ minor_s +:+ "." +:+ rest) /\
  (forall v w, Version.eqb v w = true <-> v = w).
Proof.
  intros Ha Hb Hc. split; [|apply version_eqb_eq].
  unfold Version.from_str.
  rewrite (split_three _ _ _ (canonical_no_dot _ Ha) (canonical_no_dot _ Hb)).
  apply canonical_inv in Ha as (a & -> & Ea), Hb as (b & -> & Eb).
  eexists. split; [reflexivity|].
  unfold Version.long. simpl. rewrite Ea, Eb.
  destruct Hc as [(c & -> & Ec)%canonical_inv | ->]; simpl; now try rewrite Ec.
Qed.

Lemma version_roundtrip_canonical_witness :
  (exists v, Version.from_str "3.11.4" = Ok v /\ Version.long v = "3.11.4") /\
  (forall v w, Version.eqb v w = true <-> v = w).
Proof.
  apply (version_roundtrip_canonical "3" "11" "4");
    [reflexivity | reflexivity | left; reflexivity].
Defined.

(** ** Dictionaries *)

Section DictFacts.
Context {V : Type}.
Implicit Types (d : list (string * V)) (k : string) (v : V).

Lemma contains_keys k d : Dict.contains k d = true <-> k ∈ Dict.keys d.
Proof.
  induction d as [|[k' v'] d IH]; simpl.
  - rewrite elem_of_nil. split; [discriminate | tauto].
  - rewrite elem_of_cons, orb_true_iff, IH, String.eqb_eq. intuition congruence.
Qed.

Lemma contains_false k d : Dict.contains k d = false <-> k ∉ Dict.keys d.
Proof. rewrite <- contains_keys. destruct (Dict.contains k d); intuition congruence. Qed.

Lemma set_fresh k v d : Dict.contains k d = false -> Dict.set k v d = d ++ [(k, v)].
Proof.
  induction d as [|[k' v'] d IH]; simpl; [reflexivity|].
  intros [Hk Hd]%orb_false_iff. rewrite Hk, (IH Hd). reflexivity.
Qed.

Lemma keys_app d1 d2 : Dict.keys (d1 ++ d2) = Dict.keys d1 ++ Dict.keys d2.
Proof. apply List.map_app. Qed.

Lemma keys_set k v d :
  Dict.keys (Dict.set k v d) =
  if Dict.contains k d then Dict.keys d else Dict.keys d ++ [k].
Proof.
  induction d as [|[k' v'] d IH]; simpl; [reflexivity|].
  destruct (String.eqb k' k) eqn:E; simpl; [reflexivity|].
  rewrite IH. now destruct (Dict.contains k d).
Qed.

Lemma NoDup_snoc_fresh (l : list string) x : NoDup l -> x ∉ l -> NoDup (l ++ [x]).
Proof.
  intros Hl Hx. apply NoDup_app. split; [assumption|]. split.
  - intros y Hy ->%list_elem_of_singleton. contradiction.
  - apply NoDup_singleton.
Qed.

Lemma set_NoDup k v d : NoDup (Dict.keys d) -> NoDup (Dict.keys (Dict.set k v d)).
Proof.
  intros H. rewrite keys_set. destruct (Dict.contains k d) eqn:E; [assumption|].
  apply NoDup_snoc_fresh; [assumption | now apply contains_false].
Qed.

Lemma elem_of_keys_set k v d k' :
  k' ∈ Dict.keys (Dict.set k v d) <-> k' = k \/ k' ∈ Dict.keys d.
Proof.
  rewrite keys_set. destruct (Dict.contains k d) eqn:E.
  - apply contains_keys in E. intuition congruence.
  - rewrite elem_of_app, list_elem_of_singleton. tauto.
Qed.

Lemma get_set_same k v d : Dict.get k (Dict.set k v d) = Some v.
Proof.
  induction d as [|[k' v'] d IH]; simpl.
  - now rewrite String.eqb_refl.
  - destruct (String.eqb k' k) eqn:E; simpl; now rewrite E.
Qed.

Lemma get_set_other k v d k' : k' <> k -> Dict.get k' (Dict.set k v d) = Dict.get k' d.
Proof.
  intros Hne. induction d as [|[k0 v0] d IH]; simpl.
  - destruct (String.eqb_spec k k'); congruence.
  - destruct (String.eqb_spec k0 k) as [->|]; simpl.
    + destruct (String.eqb_spec k k'); congruence.
    + now rewrite IH.
Qed.

Lemma update_NoDup d other :
  NoDup (Dict.keys d) -> NoDup (Dict.keys (Dict.update d other)).
Proof.
  unfold Dict.update. revert d.
  induction other as [|[k v] other IH]; simpl; intros d H; [assumption|].
  apply IH, set_NoDup, H.
Qed.

Lemma elem_of_keys_update d other k :
  k ∈ Dict.keys (Dict.update d other) <-> k ∈ Dict.keys d \/ k ∈ Dict.keys other.
Proof.
  unfold Dict.update. revert d.
  induction other as [|[k0 v0] other IH]; simpl; intros d.
  - rewrite elem_of_nil. tauto.
  - rewrite IH, elem_of_keys_set, elem_of_cons. tauto.
Qed.

Lemma elem_of_keys_get k d : k ∈ Dict.keys d <-> is_Some (Dict.get k d).
Proof.
  induction d as [|[k' v'] d IH]; simpl.
  - rewrite elem_of_nil. split; [tauto | intros [? [=]]].
  - rewrite elem_of_cons, IH. destruct (String.eqb_spec k' k) as [->|Hne].
    + split; [eauto | auto].
    + intuition congruence.
Qed.

Lemma elem_of_set k v d kv :
  kv ∈ Dict.set k v d -> kv = (k, v) \/ kv ∈ d.
Proof.
  induction d as [|[k0 v0] d IH]; simpl.
  - intros ->%list_elem_of_singleton. now left.
  - destruct (String.eqb_spec k0 k) as [->|Hne]; rewrite !elem_of_cons.
    + intros [->|H]; auto.
    + intros [->|H]; [auto|]. destruct (IH H); auto.
Qed.

Lemma elem_of_update d other kv :
  kv ∈ Dict.update d other -> kv ∈ d \/ kv ∈ other.
Proof.
  unfold Dict.update. revert d.
  induction other as [|[k0 v0] other IH]; simpl; intros d H; [now left|].
  destruct (IH _ H) as [[->|Hd]%elem_of_set | Ho]; rewrite ?elem_of_cons; auto.
Qed.

End DictFacts.

(** ** The resolver *)

Lemma located_app evs1 evs2 : located (evs1 ++ evs2) = located evs1 ++ located evs2.
Proof. apply List.flat_map_app. Qed.

Lemma directives_app evs1 evs2 :
  directives (evs1 ++ evs2) = directives evs1 ++ directives evs2.
Proof. apply List.flat_map_app. Qed.

Section ResolverFacts.

Variable readelf : string -> result (list string).
Variable locate_library : string -> result Path.
Variable excluded : list string.

Local Abbreviation reach := (reach readelf locate_library excluded).
Local Abbreviation ldd_wf := (ldd_wf locate_library excluded).
Local Abbreviation closed_in := (closed_in readelf locate_library excluded).
Local Abbreviation step_ok := (step_ok readelf locate_library excluded).
Local Abbreviation visit_post := (visit_post readelf locate_library excluded).
Local Abbreviation recurse_post := (recurse_post readelf locate_library excluded).

Lemma reach_mono ms ms' n : (forall m, m ∈ ms -> m ∈ ms') -> reach ms n -> reach ms' n.
Proof.
  intros Hsub H. destruct H as [ms n Hin Hex | ms m p ms0 n Hin Hex Hl Hr Hn].
  - apply reach_direct; auto.
  - eapply reach_through; eauto.
Qed.

Lemma closed_in_mono ks ks' n :
  (forall m, m ∈ ks -> m ∈ ks') -> closed_in ks n -> closed_in ks' n.
Proof. intros Hsub H p ms m Hl Hr Hm Hex. eauto. Qed.

Lemma step_ok_refl st : ldd_wf st -> step_ok [] st st.
Proof.
  intros Hwf. split; [assumption|]. split; [exists []; now rewrite app_nil_r|].
  split; [intros m []%elem_of_nil | intros n Hn Hn'; contradiction].
Qed.

Lemma wf_record_readelf st target :
  ldd_wf st -> ldd_wf (record_call (EvReadelf target) st).
Proof.
  intros (H1 & H2 & H3 & H4). unfold ldd_wf, record_call. simpl.
  rewrite located_app. simpl. rewrite app_nil_r. auto.
Qed.

Lemma wf_insert st m path :
  ldd_wf st ->
  Dict.contains m (dependencies st) = false ->
  str_in m excluded = false ->
  locate_library m = Ok path ->
  ldd_wf (mkLdd (Dict.set m path (dependencies st)) (calls st ++ [EvLocate m])).
Proof.
  intros (H1 & H2 & H3 & H4) Hfresh Hex Hloc.
  pose proof (proj1 (contains_false _ _) Hfresh) as Hnotin.
  unfold ldd_wf. simpl. rewrite (set_fresh _ _ _ Hfresh), keys_app, located_app. simpl.
  repeat split.
  - now apply NoDup_snoc_fresh.
  - apply NoDup_snoc_fresh; [assumption | intros Hin; apply Hnotin, H3, Hin].
  - intros n [Hn | ->%list_elem_of_singleton]%elem_of_app; apply elem_of_app;
      [left; auto | right; now apply list_elem_of_singleton].
  - apply elem_of_app in H as [H | [= -> ->]%list_elem_of_singleton];
      [now apply (H4 n p) | assumption].
  - apply elem_of_app in H as [H | [= -> ->]%list_elem_of_singleton];
      [now apply (H4 n p) | assumption].
Qed.

Lemma visit_spec rec :
  (forall target st out, ldd_wf st -> rec target st = Some out -> recurse_post target st out) ->
  forall ms st out,
    ldd_wf st -> visit locate_library excluded rec ms st = Some out -> visit_post ms st out.
Proof.
  intros Hrec ms. induction ms as [|m rest IH]; intros st out Hwf Hrun; simpl in Hrun.
  - injection Hrun as <-. split; [exists []; now rewrite app_nil_r|].
    split; [apply Hwf | intros _; now apply step_ok_refl].
  - destruct (negb (Dict.contains m (dependencies st)) && negb (str_in m excluded)) eqn:Hc.
    + apply andb_true_iff in Hc as [Hfresh%negb_true_iff Hex%negb_true_iff].
      pose proof (proj1 (contains_false _ _) Hfresh) as Hnotin.
      destruct Hwf as (W1 & W2 & W3 & W4).
      assert (Hnd : NoDup (located (calls st ++ [EvLocate m]))).
      { rewrite located_app. simpl. apply NoDup_snoc_fresh; [assumption|].
        intros Hin. apply Hnotin, W3, Hin. }
      destruct (locate_library m) as [path|e] eqn:Hloc.
      2:{ injection Hrun as <-. simpl. split; [now exists [EvLocate m]|].
          split; [assumption | discriminate]. }
      simpl in Hrun.
      set (st2 := mkLdd (Dict.set m path (dependencies st)) (calls st ++ [EvLocate m])) in *.
      assert (Hwf2 : ldd_wf st2) by (apply wf_insert; unfold ldd_wf; auto).
      destruct (rec (PurePath.to_str path) st2) as [[st3 r]|] eqn:Hr; [|discriminate].
      destruct (Hrec _ _ _ Hwf2 Hr) as ((evs & Hevs) & Hnd3 & Hok3). simpl in *.
      destruct r as [u|e].
      2:{ injection Hrun as <-. split; [|split; [assumption | discriminate]].
          exists ([EvLocate m] ++ evs). simpl. rewrite Hevs. simpl. now rewrite <- app_assoc. }
      destruct (Hok3 eq_refl) as (ms' & Hms' & Hwf3 & (new & Hnew) & Hdir3 & Hnew3).
      destruct (IH _ _ Hwf3 Hrun) as ((evs' & Hevs') & Hnd' & Hok').
      split; [exists ([EvLocate m] ++ evs ++ evs'); rewrite Hevs', Hevs; simpl; now rewrite <- !app_assoc|].
      split; [assumption|]. intros Hout.
      destruct (Hok' Hout) as (Hwf' & (new' & Hnew') & Hdir' & Hnew'').
      assert (Hd2 : dependencies st2 = dependencies st ++ [(m, path)])
        by (apply set_fresh, Hfresh).
      assert (Hsub3 : forall x, x ∈ Dict.keys (dependencies st3) ->
                                x ∈ Dict.keys (dependencies (fst out))).
      { intros x Hx. rewrite Hnew', keys_app. apply elem_of_app. now left. }
      assert (Hm3 : m ∈ Dict.keys (dependencies st3)).
      { rewrite Hnew, Hd2, !keys_app. simpl. apply elem_of_app. left.
        apply elem_of_app. right. now apply list_elem_of_singleton. }
      split; [assumption|].
      split; [exists ([(m, path)] ++ new ++ new'); rewrite Hnew', Hnew, Hd2; now rewrite <- !app_assoc|].
      split.
      * intros x [-> | Hx]%elem_of_cons Hxe; [now apply Hsub3 | now apply Hdir'].
      * intros n Hn Hn0.
        destruct (decide (n ∈ Dict.keys (dependencies st3))) as [Hin3 | Hout3].
        -- destruct (decide (n ∈ Dict.keys (dependencies st2))) as [Hin2 | Hout2].
           ++ assert (n = m) as ->.
              { rewrite Hd2, keys_app in Hin2. simpl in Hin2.
                apply elem_of_app in Hin2 as [? | ?%list_elem_of_singleton]; [contradiction | assumption]. }
              split; [|apply reach_direct; [apply elem_of_cons; now left | assumption]].
              intros p ms0 x Hp Hr0 Hx Hxe. rewrite Hloc in Hp. injection Hp as <-.
              rewrite Hms' in Hr0. injection Hr0 as <-. apply Hsub3, Hdir3; assumption.
           ++ destruct (Hnew3 n Hin3 Hout2) as [Hcl Hre]. split.
              ** apply (closed_in_mono _ _ _ Hsub3 Hcl).
              ** eapply reach_through; [apply elem_of_cons; now left | eassumption ..].
        -- destruct (Hnew'' n Hn Hout3) as [Hcl Hre]. split; [assumption|].
           apply (reach_mono rest); [intros x Hx; apply elem_of_cons; now right | assumption].
    + destruct (IH _ _ Hwf Hrun) as (Hev & Hnd & Hok).
      split; [assumption|]. split; [assumption|]. intros Hout.
      destruct (Hok Hout) as (Hwf' & (new' & Hnew') & Hdir' & Hnew'').
      split; [assumption|]. split; [now exists new'|]. split.
      * intros x [-> | Hx]%elem_of_cons Hxe; [|now apply Hdir'].
        rewrite Hxe in Hc. simpl in Hc. rewrite andb_true_r in Hc.
        apply negb_false_iff, contains_keys in Hc.
        rewrite Hnew', keys_app. apply elem_of_app. now left.
      * intros n Hn Hn0. destruct (Hnew'' n Hn Hn0) as [Hcl Hre]. split; [assumption|].
        apply (reach_mono rest); [intros x Hx; apply elem_of_cons; now right | assumption].
Qed.

Lemma recurse_spec fuel :
  forall target st out,
    ldd_wf st -> recurse readelf locate_library excluded fuel target st = Some out ->
    recurse_post target st out.
Proof.
  induction fuel as [|fuel IH]; intros target st out Hwf Hrun; simpl in Hrun; [discriminate|].
  destruct (readelf target) as [ms|e] eqn:Hre.
  - pose proof (visit_spec _ IH ms _ _ (wf_record_readelf _ target Hwf) Hrun)
      as ((evs & Hevs) & Hnd & Hok).
    simpl in Hevs. split; [exists ([EvReadelf target] ++ evs); rewrite Hevs; now rewrite <- app_assoc|].
    split; [assumption|]. intros Hout. exists ms. split; [assumption|].
    exact (Hok Hout).
  - injection Hrun as <-. simpl. split; [now exists [EvReadelf target]|].
    split; [|discriminate].
    unfold record_call. simpl. rewrite located_app. simpl. rewrite app_nil_r. apply Hwf.
Qed.

End ResolverFacts.

(** ** Termination of the resolver *)

Lemma filter_length_le {A} (f g : A -> bool) (l : list A) :
  (forall x, f x = true -> g x = true) ->
  List.length (List.filter f l) <= List.length (List.filter g l).
Proof.
  intros Hfg. induction l as [|x l IH]; simpl; [lia|].
  destruct (f x) eqn:Ef.
  - rewrite (Hfg _ Ef). simpl. lia.
  - destruct (g x); simpl; lia.
Qed.

Lemma filter_length_lt {A} (f g : A -> bool) (l : list A) (a : A) :
  (forall x, f x = true -> g x = true) ->
  a ∈ l -> f a = false -> g a = true ->
  List.length (List.filter f l) < List.length (List.filter g l).
Proof.
  intros Hfg Hin Hfa Hga. induction l as [|x l IH]; [now apply elem_of_nil in Hin|].
  apply elem_of_cons in Hin as [<- | Hin]; simpl.
  - rewrite Hfa, Hga. simpl. pose proof (filter_length_le f g l Hfg). lia.
  - specialize (IH Hin). destruct (f x) eqn:Ef.
    + rewrite (Hfg _ Ef). simpl. lia.
    + destruct (g x); simpl; lia.
Qed.

Section ResolverTermination.

Variable readelf : string -> result (list string).
Variable locate_library : string -> result Path.
Variable excluded : list string.
Variable universe : list string.

Hypothesis universe_ok :
  forall target ms m, readelf target = Ok ms -> m ∈ ms -> m ∈ universe.

Local Abbreviation ldd_wf := (ldd_wf locate_library excluded).
Local Abbreviation recurse_post := (recurse_post readelf locate_library excluded).

Lemma pending_grow st st' new :
  dependencies st' = dependencies st ++ new ->
  pending universe st' <= pending universe st.
Proof.
  intros H. unfold pending. apply filter_length_le. intros u Hu.
  apply negb_true_iff, contains_false in Hu. apply negb_true_iff, contains_false.
  intros Hin. apply Hu. rewrite H, keys_app. apply elem_of_app. now left.
Qed.

Lemma pending_insert st m path evs :
  m ∈ universe -> Dict.contains m (dependencies st) = false ->
  pending universe (mkLdd (Dict.set m path (dependencies st)) evs)
  < pending universe st.
Proof.
  intros Hm Hfresh. unfold pending. simpl. apply (filter_length_lt _ _ _ m).
  - intros u Hu. apply negb_true_iff, contains_false in Hu.
    apply negb_true_iff, contains_false. intros Hin. apply Hu.
    apply elem_of_keys_set. now right.
  - assumption.
  - apply negb_false_iff, contains_keys, elem_of_keys_set. now left.
  - now rewrite Hfresh.
Qed.

Lemma visit_total rec bound :
  (forall target st, ldd_wf st -> pending universe st < bound ->
     exists out, rec target st = Some out /\ recurse_post target st out) ->
  forall ms st,
    (forall m, m ∈ ms -> m ∈ universe) -> ldd_wf st -> pending universe st <= bound ->
    exists out, visit locate_library excluded rec ms st = Some out.
Proof.
  intros Hrec ms. induction ms as [|m rest IH]; intros st Hms Hwf Hb; simpl; [eauto|].
  assert (Hrest : forall x, x ∈ rest -> x ∈ universe)
    by (intros x Hx; apply Hms, elem_of_cons; now right).
  destruct (negb (Dict.contains m (dependencies st)) && negb (str_in m excluded)) eqn:Hc;
    [|now apply IH].
  apply andb_true_iff in Hc as [Hfresh%negb_true_iff Hex%negb_true_iff].
  destruct (locate_library m) as [path|e] eqn:Hloc; [|eauto]. simpl.
  set (st2 := mkLdd (Dict.set m path (dependencies st)) (calls st ++ [EvLocate m])).
  assert (Hwf2 : ldd_wf st2) by (now apply wf_insert).
  assert (Hp2 : pending universe st2 < bound).
  { pose proof (pending_insert st m path (calls st ++ [EvLocate m])
                  (Hms m ltac:(apply elem_of_cons; now left)) Hfresh). fold st2 in H. lia. }
  destruct (Hrec (PurePath.to_str path) _ Hwf2 Hp2) as ([st3 r] & -> & _ & _ & Hok).
  destruct r as [u|e]; [|eauto].
  destruct (Hok eq_refl) as (ms' & _ & Hwf3 & (new & Hnew) & _).
  apply IH; [assumption | assumption |].
  pose proof (pending_grow st2 st3 new Hnew). lia.
Qed.

Lemma recurse_total fuel :
  forall target st,
    ldd_wf st -> pending universe st < fuel ->
    exists out, recurse readelf locate_library excluded fuel target st = Some out.
Proof.
  induction fuel as [|fuel IH]; intros target st Hwf Hp; [lia|]. simpl.
  destruct (readelf target) as [ms|e] eqn:Hre; [|eauto].
  apply (visit_total _ fuel).
  - intros t s Hs Hps. destruct (IH t s Hs Hps) as [out Hout].
    exists out. split; [assumption|]. eapply recurse_spec; eassumption.
  - intros m Hm. eapply universe_ok; eassumption.
  - now apply wf_record_readelf.
  - unfold pending in *. simpl. lia.
Qed.

End ResolverTermination.

Lemma ldd_wf_empty locate_library excluded : ldd_wf locate_library excluded (mkLdd [] []).
Proof.
  unfold ldd_wf. simpl. repeat split; try apply NoDup_nil_2;
    try (intros; exfalso; eapply elem_of_nil; eassumption).
Qed.

(** More fuel does not change a result. *)
Lemma visit_fuel_mono locate_library excluded rec rec' :
  (forall target st out, rec target st = Some out -> rec' target st = Some out) ->
  forall ms st out,
    visit locate_library excluded rec ms st = Some out ->
    visit locate_library excluded rec' ms st = Some out.
Proof.
  intros Hrec ms. induction ms as [|m rest IH]; intros st out; simpl; [auto|].
  destruct (negb (Dict.contains m (dependencies st)) && negb (str_in m excluded)); [|apply IH].
  destruct (locate_library m) as [path|e]; [|auto]. simpl.
  destruct (rec (PurePath.to_str path) _) as [[st3 r]|] eqn:Hr; [|discriminate].
  rewrite (Hrec _ _ _ Hr). destruct r; [apply IH | auto].
Qed.

Lemma recurse_fuel_mono readelf locate_library excluded fuel fuel' :
  fuel <= fuel' ->
  forall target st out,
    recurse readelf locate_library excluded fuel target st = Some out ->
    recurse readelf locate_library excluded fuel' target st = Some out.
Proof.
  revert fuel'. induction fuel as [|fuel IH]; intros fuel' Hle target st out; simpl;
    [discriminate|].
  destruct fuel' as [|fuel']; [lia|]. simpl.
  destruct (readelf target) as [ms|e]; [|auto].
  apply visit_fuel_mono. apply IH. lia.
Qed.

(** ** The resolver on the file system *)

Lemma resolve_node_at fuel ns p q o :
  FS.resolve fuel ns p = Ok (q, o) ->
  FS.node_at ns q = o /\ (forall t, o <> Some (NLink t)).
Proof.
  revert p. induction fuel as [|fuel IH]; intros p; simpl.
  - destruct (FS.node_at ns p) as [[f| |t]|] eqn:E; intros [= <- <-]; split; congruence.
  - destruct (FS.node_at ns p) as [[f| |t]|] eqn:E; try (intros [= <- <-]; split; congruence).
    apply IH.
Qed.

Lemma node_at_file ns q f : FS.node_at ns q = Some (NFile f) -> ns !! q = Some (NFile f).
Proof.
  unfold FS.node_at. destruct (String.eqb q "." || String.eqb q "/"); congruence.
Qed.

Lemma open_read_lookup ns p f :
  FS.open_read ns p = Ok f -> exists q, ns !! q = Some (NFile f).
Proof.
  unfold FS.open_read, FS.lookup_follow.
  destruct (FS.resolve FS.MAXSYMLINKS ns p) as [[q [[f'| |t]|]]|e] eqn:E; try discriminate.
  intros [= ->]. exists q. apply node_at_file. now apply resolve_node_at in E as [E _].
Qed.

Lemma readelf_universe ns target ms m :
  Ext.readelf ns target = Ok ms -> m ∈ ms -> m ∈ Ext.all_needed ns.
Proof.
  unfold Ext.readelf. destruct (FS.open_read ns target) as [f|e] eqn:E; [|discriminate].
  destruct (needed f) as [names|] eqn:En; [|discriminate]. intros [= ->] Hm.
  apply open_read_lookup in E as [q Hq].
  unfold Ext.all_needed. apply list_elem_of_In, List.in_flat_map.
  exists (q, NFile f). split.
  - apply list_elem_of_In, elem_of_map_to_list, Hq.
  - simpl. rewrite En. simpl. now apply list_elem_of_In.
Qed.

Lemma pending_le_universe universe st : pending universe st <= List.length universe.
Proof. unfold pending. apply List.filter_length_le. Qed.

(** [ldd] always returns: the bound on the depth is never reached. *)
Lemma ldd_run_total e ns target :
  exists st r,
    ldd_run (Ext.readelf ns) (Ext.locate_library e ns) (excluded e)
            (Ext.ldd_fuel ns) target = Some (st, r) /\
    recurse_post (Ext.readelf ns) (Ext.locate_library e ns) (excluded e)
                 target (mkLdd [] []) (st, r).
Proof.
  destruct (recurse_total (Ext.readelf ns) (Ext.locate_library e ns) (excluded e)
              (Ext.all_needed ns) (readelf_universe ns) (Ext.ldd_fuel ns) target
              (mkLdd [] [])) as [[st r] Hrun].
  - apply ldd_wf_empty.
  - unfold Ext.ldd_fuel. pose proof (pending_le_universe (Ext.all_needed ns) (mkLdd [] [])). lia.
  - exists st, r. split; [exact Hrun|].
    eapply recurse_spec; [apply ldd_wf_empty | exact Hrun].
Qed.

Lemma ldd_unfold e target w :
  exists st r,
    ldd_run (Ext.readelf (nodes w)) (Ext.locate_library e (nodes w)) (excluded e)
            (Ext.ldd_fuel (nodes w)) target = Some (st, r) /\
    recurse_post (Ext.readelf (nodes w)) (Ext.locate_library e (nodes w)) (excluded e)
                 target (mkLdd [] []) (st, r) /\
    Ext.ldd e target w =
      (Ext.add_trace (calls st) w,
       match r with Ok _ => Ok (dependencies st) | Raise x => Raise x end).
Proof.
  destruct (ldd_run_total e (nodes w) target) as (st & r & Hrun & Hpost).
  exists st, r. split; [assumption|]. split; [assumption|].
  unfold Ext.ldd. rewrite Hrun. now destruct r.
Qed.

Section Closure.

Variable readelf : string -> result (list string).
Variable locate_library : string -> result Path.
Variable excluded : list string.

Lemma reach_in_closed ks :
  (forall n, n ∈ ks -> closed_in readelf locate_library excluded ks n) ->
  forall ms n,
    reach readelf locate_library excluded ms n ->
    (forall m, m ∈ ms -> str_in m excluded = false -> m ∈ ks) -> n ∈ ks.
Proof.
  intros Hcl ms n H. induction H as [ms n Hin Hex | ms m p ms' n Hin Hex Hl Hr Hn IH];
    intros Hms; [auto|].
  apply IH. intros x Hx Hxe. exact (Hcl m (Hms m Hin Hex) p ms' x Hl Hr Hx Hxe).
Qed.

(** What a normal return of [recurse] from the empty dictionary gives:
    the keys are exactly the dependencies of [target], each once, each
    with the path [locate_library] gives, none excluded. *)
Lemma closure_of_empty target st :
  recurse_post readelf locate_library excluded target (mkLdd [] []) (st, Ok tt) ->
  NoDup (Dict.keys (dependencies st)) /\
  (forall n, n ∈ Dict.keys (dependencies st) <->
             depends_on readelf locate_library excluded target n) /\
  (forall n p, (n, p) ∈ dependencies st ->
               str_in n excluded = false /\ locate_library n = Ok p).
Proof.
  intros (_ & _ & Hok). destruct (Hok eq_refl) as (ms & Hms & Hwf & _ & Hdir & Hnew).
  simpl in *. destruct Hwf as (W1 & _ & _ & W4).
  split; [assumption|]. split; [|assumption].
  assert (Hnone : forall n : string, n ∉ Dict.keys ([] : list (string * Path)))
    by (intros n; simpl; apply not_elem_of_nil).
  intros n. split.
  - intros Hn. exists ms. split; [assumption|]. apply (Hnew n Hn (Hnone n)).
  - intros (ms' & Hms' & Hre). rewrite Hms in Hms'. injection Hms' as <-.
    apply (reach_in_closed _ (fun k Hk => proj1 (Hnew k Hk (Hnone k))) ms n Hre Hdir).
Qed.

End Closure.

(** ** [ldd] and the closure of an extraction *)

Section LddFacts.

Variable e : Extractor.

Local Abbreviation depends w :=
  (depends_on (Ext.readelf (nodes w)) (Ext.locate_library e (nodes w)) (excluded e)).

(** [ldd] reads the tree and leaves it as it is. *)
Lemma ldd_nodes target w : nodes (Ext.ldd e target w).1 = nodes w.
Proof. destruct (ldd_unfold e target w) as (st & r & _ & _ & ->). reflexivity. Qed.

Lemma ldd_trace target w :
  exists evs, trace (Ext.ldd e target w).1 = trace w ++ evs /\ NoDup (located evs).
Proof.
  destruct (ldd_unfold e target w) as (st & r & _ & Hpost & ->).
  destruct Hpost as ((evs & Hevs) & Hnd & _). simpl in *.
  exists (calls st). split; [reflexivity|]. exact Hnd.
Qed.

Lemma ldd_closure target w deps :
  (Ext.ldd e target w).2 = Ok deps ->
  NoDup (Dict.keys deps) /\
  (forall n, n ∈ Dict.keys deps <-> depends w target n) /\
  (forall n p, (n, p) ∈ deps ->
     str_in n (excluded e) = false /\ Ext.locate_library e (nodes w) n = Ok p).
Proof.
  destruct (ldd_unfold e target w) as (st & r & _ & Hpost & ->). simpl.
  destruct r as [[]|x]; [|discriminate]. intros [= <-].
  now apply closure_of_empty.
Qed.

Lemma map_modules_spec modules :
  forall libs w libs',
    (Ext.map_modules e modules libs w).2 = Ok libs' ->
    (NoDup (Dict.keys libs) -> NoDup (Dict.keys libs')) /\
    (forall n, n ∈ Dict.keys libs' <->
       n ∈ Dict.keys libs \/ exists m, m ∈ modules /\ depends w m n) /\
    (forall n p, (n, p) ∈ libs' ->
       (n, p) ∈ libs \/
       (str_in n (excluded e) = false /\ Ext.locate_library e (nodes w) n = Ok p)).
Proof.
  induction modules as [|m rest IH]; intros libs w libs'; simpl.
  - intros [= <-]. split; [auto|]. split; [|auto].
    intros n. split; [auto | intros [H | (m & []%elem_of_nil & _)]; exact H].
  - unfold mbind, M_bind.
    destruct (Ext.ldd e m w) as [w1 [l|x]] eqn:Hl; [|discriminate].
    pose proof (ldd_nodes m w) as Hn. pose proof (ldd_closure m w l) as Hc.
    rewrite Hl in Hn, Hc. simpl in Hn, Hc.
    destruct (Hc eq_refl) as (_ & Hkeys & Hent).
    intros Hrun. destruct (IH _ _ _ Hrun) as (Hnd & Hk & He). rewrite Hn in *.
    split; [intros H; now apply Hnd, update_NoDup|]. split.
    + intros n. rewrite Hk, elem_of_keys_update, Hkeys. split.
      * intros [[H | H] | (m' & Hm' & H)]; [now left | right; exists m | right; exists m'];
          (split; [apply elem_of_cons; auto | assumption]).
      * intros [H | (m' & [-> | Hm']%elem_of_cons & H)];
          [left; now left | left; now right | right; now exists m'].
    + intros n p Hin. destruct (He n p Hin) as [[H | H]%elem_of_update | H]; auto.
Qed.

Lemma map_modules_nodes modules :
  forall libs w, nodes (Ext.map_modules e modules libs w).1 = nodes w.
Proof.
  induction modules as [|m rest IH]; intros libs w; simpl; [reflexivity|].
  unfold mbind, M_bind. pose proof (ldd_nodes m w) as Hn.
  destruct (Ext.ldd e m w) as [w1 [l|x]]; simpl in *; [|assumption].
  now rewrite IH.
Qed.

Lemma map_dependencies_spec python packages w libs :
  (Ext.map_dependencies e python packages w).2 = Ok libs ->
  NoDup (Dict.keys libs) /\
  (forall n, n ∈ Dict.keys libs <->
     exists entry, entry ∈ Ext.entry_points e python packages (nodes w) /\
                   depends w entry n) /\
  (forall n p, (n, p) ∈ libs ->
     str_in n (excluded e) = false /\ Ext.locate_library e (nodes w) n = Ok p).
Proof.
  unfold Ext.map_dependencies, Ext.entry_points, mbind, M_bind, FS.query.
  set (exe := PurePath.to_str (python_prefix e // ("bin/" +:+ python))).
  set (dir := PurePath.to_str (python_prefix e // (packages +:+ "/lib-dynload"))).
  destruct (Ext.ldd e exe w) as [w1 [l|x]] eqn:Hl; [|discriminate].
  pose proof (ldd_nodes exe w) as Hn. pose proof (ldd_closure exe w l) as Hc.
  rewrite Hl in Hn, Hc. simpl in Hn, Hc.
  destruct (Hc eq_refl) as (Hnd & Hkeys & Hent). rewrite Hn.
  intros Hrun. destruct (map_modules_spec _ _ _ _ Hrun) as (Hnd' & Hk & He).
  rewrite Hn in *.
  split; [auto|]. split.
  - intros n. rewrite Hk, Hkeys. split.
    + intros [H | (m & Hm & H)]; [exists exe | exists m];
        (split; [apply elem_of_cons; auto | assumption]).
    + intros (entry & [-> | Hm]%elem_of_cons & H); [now left | right; now exists entry].
  - intros n p Hin. destruct (He n p Hin) as [H | H]; auto.
Qed.

End LddFacts.

(** ** Paths *)

Lemma split_no_sep sep k s :
  PyStr.contains_char sep s = false -> PyStr.split sep k s = [s].
Proof.
  induction s as [|c s IH]; simpl; [reflexivity|].
  intros [Hc Hs]%orb_false_iff. now rewrite Hc, (IH Hs).
Qed.

Lemma parse_component name :
  is_component name = true -> PurePath.parse name = mkPath "" [name].
Proof.
  unfold is_component. intros [[H1 H2]%andb_true_iff H3]%andb_true_iff.
  apply negb_true_iff in H1, H2, H3.
  unfold PurePath.parse, PurePath.split_root.
  assert (Hl : PurePath.leading_slashes name = (0, name)).
  { destruct name as [|c name]; [reflexivity|]. simpl in *.
    apply orb_false_iff in H1 as [H1 _]. destruct (Ascii.eqb_spec c "/"); [discriminate|].
    destruct c as [[] [] [] [] [] [] [] []]; try reflexivity. congruence. }
  rewrite Hl. unfold PyStr.split_all. rewrite (split_no_sep _ _ _ H1). simpl.
  unfold PurePath.keep_component. now rewrite H2, H3.
Qed.

Lemma name_join_component d name :
  is_component name = true -> PurePath.name (d // name) = name.
Proof.
  intros H. unfold PurePath.join_str, PurePath.join. rewrite (parse_component _ H). simpl.
  unfold PurePath.name. simpl. apply List.last_last.
Qed.

Lemma find_first {A} (f : A -> bool) (l : list A) (x : A) :
  List.find f l = Some x ->
  exists before after,
    l = before ++ x :: after /\ f x = true /\ (forall y, y ∈ before -> f y = false).
Proof.
  induction l as [|a l IH]; simpl; [discriminate|].
  destruct (f a) eqn:Ea.
  - intros [= ->]. exists [], l. split; [reflexivity|]. split; [assumption|].
    intros y []%elem_of_nil.
  - intros (before & after & -> & Hx & Hb)%IH. exists (a :: before), after.
    split; [reflexivity|]. split; [assumption|].
    intros y [-> | Hy]%elem_of_cons; auto.
Qed.

Lemma locate_library_first e ns name p :
  Ext.locate_library e ns name = Ok p ->
  exists before d after,
    library_path e = before ++ d :: after /\
    (forall d', d' ∈ before -> FS.exists_ ns (PurePath.to_str (d' // name)) = false) /\
    FS.exists_ ns (PurePath.to_str (d // name)) = true /\
    p = d // name.
Proof.
  unfold Ext.locate_library.
  destruct (List.find _ (library_path e)) as [d|] eqn:Hf; [|discriminate].
  intros [= <-]. apply find_first in Hf as (before & after & Hl & Hd & Hb).
  exists before, d, after. auto.
Qed.

(** ** The claims about the resolver *)

(** C3, as the specification words it, fails: [ldd] starts from an empty
    dictionary at each call, so a library two binaries need is looked up
    once for each. On the sample image [libz.so.1] is looked up for the
    interpreter and again for the module [_ssl]. *)
Lemma shared_library_located_twice :
  located (trace (Ext.map_dependencies Sample.extractor "python3.11" "lib/python3.11"
                    Sample.w_image).1)
  = ["libz.so.1"; "libssl.so.1.1"; "libcrypto.so.1.1"; "libz.so.1"] /\
  ~ located_once_per_extraction.
Proof.
  split; [vm_compute; reflexivity|].
  intros H.
  specialize (H Sample.extractor "python3.11" "lib/python3.11" Sample.w_image eq_refl).
  vm_compute in H.
  apply NoDup_cons_1_1 in H. apply H.
  do 2 apply list_elem_of_further. apply list_elem_of_here.
Qed.

(** C3 (amended): within one call of [ldd] each library name is looked up
    at most once, whatever the number of paths that lead to it; and the
    dictionary [extract] accumulates over the interpreter and the
    extension modules has each key once. *)
Theorem located_once_per_ldd (e : Extractor) (target python packages : string)
  (w : world) (libs : list (string * Path)) :
  (exists evs, trace (Ext.ldd e target w).1 = trace w ++ evs /\ NoDup (located evs)) /\
  ((Ext.map_dependencies e python packages w).2 = Ok libs -> NoDup (Dict.keys libs)).
Proof.
  split; [apply ldd_trace|].
  intros H. now apply map_dependencies_spec in H as [H _].
Qed.

Lemma located_once_per_ldd_witness :
  NoDup (Dict.keys
           [("libz.so.1", PurePath.parse "img/lib64/libz.so.1");
            ("libssl.so.1.1", PurePath.parse "img/usr/local/lib/libssl.so.1.1");
            ("libcrypto.so.1.1", PurePath.parse "img/usr/local/lib/libcrypto.so.1.1")]).
Proof.
  apply (located_once_per_ldd Sample.extractor "img/lib64/libz.so.1"
           "python3.11" "lib/python3.11" Sample.w_image).
  vm_compute. reflexivity.
Defined.

(** C4: on every tree, and so on every dependency graph with cycles,
    [recurse] returns, with the same result for every depth allowed
    beyond a bound the tree gives; and when [ldd] returns normally, a
    library the target depends on (one on a cycle as any other) is a key
    of the closure exactly once. The name is in the dictionary before
    [recurse] is called on its path. *)
Theorem ldd_terminates_cycle_safe (e : Extractor) (w : world) (target : string) :
  (exists st r, forall fuel,
      Ext.ldd_fuel (nodes w) <= fuel ->
      ldd_run (Ext.readelf (nodes w)) (Ext.locate_library e (nodes w)) (excluded e)
              fuel target = Some (st, r)) /\
  (forall deps n,
      (Ext.ldd e target w).2 = Ok deps ->
      depends_on (Ext.readelf (nodes w)) (Ext.locate_library e (nodes w)) (excluded e)
                 target n ->
      List.count_occ String.string_dec (Dict.keys deps) n = 1).
Proof.
  split.
  - destruct (ldd_run_total e (nodes w) target) as (st & r & Hrun & _).
    exists st, r. intros fuel Hle. unfold ldd_run in *.
    eapply recurse_fuel_mono; eassumption.
  - intros deps n Hd Hn. destruct (ldd_closure e target w deps Hd) as (Hnd & Hk & _).
    apply NoDup_ListNoDup in Hnd.
    apply (proj1 (List.NoDup_count_occ' String.string_dec _) Hnd).
    apply list_elem_of_In, Hk, Hn.
Qed.

Lemma ldd_terminates_cycle_safe_witness :
  List.count_occ String.string_dec
    (Dict.keys
       [("libssl.so.1.1", PurePath.parse "img/usr/local/lib/libssl.so.1.1");
        ("libcrypto.so.1.1", PurePath.parse "img/usr/local/lib/libcrypto.so.1.1")])
    "libcrypto.so.1.1" = 1.
Proof.
  apply (proj2 (ldd_terminates_cycle_safe Sample.extractor Sample.w_image
                  "img/usr/local/lib/libcrypto.so.1.1")).
  - vm_compute. reflexivity.
  - exists ["libssl.so.1.1"; "libc.so.6"]. split; [vm_compute; reflexivity|].
    apply (reach_through _ _ _ _ "libssl.so.1.1"
             (PurePath.parse "img/usr/local/lib/libssl.so.1.1") ["libcrypto.so.1.1"]).
    + apply list_elem_of_here.
    + reflexivity.
    + vm_compute. reflexivity.
    + vm_compute. reflexivity.
    + apply reach_direct; [apply list_elem_of_here | reflexivity].
Defined.

(** C5, as the specification words it, fails: the NEEDED names of an
    excluded library are not followed. On the sample the interpreter
    needs [libc.so.6], which is excluded; [libc.so.6] is in [lib64] and
    needs the loader [ld-linux-x86-64.so.2], which is not excluded and is
    in [lib64] too: a transitive dependency that is not excluded, and no
    key of the closure. *)
Lemma excluded_library_not_followed :
  Ext.readelf (nodes Sample.w_image) "img/lib64/libc.so.6" = Ok ["ld-linux-x86-64.so.2"] /\
  str_in "ld-linux-x86-64.so.2" (excluded Sample.extractor) = false /\
  FS.exists_ (nodes Sample.w_image) "img/lib64/ld-linux-x86-64.so.2" = true /\
  (Ext.map_dependencies Sample.extractor "python3.11" "lib/python3.11" Sample.w_image).2
  = Ok [("libz.so.1", PurePath.parse "img/lib64/libz.so.1");
        ("libssl.so.1.1", PurePath.parse "img/usr/local/lib/libssl.so.1.1");
        ("libcrypto.so.1.1", PurePath.parse "img/usr/local/lib/libcrypto.so.1.1")] /\
  ~ closure_has_every_dependency.
Proof.
  do 4 (split; [vm_compute; reflexivity|]).
  intros H.
  specialize (H Sample.extractor "python3.11" "lib/python3.11" Sample.w_image
                [("libz.so.1", PurePath.parse "img/lib64/libz.so.1");
                 ("libssl.so.1.1", PurePath.parse "img/usr/local/lib/libssl.so.1.1");
                 ("libcrypto.so.1.1", PurePath.parse "img/usr/local/lib/libcrypto.so.1.1")]
                "img/opt/_internal/cpython-3.11.4/bin/python3.11"
                ["libz.so.1"; "libc.so.6"] "ld-linux-x86-64.so.2").
  assert (Hin : "ld-linux-x86-64.so.2" ∈ ["libz.so.1"; "libssl.so.1.1"; "libcrypto.so.1.1"]).
  { apply H.
    - vm_compute. reflexivity.
    - vm_compute. apply list_elem_of_here.
    - vm_compute. reflexivity.
    - apply (needs_through _ _ _ "libc.so.6" (PurePath.parse "img/lib64/libc.so.6")
               ["ld-linux-x86-64.so.2"]).
      + apply list_elem_of_further, list_elem_of_here.
      + vm_compute. reflexivity.
      + vm_compute. reflexivity.
      + apply needs_direct, list_elem_of_here.
    - reflexivity. }
  repeat (apply elem_of_cons in Hin as [Hin | Hin]; [discriminate|]).
  now apply elem_of_nil in Hin.
Qed.

(** C5 (amended): the closure [extract] builds for the interpreter and
    the extension modules (those [glob] finds in [lib-dynload], the text
    of that directory holding no pattern character) holds exactly the
    names these binaries depend on through names that are not excluded
    (the NEEDED names of an excluded library are not followed). Each key
    [n] has the path [d / n] for the first directory [d] of the search
    path where [d / n] exists; and no key is an excluded name, whether
    or not a file of that name is in a search directory. *)
Theorem closure_complete (e : Extractor) (python packages : string) (w : world)
  (libs : list (string * Path)) :
  glob_literal (PurePath.to_str (python_prefix e // (packages +:+ "/lib-dynload"))) = true ->
  (Ext.map_dependencies e python packages w).2 = Ok libs ->
  (forall n, n ∈ Dict.keys libs <->
     exists entry, entry ∈ Ext.entry_points e python packages (nodes w) /\
       depends_on (Ext.readelf (nodes w)) (Ext.locate_library e (nodes w)) (excluded e)
                  entry n) /\
  (forall n p, (n, p) ∈ libs ->
     exists before d after,
       library_path e = before ++ d :: after /\
       (forall d', d' ∈ before ->
          FS.exists_ (nodes w) (PurePath.to_str (d' // n)) = false) /\
       FS.exists_ (nodes w) (PurePath.to_str (d // n)) = true /\
       p = d // n) /\
  (forall n, str_in n (excluded e) = true -> n ∉ Dict.keys libs).
Proof.
  intros _ H. apply map_dependencies_spec in H as (_ & Hk & He).
  split; [assumption|]. split.
  - intros n p Hin. destruct (He n p Hin) as [_ Hloc].
    destruct (locate_library_first _ _ _ _ Hloc) as (before & d & after & H).
    exists before, d, after. exact H.
  - intros n Hex Hin. unfold Dict.keys in Hin.
    apply list_elem_of_In, List.in_map_iff in Hin as ([n' p] & <- & Hin).
    apply list_elem_of_In, He in Hin as [Hin _]. simpl in Hex. congruence.
Qed.

Lemma closure_complete_witness :
  ("libc.so.6" ∉
     Dict.keys
       [("libz.so.1", PurePath.parse "img/lib64/libz.so.1");
        ("libssl.so.1.1", PurePath.parse "img/usr/local/lib/libssl.so.1.1");
        ("libcrypto.so.1.1", PurePath.parse "img/usr/local/lib/libcrypto.so.1.1")]) /\
  FS.exists_ (nodes Sample.w_image) "img/lib64/libc.so.6" = true.
Proof.
  split; [|vm_compute; reflexivity].
  apply (closure_complete Sample.extractor "python3.11" "lib/python3.11" Sample.w_image).
  - vm_compute. reflexivity.
  - vm_compute. reflexivity.
  - reflexivity.
Defined.

(** C10, as the specification words it, fails: a NEEDED name may hold a
    directory, and then the base name of the resolved path is not the
    key. *)
Lemma nested_name_basename_differs :
  (Ext.ldd Sample.extractor "img/app" Sample.w_nested).2
    = Ok [("sub/libx.so", PurePath.parse "img/lib64/sub/libx.so")] /\
  PurePath.name (PurePath.parse "img/lib64/sub/libx.so") = "libx.so" /\
  ~ resolved_basename_is_key.
Proof.
  split; [vm_compute; reflexivity|]. split; [reflexivity|].
  intros H.
  specialize (H Sample.extractor "img/app" Sample.w_nested
                [("sub/libx.so", PurePath.parse "img/lib64/sub/libx.so")]
                "sub/libx.so" (PurePath.parse "img/lib64/sub/libx.so")).
  assert (Hn : PurePath.name (PurePath.parse "img/lib64/sub/libx.so") = "sub/libx.so").
  { apply H; [vm_compute; reflexivity | apply list_elem_of_here]. }
  vm_compute in Hn. discriminate.
Qed.

(** C10 (amended): every entry [(name, path)] of a closure [ldd] returns
    has [path = d / name] for the first directory [d] of the search path
    where [d / name] exists, in the tree [ldd] ran on; and when [name] is
    one path component (no slash), the base name of [path] is [name]. *)
Theorem resolved_path_first_match (e : Extractor) (target : string) (w : world)
  (deps : list (string * Path)) (n : string) (p : Path) :
  (Ext.ldd e target w).2 = Ok deps ->
  (n, p) ∈ deps ->
  (exists before d after,
     library_path e = before ++ d :: after /\
     (forall d', d' ∈ before ->
        FS.exists_ (nodes w) (PurePath.to_str (d' // n)) = false) /\
     FS.exists_ (nodes w) (PurePath.to_str (d // n)) = true /\
     p = d // n) /\
  FS.exists_ (nodes w) (PurePath.to_str p) = true /\
  (is_component n = true -> PurePath.name p = n).
Proof.
  intros Hd Hin. destruct (ldd_closure e target w deps Hd) as (_ & _ & He).
  destruct (He n p Hin) as [_ Hloc].
  destruct (locate_library_first _ _ _ _ Hloc) as (before & d & after & Hl & Hb & Hx & ->).
  split; [exists before, d, after; auto|]. split; [assumption|].
  apply name_join_component.
Qed.

Lemma resolved_path_first_match_witness :
  PurePath.name (PurePath.parse "img/usr/local/lib/libssl.so.1.1") = "libssl.so.1.1".
Proof.
  apply (resolved_path_first_match Sample.extractor
           "img/usr/local/lib/libcrypto.so.1.1" Sample.w_image
           [("libssl.so.1.1", PurePath.parse "img/usr/local/lib/libssl.so.1.1");
            ("libcrypto.so.1.1", PurePath.parse "img/usr/local/lib/libcrypto.so.1.1")]
           "libssl.so.1.1" (PurePath.parse "img/usr/local/lib/libssl.so.1.1")).
  - vm_compute. reflexivity.
  - apply list_elem_of_here.
  - reflexivity.
Defined.

(** ** The constructor *)

(** C1, as the specification words it, fails: with the link naming the
    [bin] directory, the last component of the link is [bin], the split
    at the dash gives one part and the unpacking into [head, tail] raises
    [ValueError]. *)
Lemma bin_link_raises :
  FS.readlink (nodes Sample.w_link_bin) "img/opt/python/cp311-cp311"
    = Ok "/opt/_internal/cpython-3.11.4/bin" /\
  Ext.init X86_64 (PurePath.parse "img") "cp311-cp311" None None Sample.w_link_bin
    = Raise ValueError /\
  ~ bin_link_yields_descriptor.
Proof.
  split; [vm_compute; reflexivity|]. split; [vm_compute; reflexivity|].
  intros H.
  destruct (H Sample.w_link_bin X86_64 (PurePath.parse "img")) as (e & He & _);
    try (vm_compute; reflexivity).
  vm_compute in He. discriminate.
Qed.

(** C1 (amended): when the interpreter link is
    [opt/python/cp311-cp311 -> /opt/_internal/cpython-3.11.4] (the
    installation prefix itself), the exclude list can be read and
    [patchelf] is found, the constructor succeeds with implementation
    CPython, version (3, 11, 4) and the prefix
    [opt/_internal/cpython-3.11.4] joined under the image root. *)
Theorem descriptor_from_prefix_link (a : Arch) (pre : Path)
  (excl pe : option Path) (w : world) :
  FS.readlink (nodes w) (PurePath.to_str (pre // "opt/python/cp311-cp311"))
    = Ok "/opt/_internal/cpython-3.11.4" ->
  is_ok (FS.open_read (nodes w)
           (PurePath.to_str (default (module_dir w // "share/excludelist") excl))) = true ->
  is_ok (match pe with
         | None => Ext.find_patchelf w
         | Some p => if FS.exists_ (nodes w) (PurePath.to_str p) then Ok p
                     else Raise AssertionError
         end) = true ->
  exists e,
    Ext.init a pre "cp311-cp311" excl pe w = Ok e /\
    impl e = CPYTHON /\
    version e = mkPythonVersion 3 11 (PInt 4) /\
    python_prefix e = pre // "opt/_internal/cpython-3.11.4".
Proof.
  intros Hlink Hexcl Hpe. unfold Ext.init.
  change ("opt/python/" +:+ "cp311-cp311") with "opt/python/cp311-cp311".
  rewrite Hlink. cbn [rbind].
  change (PyStr.startswith_char "/" "/opt/_internal/cpython-3.11.4") with true.
  cbn [negb].
  change (PyStr.split "-" 1 (PurePath.name (PurePath.parse "/opt/_internal/cpython-3.11.4")))
    with ["cpython"; "3.11.4"].
  cbv iota.
  change (String.eqb "cpython" "cpython") with true. cbn [negb].
  change (Version.from_str "3.11.4") with (Ok (mkPythonVersion 3 11 (PInt 4))).
  cbn [rbind].
  replace (match excl with Some p => p | None => module_dir w // "share/excludelist" end)
    with (default (module_dir w // "share/excludelist") excl) by (now destruct excl).
  destruct (FS.open_read _ _) as [f|x]; [|discriminate]. cbn [rbind].
  destruct (match pe with None => _ | Some _ => _ end) as [p|x]; [|discriminate].
  cbn [rbind]. eexists. split; [reflexivity|]. repeat split.
Qed.

Lemma descriptor_from_prefix_link_witness :
  exists e,
    Ext.init X86_64 (PurePath.parse "img") "cp311-cp311" None None Sample.w_image = Ok e /\
    impl e = CPYTHON /\
    version e = mkPythonVersion 3 11 (PInt 4) /\
    python_prefix e = PurePath.parse "img" // "opt/_internal/cpython-3.11.4".
Proof.
  apply (descriptor_from_prefix_link X86_64 (PurePath.parse "img") None None Sample.w_image);
    vm_compute; reflexivity.
Defined.

(** ** The command line *)

(** C2, as the specification words it, fails: [extract] creates
    [destination/bin] with [exist_ok=True] and goes on; on a destination
    that exists it returns normally and the interpreter is copied in. *)
Lemma extract_into_existing :
  FS.exists_ (nodes Sample.w_existing) "out" = true /\
  (Ext.extract Sample.extractor (PurePath.parse "out") Sample.w_existing).2 = Ok tt /\
  nodes Sample.w_existing !! "out/bin/python3.11" = None /\
  is_Some (nodes (Ext.extract Sample.extractor (PurePath.parse "out")
                    Sample.w_existing).1 !! "out/bin/python3.11") /\
  ~ extract_refuses_existing.
Proof.
  split; [vm_compute; reflexivity|]. split; [vm_compute; reflexivity|].
  split; [vm_compute; reflexivity|]. split; [vm_compute; eexists; reflexivity|].
  intros H.
  destruct (H Sample.extractor (PurePath.parse "out") Sample.w_existing) as [Hf _];
    [vm_compute; reflexivity|].
  vm_compute in Hf. discriminate.
Qed.

(** C2 (amended): the command line refuses a destination that exists:
    [main] raises [FileExistsError] before the extractor is built, and
    nothing is changed. [Extractor.extract] itself makes no such check. *)
Theorem main_refuses_existing (a : Arch) (pre : Path) (tg : string)
  (output : Path) (w : world) :
  FS.exists_ (nodes w) (PurePath.to_str output) = true ->
  main a pre tg output w = (w, Raise FileExistsError).
Proof. intros H. unfold main. now rewrite H. Qed.

Lemma main_refuses_existing_witness :
  main X86_64 (PurePath.parse "img") "cp311-cp311" (PurePath.parse "out")
       Sample.w_existing
  = (Sample.w_existing, Raise FileExistsError).
Proof.
  apply (main_refuses_existing X86_64 (PurePath.parse "img") "cp311-cp311"
           (PurePath.parse "out") Sample.w_existing).
  vm_compute. reflexivity.
Defined.

(** ** Relative paths *)

Lemma split_pieces_no_sep sep s :
  forall k, String.length s <= k ->
    List.Forall (fun x => PyStr.contains_char sep x = false) (PyStr.split sep k s).
Proof.
  induction s as [|c s IH]; intros k Hk; simpl.
  - repeat constructor.
  - simpl in Hk. destruct (Ascii.eqb c sep) eqn:Ec.
    + destruct k as [|k]; [lia|]. constructor; [reflexivity | apply IH; lia].
    + specialize (IH k ltac:(lia)).
      destruct (PyStr.split sep k s) as [|h t]; [repeat constructor; simpl; now rewrite Ec|].
      inversion IH as [|? ? Hh Ht]; subst. constructor; [|assumption].
      simpl. now rewrite Ec, Hh.
Qed.

Lemma nonempty_comps_relative s :
  List.Forall relative_text (OsPath.nonempty_comps s).
Proof.
  unfold OsPath.nonempty_comps, PyStr.split_all.
  pose proof (split_pieces_no_sep "/" s (String.length s) (le_n _)) as H.
  induction H as [|x l Hx Hl IH]; simpl; [constructor|].
  destruct (String.eqb_spec x ""); simpl; [assumption|].
  constructor; [|assumption]. split; [assumption|].
  destruct x as [|c x]; [congruence|]. simpl in *.
  now apply orb_false_iff in Hx as [Hx _].
Qed.

Lemma join_relative a b :
  relative_text a -> relative_text b -> relative_text (OsPath.join a b).
Proof.
  intros [Ha1 Ha2] [Hb1 Hb2]. unfold OsPath.join. rewrite Hb2.
  destruct a as [|c a]; [congruence|].
  destruct (_ || _); (split; [intros E; inversion E | exact Ha2]).
Qed.

Lemma fold_join_relative l :
  forall a, relative_text a -> List.Forall relative_text l ->
            relative_text (List.fold_left OsPath.join l a).
Proof.
  induction l as [|b l IH]; intros a Ha Hl; simpl; [assumption|].
  inversion Hl; subst. apply IH; [now apply join_relative | assumption].
Qed.

Lemma Forall_skipn_keep {A} (P : A -> Prop) (l : list A) :
  forall i, List.Forall P l -> List.Forall P (List.skipn i l).
Proof.
  induction l as [|x l IH]; intros [|i] H; simpl; try assumption.
  inversion H; subst. now apply IH.
Qed.

Lemma relpath_relative c path start : relative_text (OsPath.relpath c path start).
Proof.
  unfold OsPath.relpath.
  set (sl := OsPath.nonempty_comps (OsPath.abspath c start)).
  set (pl := OsPath.nonempty_comps (OsPath.abspath c path)).
  set (i := List.length (OsPath.common_prefix sl pl)).
  assert (H : List.Forall relative_text
                (List.repeat ".." (List.length sl - i) ++ List.skipn i pl)).
  { apply List.Forall_app. split.
    - apply List.Forall_forall. intros x ->%List.repeat_spec. split; [discriminate | reflexivity].
    - apply Forall_skipn_keep, nonempty_comps_relative. }
  destruct (List.repeat ".." (List.length sl - i) ++ List.skipn i pl) as [|h t];
    [split; [discriminate | reflexivity]|].
  inversion H; subst. simpl. now apply fold_join_relative.
Qed.

Lemma origin_relpath_self_relative c path start :
  is_self_relative ("$ORIGIN/" +:+ OsPath.relpath c path start) = true.
Proof.
  destruct (relpath_relative c path start) as [H1 H2].
  revert H1 H2. generalize (OsPath.relpath c path start). intros r H1 H2.
  unfold is_self_relative. simpl. change ("" +:+ r) with r. rewrite H2.
  destruct (String.eqb_spec r ""); [contradiction | reflexivity].
Qed.

(** ** What the steps of [extract] add to the trace *)

Lemma visit_directives locate_library excluded rec :
  (forall target st out, rec target st = Some out ->
     directives (calls out.1) = directives (calls st)) ->
  forall ms st out,
    visit locate_library excluded rec ms st = Some out ->
    directives (calls out.1) = directives (calls st).
Proof.
  intros Hrec ms. induction ms as [|m rest IH]; intros st out; simpl.
  - now intros [= <-].
  - destruct (negb (Dict.contains m (dependencies st)) && negb (str_in m excluded)); [|apply IH].
    assert (Hs : directives (calls st ++ [EvLocate m]) = directives (calls st))
      by (rewrite directives_app; simpl; apply app_nil_r).
    destruct (locate_library m) as [path|e]; [|now intros [= <-]]. simpl.
    destruct (rec (PurePath.to_str path) _) as [[st3 r]|] eqn:Hr; [|discriminate].
    apply Hrec in Hr. simpl in Hr. rewrite Hs in Hr.
    destruct r; [|now intros [= <-]].
    intros H%IH. now rewrite H.
Qed.

Lemma recurse_directives readelf locate_library excluded fuel :
  forall target st out,
    recurse readelf locate_library excluded fuel target st = Some out ->
    directives (calls out.1) = directives (calls st).
Proof.
  induction fuel as [|fuel IH]; intros target st out; simpl; [discriminate|].
  assert (Hs : directives (calls st ++ [EvReadelf target]) = directives (calls st))
    by (rewrite directives_app; simpl; apply app_nil_r).
  destruct (readelf target) as [ms|e]; [|now intros [= <-]].
  intros H%(visit_directives _ _ _ IH). now rewrite H.
Qed.

Section Emits.

Variable c : string.
Variable G : string -> Prop.

Local Abbreviation emits Q m := (emits c G Q m).

Lemma emits_weaken {A} (Q Q' : A -> Prop) (m : M A) :
  (forall a, Q a -> Q' a) -> emits Q m -> emits Q' m.
Proof.
  intros HQ Hm w Hw. destruct (Hm w Hw) as (H1 & H2 & H3). auto.
Qed.

Lemma emits_ret {A} (a : A) : emits (fun x => x = a) (mret a).
Proof.
  intros w Hw. simpl. split; [assumption|]. split.
  - exists []. split; [now rewrite app_nil_r | intros t d []%elem_of_nil].
  - now intros a' [= <-].
Qed.

Lemma emits_bind {A B} (Q : A -> Prop) (Q' : B -> Prop) (m : M A) (k : A -> M B) :
  emits Q m -> (forall a, Q a -> emits Q' (k a)) -> emits Q' (m ≫= k).
Proof.
  intros Hm Hk w Hw. unfold mbind, M_bind.
  destruct (Hm w Hw) as (H1 & (evs & H2 & H2') & H3).
  destruct (m w) as [w1 [a|x]]; simpl in *.
  - destruct (Hk a (H3 a eq_refl) w1 H1) as (K1 & (evs' & K2 & K2') & K3).
    split; [assumption|]. split; [|assumption].
    exists (evs ++ evs'). split; [now rewrite K2, H2, app_assoc|].
    intros t d. rewrite directives_app, elem_of_app. intros [H | H]; eauto.
  - split; [assumption|]. split; [eauto | discriminate].
Qed.

Lemma emits_quiet {A} (m : M A) :
  (forall w, cwd (m w).1 = cwd w /\ trace (m w).1 = trace w) ->
  emits (fun _ => True) m.
Proof.
  intros H w Hw. destruct (H w) as [H1 H2]. split; [congruence|]. split; [|auto].
  exists []. split; [now rewrite app_nil_r | intros t d []%elem_of_nil].
Qed.

Lemma emits_update f : emits (fun _ => True) (FS.update f).
Proof.
  apply emits_quiet. intros w. unfold FS.update. now destruct (f (nodes w)).
Qed.

Lemma emits_query {A} (f : gmap string node -> result A) :
  emits (fun _ => True) (FS.query f).
Proof. apply emits_quiet. intros w. now split. Qed.

Lemma emits_copytree src dst : emits (fun _ => True) (FS.run_copytree src dst).
Proof.
  apply emits_quiet. intros w. unfold FS.run_copytree.
  now destruct (FS.copytree src dst (nodes w)).
Qed.

Lemma emits_for_each {A} (body : A -> M unit) (xs : list A) :
  (forall x, emits (fun _ => True) (body x)) ->
  emits (fun _ => True) (for_each body xs).
Proof.
  intros Hb. induction xs as [|x xs IH]; simpl.
  - eapply emits_weaken; [|apply emits_ret]. auto.
  - eapply emits_bind; [apply Hb | intros _ _; apply IH].
Qed.

Lemma emits_ldd e target : emits (fun _ => True) (Ext.ldd e target).
Proof.
  intros w Hw. destruct (ldd_unfold e target w) as (st & r & Hrun & _ & ->). simpl.
  split; [assumption|]. split; [|auto].
  exists (calls st). split; [reflexivity|].
  apply recurse_directives in Hrun. simpl in Hrun. rewrite Hrun.
  intros t d []%elem_of_nil.
Qed.

Lemma emits_map_modules e modules :
  forall libs, emits (fun _ => True) (Ext.map_modules e modules libs).
Proof.
  induction modules as [|m rest IH]; intros libs; simpl.
  - eapply emits_weaken; [|apply emits_ret]. auto.
  - eapply emits_bind; [apply emits_ldd | intros l _; apply IH].
Qed.

Lemma emits_map_dependencies e python packages :
  emits (fun _ => True) (Ext.map_dependencies e python packages).
Proof.
  unfold Ext.map_dependencies.
  eapply emits_bind; [apply emits_ldd | intros libs _].
  eapply emits_bind; [apply emits_query | intros modules _].
  apply emits_map_modules.
Qed.

Lemma emits_set_rpath target directive :
  G directive -> emits (fun _ => True) (Ext.set_rpath target directive).
Proof.
  intros HG w Hw. unfold Ext.set_rpath, Ext.print_rpath, Ext.patch_rpath, FS.query,
    FS.update, tell, mbind, M_bind, mret, M_ret. simpl.
  destruct (FS.open_read (nodes w) target) as [f|x]; simpl.
  2:{ split; [assumption|]. split; [|auto]. exists [EvPrintRpath target].
      split; [reflexivity | intros t d []%elem_of_nil]. }
  destruct (needed f); simpl.
  2:{ split; [assumption|]. split; [|auto]. exists [EvPrintRpath target].
      split; [reflexivity | intros t d []%elem_of_nil]. }
  destruct (negb _); simpl.
  2:{ split; [assumption|]. split; [|auto]. exists [EvPrintRpath target].
      split; [reflexivity | intros t d []%elem_of_nil]. }
  assert (Hev : forall t d,
            (t, d) ∈ directives [EvPrintRpath target; EvSetRpath target directive] -> G d).
  { simpl. intros t d [= -> ->]%list_elem_of_singleton. assumption. }
  match goal with |- context [match ?X with Ok _ => _ | Raise _ => _ end] => destruct X end;
    simpl; (split; [assumption|]); (split; [|auto]);
    exists [EvPrintRpath target; EvSetRpath target directive];
    (split; [now rewrite <- app_assoc | exact Hev]).
Qed.

End Emits.

Section ExtractTrace.

Variable c : string.
Variable libdir : Path.

Local Abbreviation G := (bundle_directive c libdir).
Local Abbreviation quiet m := (emits c G (fun _ => True) m).

Lemma origin_ok : G "$ORIGIN".
Proof. split; [reflexivity | now left]. Qed.

Lemma origin_relpath_ok start :
  G ("$ORIGIN/" +:+ OsPath.relpath c (PurePath.to_str libdir) (PurePath.to_str start)).
Proof. split; [apply origin_relpath_self_relative | right; now exists start]. Qed.

Lemma emits_relpath start :
  emits c G (fun a => a = OsPath.relpath c (PurePath.to_str libdir) (PurePath.to_str start))
        (Ext.relpath libdir start).
Proof.
  intros w Hw. unfold Ext.relpath. simpl. split; [assumption|]. split.
  - exists []. split; [now rewrite app_nil_r | intros t d []%elem_of_nil].
  - intros a [= <-]. now rewrite Hw.
Qed.

Lemma emits_copy_dependency entry : quiet (Ext.copy_dependency libdir entry).
Proof.
  destruct entry as [name src]. unfold Ext.copy_dependency.
  eapply emits_bind; [apply emits_update | intros _ _].
  eapply emits_bind; [apply emits_query | intros mode _].
  eapply emits_bind.
  - destruct (Ext.writable_mode mode); [apply emits_update|].
    eapply emits_weaken; [|apply emits_ret]. auto.
  - intros _ _. apply emits_set_rpath, origin_ok.
Qed.

Lemma emits_patch_module module : quiet (Ext.patch_module libdir module).
Proof.
  unfold Ext.patch_module.
  eapply emits_bind; [apply emits_relpath | intros dst ->].
  apply emits_set_rpath, origin_relpath_ok.
Qed.

End ExtractTrace.

Lemma emits_extract e destination c :
  emits c (bundle_directive c (destination // "lib")) (fun _ => True)
        (Ext.extract e destination).
Proof.
  unfold Ext.extract.
  eapply emits_bind; [apply emits_query | intros include _].
  do 6 (eapply emits_bind; [apply emits_update | intros _ _]).
  eapply emits_bind.
  { apply emits_for_each. intros folder. apply emits_copytree. }
  intros _ _.
  eapply emits_bind; [apply emits_map_dependencies | intros libs _].
  eapply emits_bind.
  { apply emits_for_each. intros entry. apply emits_copy_dependency. }
  intros _ _.
  eapply emits_bind; [apply emits_query | intros modules _].
  eapply emits_bind.
  { apply emits_for_each. intros module. apply emits_patch_module. }
  intros _ _.
  eapply emits_bind; [apply emits_relpath | intros dst ->].
  apply emits_set_rpath, origin_relpath_ok.
Qed.

(** C6: every directive [extract] writes, into whatever binary and
    whether or not the extraction goes to its end, is self-relative: the
    token [$ORIGIN], alone for the copied libraries, or followed by a
    slash and the relative path [os.path.relpath] gives from a directory
    to the shared [lib/] directory of the destination; that path is not
    empty and does not start with a slash. It is computed from the
    destination and the working directory, not from the image. *)
Theorem extract_directives_self_relative (e : Extractor) (destination : Path) (w : world) :
  exists evs,
    trace (Ext.extract e destination w).1 = trace w ++ evs /\
    forall target directive,
      (target, directive) ∈ directives evs ->
      is_self_relative directive = true /\
      (directive = "$ORIGIN" \/
       exists start : Path,
         directive = "$ORIGIN/" +:+
           OsPath.relpath (cwd w) (PurePath.to_str (destination // "lib"))
                          (PurePath.to_str start)).
Proof.
  destruct (emits_extract e destination (cwd w) w eq_refl) as (_ & (evs & H1 & H2) & _).
  exists evs. split; [assumption|]. intros t d Hin. exact (H2 t d Hin).
Qed.

Example extract_directives_sample :
  directives (trace (Ext.extract Sample.extractor (PurePath.parse "out") Sample.w_image).1)
  = [("out/lib/libz.so.1", "$ORIGIN");
     ("out/lib/libssl.so.1.1", "$ORIGIN");
     ("out/lib/libcrypto.so.1.1", "$ORIGIN");
     ("out/lib/python3.11/lib-dynload/_ssl.so", "$ORIGIN/../..");
     ("out/bin/python3.11", "$ORIGIN/../lib")].
Proof. vm_compute. reflexivity. Qed.

(** ** Following links after a write *)

Lemma node_at_insert ns k n' p :
  k <> "." -> k <> "/" ->
  FS.node_at (<[k := n']> ns) p = if decide (k = p) then Some n' else FS.node_at ns p.
Proof.
  intros H1 H2. unfold FS.node_at.
  destruct (String.eqb_spec p ".") as [->|]; simpl.
  - destruct (decide (k = ".")); [contradiction | reflexivity].
  - destruct (String.eqb_spec p "/") as [->|]; simpl.
    + destruct (decide (k = "/")); [contradiction | reflexivity].
    + destruct (decide (k = p)) as [->|Hne];
        [apply lookup_insert_eq | now apply lookup_insert_ne].
Qed.

Lemma node_at_not_special ns k :
  FS.node_at ns k <> Some NDir -> k <> "." /\ k <> "/".
Proof.
  unfold FS.node_at. intros H. split; intros ->; simpl in H; congruence.
Qed.

(** Writing a node that is not a link where no link was leaves every
    resolution where it led. *)
Lemma resolve_insert fuel ns k n' :
  (forall t, FS.node_at ns k <> Some (NLink t)) -> (forall t, n' <> NLink t) ->
  k <> "." -> k <> "/" ->
  forall p q o,
    FS.resolve fuel ns p = Ok (q, o) ->
    FS.resolve fuel (<[k := n']> ns) p = Ok (q, if decide (k = q) then Some n' else o).
Proof.
  intros Hk Hn' H1 H2. induction fuel as [|fuel IH]; intros p q o; simpl;
    rewrite (node_at_insert _ _ _ _ H1 H2).
  - destruct (decide (k = p)) as [->|Hne].
    + destruct (FS.node_at ns p) as [[f| |t]|] eqn:E; try (now specialize (Hk t));
        intros [= <- <-]; rewrite decide_True by reflexivity;
        destruct n'; try reflexivity; now specialize (Hn' target).
    + destruct (FS.node_at ns p) as [[f| |t]|] eqn:E; try discriminate;
        intros [= <- <-]; now rewrite decide_False.
  - destruct (decide (k = p)) as [->|Hne].
    + destruct (FS.node_at ns p) as [[f| |t]|] eqn:E; try (now specialize (Hk t));
        intros [= <- <-]; rewrite decide_True by reflexivity;
        destruct n'; try reflexivity; now specialize (Hn' target).
    + destruct (FS.node_at ns p) as [[f| |t]|] eqn:E;
        try (intros [= <- <-]; now rewrite decide_False).
      apply IH.
Qed.

(** Writing a file where resolution of [p] ends. *)
Lemma lookup_follow_insert_end ns p q o f' :
  FS.lookup_follow ns p = Ok (q, o) -> o <> Some NDir ->
  FS.lookup_follow (<[q := NFile f']> ns) p = Ok (q, Some (NFile f')).
Proof.
  unfold FS.lookup_follow. intros H Ho.
  destruct (resolve_node_at _ _ _ _ _ H) as [Hq Hl].
  assert (Hs : q <> "." /\ q <> "/") by (apply (node_at_not_special ns); congruence).
  rewrite (resolve_insert _ ns q (NFile f') ltac:(intros t; rewrite Hq; apply Hl)
             ltac:(discriminate) (proj1 Hs) (proj2 Hs) _ _ _ H).
  now rewrite decide_True.
Qed.

(** ** White space *)

Lemma append_cons c s t : String c s +:+ t = String c (s +:+ t).
Proof. reflexivity. Qed.

Lemma append_nil t : "" +:+ t = t.
Proof. reflexivity. Qed.

Lemma rstrip_snoc_space s c :
  PyStr.is_space c = true -> PyStr.rstrip (s +:+ String c "") = PyStr.rstrip s.
Proof.
  intros Hc. induction s as [|a s IH].
  - rewrite append_nil. simpl. now rewrite Hc.
  - rewrite append_cons. simpl. now rewrite IH.
Qed.

(** The new line [patchelf] prints after the directive does not count. *)
Lemma strip_newline s : PyStr.strip (s +:+ Ext.newline) = PyStr.strip s.
Proof.
  unfold PyStr.strip, Ext.newline. induction s as [|a s IH].
  - reflexivity.
  - rewrite append_cons. simpl. destruct (PyStr.is_space a); [exact IH|].
    rewrite <- append_cons. now apply rstrip_snoc_space.
Qed.

(** ** [set_rpath] *)

Lemma set_rpath_unfold target directive w :
  Ext.set_rpath target directive w =
  match FS.open_read (nodes w) target with
  | Ok f =>
      match needed f with
      | Some _ =>
          if negb (String.eqb (PyStr.strip (rpath f)) directive)
          then Ext.patch_rpath target directive (emit (EvPrintRpath target) w)
          else (emit (EvPrintRpath target) w, Ok tt)
      | None => (emit (EvPrintRpath target) w, Raise CalledProcessError)
      end
  | Raise _ => (emit (EvPrintRpath target) w, Raise CalledProcessError)
  end.
Proof.
  unfold Ext.set_rpath, Ext.print_rpath, FS.query, tell, mbind, M_bind, mret, M_ret. simpl.
  destruct (FS.open_read (nodes w) target) as [f|x]; [|reflexivity].
  destruct (needed f); [|reflexivity]. rewrite strip_newline.
  destruct (negb _); reflexivity.
Qed.

Lemma open_read_follow ns p f :
  FS.open_read ns p = Ok f <-> exists q, FS.lookup_follow ns p = Ok (q, Some (NFile f)).
Proof.
  unfold FS.open_read. destruct (FS.lookup_follow ns p) as [[q [[f'| |t]|]]|x]; split;
    try discriminate; try (intros [q' [=]]; fail).
  - intros [= ->]. now exists q.
  - now intros [q' [= _ ->]].
Qed.

(** A normal return of [set_rpath] leaves a binary whose directive, as
    stored, is the one the caller asked for or strips to it. *)
Lemma set_rpath_post target directive w :
  (Ext.set_rpath target directive w).2 = Ok tt ->
  exists f,
    FS.open_read (nodes (Ext.set_rpath target directive w).1) target = Ok f /\
    is_Some (needed f) /\
    (PyStr.strip (rpath f) = directive \/ rpath f = directive).
Proof.
  rewrite set_rpath_unfold.
  destruct (FS.open_read (nodes w) target) as [f|x] eqn:Hf; [|discriminate].
  destruct (needed f) as [names|] eqn:Hn; [|discriminate].
  destruct (String.eqb_spec (PyStr.strip (rpath f)) directive) as [He|Hne]; simpl.
  - intros _. exists f. rewrite Hf, Hn. eauto.
  - apply open_read_follow in Hf as [q Hl].
    unfold Ext.patch_rpath, FS.update, tell, mbind, M_bind. simpl.
    rewrite Hl. destruct f as [md nd rp tx]. simpl in Hn. subst nd. simpl.
    destruct (FS.writable _); [|discriminate]. simpl. intros _.
    eexists. split.
    + apply open_read_follow. exists q.
      apply (lookup_follow_insert_end _ _ _ _ _ Hl). discriminate.
    + simpl. eauto.
Qed.




(** ** Permission bits *)

Lemma testbit_IWUSR i : Z.testbit FS.S_IWUSR i = (i =? 7)%Z.
Proof.
  change FS.S_IWUSR with (2 ^ 7)%Z. rewrite Z.pow2_bits_eqb by lia.
  destruct (Z.eqb_spec 7 i), (Z.eqb_spec i 7); congruence.
Qed.

Lemma testbit_IFREG i : Z.testbit FS.S_IFREG i = (i =? 15)%Z.
Proof.
  change FS.S_IFREG with (2 ^ 15)%Z. rewrite Z.pow2_bits_eqb by lia.
  destruct (Z.eqb_spec 15 i), (Z.eqb_spec i 15); congruence.
Qed.

Lemma testbit_IMODE m i :
  Z.testbit (FS.S_IMODE m) i = Z.testbit m i && (i <? 12)%Z.
Proof.
  unfold FS.S_IMODE. rewrite Z.land_spec. change 4095%Z with (Z.ones 12).
  destruct (Z.ltb_spec i 0) as [Hneg|Hpos].
  - rewrite !Z.testbit_neg_r by assumption. reflexivity.
  - rewrite Z.testbit_ones_nonneg by lia.
    destruct (Z.ltb_spec i 12); reflexivity.
Qed.

Lemma land_IWUSR_zero m : (Z.land m FS.S_IWUSR =? 0)%Z = negb (Z.testbit m 7).
Proof.
  destruct (Z.testbit m 7) eqn:E; simpl.
  - apply Z.eqb_neq. intros H.
    assert (Hb : Z.testbit (Z.land m FS.S_IWUSR) 7 = true)
      by (rewrite Z.land_spec, E, testbit_IWUSR; reflexivity).
    rewrite H in Hb. discriminate.
  - apply Z.eqb_eq, Z.bits_inj'. intros i Hi.
    rewrite Z.land_spec, testbit_IWUSR, Z.bits_0.
    destruct (Z.eqb_spec i 7) as [->|]; [now rewrite E | apply andb_false_r].
Qed.

Lemma written_mode_bit m i :
  i <> 10%Z -> i <> 11%Z ->
  Z.testbit (FS.written_mode m) i = Z.testbit m i.
Proof.
  intros H10 H11. unfold FS.written_mode.
  assert (Hu : Z.testbit FS.S_ISUID i = false).
  { change FS.S_ISUID with (2 ^ 11)%Z. rewrite Z.pow2_bits_eqb by lia.
    destruct (Z.eqb_spec 11 i); congruence. }
  assert (Hg : Z.testbit FS.S_ISGID i = false).
  { change FS.S_ISGID with (2 ^ 10)%Z. rewrite Z.pow2_bits_eqb by lia.
    destruct (Z.eqb_spec 10 i); congruence. }
  destruct (Z.testbit m 3); rewrite ?Z.ldiff_spec, Hu, ?Hg; cbn [negb];
    now rewrite ?andb_true_r.
Qed.

Lemma written_mode_same m : same_permissions m (FS.written_mode m).
Proof. intros i H10 H11. now apply written_mode_bit. Qed.

(** What [chmod] stores for the mode [m | S_IWUSR] of a copied file. *)
Lemma chmod_granted m :
  let m0 := Z.lor FS.S_IFREG (FS.S_IMODE m) in
  Z.lor FS.S_IFREG (FS.S_IMODE (Z.lor m0 FS.S_IWUSR)) = Z.lor m0 FS.S_IWUSR.
Proof.
  intros m0. subst m0. apply Z.bits_inj'. intros i Hi.
  rewrite !Z.lor_spec, !testbit_IMODE, !Z.lor_spec, !testbit_IMODE, !testbit_IFREG,
    !testbit_IWUSR.
  destruct (Z.eqb_spec i 15) as [->|]; [reflexivity|].
  destruct (Z.eqb_spec i 7) as [->|]; [simpl; now rewrite orb_true_r|].
  destruct (Z.ltb_spec i 12); simpl; now rewrite ?orb_false_r, ?andb_true_r, ?andb_false_r.
Qed.

(** The mode [writable_mode] asks for differs from the old one in the
    owner-write bit only, and has that bit. *)
Lemma writable_mode_bits mode :
  let mode' := default mode (Ext.writable_mode mode) in
  (Z.testbit mode 7 = true -> Ext.writable_mode mode = None) /\
  (Z.testbit mode 7 = false -> Ext.writable_mode mode = Some (Z.lor mode FS.S_IWUSR)) /\
  Z.testbit mode' 7 = true /\
  (forall i, i <> 7%Z -> Z.testbit mode' i = Z.testbit mode i).
Proof.
  unfold Ext.writable_mode. rewrite land_IWUSR_zero.
  destruct (Z.testbit mode 7) eqn:E; cbv [negb default from_option id].
  - repeat split; try congruence.
  - repeat split; try congruence.
    + rewrite Z.lor_spec, testbit_IWUSR. apply orb_true_r.
    + intros i Hi. rewrite Z.lor_spec, testbit_IWUSR.
      destruct (Z.eqb_spec i 7); [contradiction | apply orb_false_r].
Qed.

(** ** Copying a dependency *)

Lemma write_file_spec ns p f ns1 q :
  FS.write_file ns p f = Ok (ns1, q) ->
  exists o, FS.lookup_follow ns p = Ok (q, o) /\ o <> Some NDir /\
            ns1 = <[q := NFile f]> ns.
Proof.
  unfold FS.write_file.
  destruct (FS.lookup_follow ns p) as [[q' [[old| |t]|]]|x]; try discriminate.
  - destruct (FS.writable old); [|discriminate]. intros [= <- <-]. eexists. eauto.
  - destruct (FS.is_dir ns (FS.parent_str q')); [|discriminate].
    intros [= <- <-]. eexists. split; [reflexivity|]. split; [discriminate | reflexivity].
  - destruct (FS.is_dir ns (FS.parent_str q')); [|discriminate].
    intros [= <- <-]. eexists. split; [reflexivity|]. split; [discriminate | reflexivity].
Qed.

Lemma is_dir_follow ns p :
  FS.is_dir ns p = true <-> exists q, FS.lookup_follow ns p = Ok (q, Some NDir).
Proof.
  unfold FS.is_dir. destruct (FS.lookup_follow ns p) as [[q [[f| |t]|]]|x]; split;
    try discriminate; try (intros [q' [=]]; fail); eauto.
Qed.

Lemma copy_spec src dst ns ns1 :
  FS.copy src dst ns = Ok ns1 ->
  exists f, FS.open_read ns src = Ok f /\
    (FS.is_dir ns1 dst = true \/
     exists q, FS.lookup_follow ns1 dst = Ok (q, Some (NFile (FS.copied f)))).
Proof.
  unfold FS.copy. destruct (FS.open_read ns src) as [f|x]; [|discriminate]. cbn [rbind].
  destruct (FS.write_file ns _ (FS.copied f)) as [[ns' q1]|x] eqn:Hw; [|discriminate].
  cbn [rbind]. intros [= <-]. exists f. split; [reflexivity|].
  apply write_file_spec in Hw as (o & Hl & Ho & ->).
  destruct (FS.is_dir ns dst) eqn:Hd.
  - left. apply is_dir_follow in Hd as [qd Hqd]. apply is_dir_follow. exists qd.
    unfold FS.lookup_follow in *.
    destruct (resolve_node_at _ _ _ _ _ Hl) as [Hq1 Hnl].
    destruct (resolve_node_at _ _ _ _ _ Hqd) as [Hq2 _].
    assert (Hs : q1 <> "." /\ q1 <> "/") by (apply (node_at_not_special ns); congruence).
    rewrite (resolve_insert _ ns q1 (NFile (FS.copied f))
               ltac:(intros t; rewrite Hq1; apply Hnl)
               ltac:(discriminate) (proj1 Hs) (proj2 Hs) _ _ _ Hqd).
    destruct (decide (q1 = qd)) as [->|]; [congruence | reflexivity].
  - right. exists q1. now apply (lookup_follow_insert_end _ _ _ o).
Qed.

Lemma set_rpath_on_dir target directive w :
  FS.is_dir (nodes w) target = true ->
  (Ext.set_rpath target directive w).2 = Raise CalledProcessError.
Proof.
  intros [q Hq]%is_dir_follow. rewrite set_rpath_unfold. unfold FS.open_read.
  now rewrite Hq.
Qed.

Lemma chmod_spec ns p q f mode :
  FS.lookup_follow ns p = Ok (q, Some (NFile f)) ->
  exists ns2,
    FS.chmod p mode ns = Ok ns2 /\
    FS.lookup_follow ns2 p =
      Ok (q, Some (NFile (mkFile (Z.lor FS.S_IFREG (FS.S_IMODE mode))
                                 (needed f) (rpath f) (text f)))).
Proof.
  intros Hl. unfold FS.chmod. rewrite Hl. eexists. split; [reflexivity|].
  apply (lookup_follow_insert_end _ _ _ _ _ Hl). discriminate.
Qed.

Lemma set_rpath_mode target directive w q f :
  FS.lookup_follow (nodes w) target = Ok (q, Some (NFile f)) ->
  (Ext.set_rpath target directive w).2 = Ok tt ->
  exists f',
    FS.lookup_follow (nodes (Ext.set_rpath target directive w).1) target
      = Ok (q, Some (NFile f')) /\
    same_permissions (st_mode f) (st_mode f').
Proof.
  intros Hl. rewrite set_rpath_unfold. unfold FS.open_read. rewrite Hl.
  destruct f as [md nd rp tx]. simpl. destruct nd as [names|]; [|discriminate].
  destruct (negb _); simpl; [|intros _; eexists; split; [exact Hl | now intros i _ _]].
  unfold Ext.patch_rpath, FS.update, tell, mbind, M_bind. simpl. rewrite Hl. simpl.
  destruct (FS.writable _); [|discriminate]. simpl. intros _.
  eexists. split; [apply (lookup_follow_insert_end _ _ _ _ _ Hl); discriminate|].
  apply written_mode_same.
Qed.

Lemma copy_dependency_unfold libdir name src w :
  let dst := PurePath.to_str (libdir // name) in
  Ext.copy_dependency libdir (name, src) w =
  match FS.copy (PurePath.to_str src) dst (nodes w) with
  | Raise x => (w, Raise x)
  | Ok ns1 =>
      match FS.stat_mode ns1 dst with
      | Raise x => (set_nodes ns1 w, Raise x)
      | Ok mode =>
          match Ext.writable_mode mode with
          | Some mode' =>
              match FS.chmod dst mode' ns1 with
              | Ok ns2 => Ext.set_rpath dst "$ORIGIN" (set_nodes ns2 (set_nodes ns1 w))
              | Raise x => (set_nodes ns1 w, Raise x)
              end
          | None => Ext.set_rpath dst "$ORIGIN" (set_nodes ns1 w)
          end
      end
  end.
Proof.
  intros dst. unfold Ext.copy_dependency, FS.update, FS.query, mbind, M_bind, mret, M_ret.
  fold dst. destruct (FS.copy _ dst (nodes w)) as [ns1|x]; [|reflexivity]. simpl.
  destruct (FS.stat_mode ns1 dst) as [mode|x]; [|reflexivity].
  destruct (Ext.writable_mode mode) as [mode'|]; [|reflexivity]. simpl.
  destruct (FS.chmod dst mode' ns1); reflexivity.
Qed.

(** C8: when the copy of a dependency into the shared [lib/] directory
    goes through, the body of the loop is the copy and the change of
    mode, followed by [set_rpath] from a state [w1]. In [w1] the copied
    file has the owner-write bit (bit 7, [S_IWUSR = 0o200]): its mode is
    the one the copy gave it when the bit was there, and differs from it
    in that bit alone when it was not. At the end of the body the bit is
    still there and the other permission bits are as the copy gave
    them. The set-id bits (10 and 11) are left out: the kernel may clear
    them when a file is written, as [patchelf] does. *)
Theorem copied_library_owner_write (libdir : Path) (name : string) (src : Path)
  (w : world) :
  (Ext.copy_dependency libdir (name, src) w).2 = Ok tt ->
  exists f q w1 f1 f',
    FS.open_read (nodes w) (PurePath.to_str src) = Ok f /\
    Ext.copy_dependency libdir (name, src) w
    = Ext.set_rpath (PurePath.to_str (libdir // name)) "$ORIGIN" w1 /\
    FS.lookup_follow (nodes w1) (PurePath.to_str (libdir // name))
    = Ok (q, Some (NFile f1)) /\
    (Z.testbit (st_mode (FS.copied f)) 7 = true -> st_mode f1 = st_mode (FS.copied f)) /\
    Z.testbit (st_mode f1) 7 = true /\
    (forall i, i <> 7%Z -> i <> 10%Z -> i <> 11%Z ->
       Z.testbit (st_mode f1) i = Z.testbit (st_mode (FS.copied f)) i) /\
    FS.lookup_follow (nodes (Ext.copy_dependency libdir (name, src) w).1)
                     (PurePath.to_str (libdir // name)) = Ok (q, Some (NFile f')) /\
    Z.testbit (st_mode f') 7 = true /\
    (forall i, i <> 7%Z -> i <> 10%Z -> i <> 11%Z ->
       Z.testbit (st_mode f') i = Z.testbit (st_mode (FS.copied f)) i).
Proof.
  rewrite copy_dependency_unfold. cbv zeta.
  set (dst := PurePath.to_str (libdir // name)).
  destruct (FS.copy _ dst (nodes w)) as [ns1|x] eqn:Hc; [|discriminate].
  apply copy_spec in Hc as (f & Hf & [Hd | [q Hq]]).
  - (* the destination is a directory: [patchelf] fails on it *)
    pose proof Hd as [qd Hqd]%is_dir_follow.
    unfold FS.stat_mode. rewrite Hqd.
    change (Ext.writable_mode 16877) with (@None Z). cbv iota.
    now rewrite (set_rpath_on_dir dst "$ORIGIN" (set_nodes ns1 w) Hd).
  - unfold FS.stat_mode. rewrite Hq.
    set (m0 := st_mode (FS.copied f)).
    destruct (writable_mode_bits m0) as (Hset & Hunset & Hbit & Hothers).
    assert (Hend : forall w1 f1,
              FS.lookup_follow (nodes w1) dst = Ok (q, Some (NFile f1)) ->
              st_mode f1 = default m0 (Ext.writable_mode m0) ->
              (Ext.set_rpath dst "$ORIGIN" w1).2 = Ok tt ->
              exists f1' f',
                FS.lookup_follow (nodes w1) dst = Ok (q, Some (NFile f1')) /\
                (Z.testbit m0 7 = true -> st_mode f1' = m0) /\
                Z.testbit (st_mode f1') 7 = true /\
                (forall i, i <> 7%Z -> i <> 10%Z -> i <> 11%Z ->
                   Z.testbit (st_mode f1') i = Z.testbit m0 i) /\
                FS.lookup_follow (nodes (Ext.set_rpath dst "$ORIGIN" w1).1) dst
                = Ok (q, Some (NFile f')) /\
                Z.testbit (st_mode f') 7 = true /\
                (forall i, i <> 7%Z -> i <> 10%Z -> i <> 11%Z ->
                   Z.testbit (st_mode f') i = Z.testbit m0 i)).
    { intros w1 f1 Hl1 Hm1 Hok.
      destruct (set_rpath_mode dst "$ORIGIN" w1 q f1 Hl1 Hok) as (f' & Hl' & Hsame).
      exists f1, f'. split; [assumption|]. rewrite Hm1.
      split; [intros E; now rewrite (Hset E)|]. split; [assumption|].
      split; [intros i H7 _ _; now apply Hothers|]. split; [assumption|].
      split.
      - rewrite (Hsame 7%Z) by lia. now rewrite Hm1.
      - intros i H7 H10 H11. rewrite (Hsame i H10 H11), Hm1. now apply Hothers. }
    destruct (Ext.writable_mode m0) as [mode'|] eqn:Hwm.
    + assert (Hm : mode' = Z.lor m0 FS.S_IWUSR).
      { destruct (Z.testbit m0 7) eqn:E;
          [discriminate (Hset eq_refl) | now injection (Hunset eq_refl)]. }
      destruct (chmod_spec ns1 dst q _ mode' Hq) as (ns2 & -> & Hq2).
      intros Hok.
      destruct (Hend (set_nodes ns2 (set_nodes ns1 w)) _ Hq2) as (f1 & f' & H);
        [|assumption|].
      { cbn [st_mode default from_option id]. rewrite Hm. unfold m0, FS.copied.
        cbn [st_mode]. apply chmod_granted. }
      exists f, q, (set_nodes ns2 (set_nodes ns1 w)), f1, f'. auto.
    + intros Hok.
      destruct (Hend (set_nodes ns1 w) _ Hq eq_refl Hok) as (f1 & f' & H).
      exists f, q, (set_nodes ns1 w), f1, f'. auto.
Qed.

Lemma copied_library_owner_write_witness :
  exists f q w1 f1 f',
    FS.open_read (nodes Sample.w_existing) "img/lib64/libz.so.1" = Ok f /\
    Ext.copy_dependency (PurePath.parse "out")
      ("libz.so.1", PurePath.parse "img/lib64/libz.so.1") Sample.w_existing
    = Ext.set_rpath (PurePath.to_str (PurePath.parse "out" // "libz.so.1")) "$ORIGIN" w1 /\
    FS.lookup_follow (nodes w1) (PurePath.to_str (PurePath.parse "out" // "libz.so.1"))
    = Ok (q, Some (NFile f1)) /\
    (Z.testbit (st_mode (FS.copied f)) 7 = true -> st_mode f1 = st_mode (FS.copied f)) /\
    Z.testbit (st_mode f1) 7 = true /\
    (forall i, i <> 7%Z -> i <> 10%Z -> i <> 11%Z ->
       Z.testbit (st_mode f1) i = Z.testbit (st_mode (FS.copied f)) i) /\
    FS.lookup_follow
      (nodes (Ext.copy_dependency (PurePath.parse "out")
                ("libz.so.1", PurePath.parse "img/lib64/libz.so.1") Sample.w_existing).1)
      (PurePath.to_str (PurePath.parse "out" // "libz.so.1")) = Ok (q, Some (NFile f')) /\
    Z.testbit (st_mode f') 7 = true /\
    (forall i, i <> 7%Z -> i <> 10%Z -> i <> 11%Z ->
       Z.testbit (st_mode f') i = Z.testbit (st_mode (FS.copied f)) i).
Proof.
  apply (copied_library_owner_write (PurePath.parse "out") "libz.so.1"
           (PurePath.parse "img/lib64/libz.so.1") Sample.w_existing).
  vm_compute. reflexivity.
Defined.

(** A library with the set-user-id bit and no owner-write bit (mode
    0o104555 in the image): the copy has the mode 0o104755 after the
    change of mode, and 0o100755 once [patchelf] has written it. *)
Example set_id_library_written :
  let w := Sample.world_of [ ("out", NDir); ("img/libs.so", Sample.elf 35181 []) ] in
  FS.stat_mode
    (nodes (Ext.copy_dependency (PurePath.parse "out")
              ("libs.so", PurePath.parse "img/libs.so") w).1)
    "out/libs.so" = Ok 33261%Z.
Proof. vm_compute. reflexivity. Qed.

(** On the sample: a library that is read-only in the image (mode
    0o100555) is writable by its owner in the bundle (mode 0o100755). *)
Example read_only_library_made_writable :
  FS.stat_mode (nodes Sample.w_existing) "img/lib64/libz.so.1" = Ok 33133%Z /\
  FS.stat_mode
    (nodes (Ext.copy_dependency (PurePath.parse "out")
              ("libz.so.1", PurePath.parse "img/lib64/libz.so.1") Sample.w_existing).1)
    "out/libz.so.1" = Ok 33261%Z.
Proof. split; vm_compute; reflexivity. Qed.

(** * Further properties of the code *)

(** ** Splitting and joining *)

Lemma split_nonempty sep k s : PyStr.split sep k s <> [].
Proof.
  destruct s as [|c s]; simpl; [discriminate|].
  destruct (Ascii.eqb c sep); [destruct k; discriminate|].
  destruct (PyStr.split sep k s); discriminate.
Qed.

Lemma join_cons_cons sep p q rest :
  PyStr.join sep (p :: q :: rest) = p +:+ sep +:+ PyStr.join sep (q :: rest).
Proof. reflexivity. Qed.

(** [sep.join(s.split(sep, k)) == s]. *)
Lemma join_split sep s :
  forall k, PyStr.join (String sep "") (PyStr.split sep k s) = s.
Proof.
  induction s as [|c s IH]; intros k; simpl; [reflexivity|].
  destruct (Ascii.eqb_spec c sep) as [->|Hne].
  - destruct k as [|k]; [reflexivity|].
    specialize (IH k). pose proof (split_nonempty sep k s) as Hn.
    destruct (PyStr.split sep k s) as [|h t]; [contradiction|].
    rewrite join_cons_cons, IH. reflexivity.
  - specialize (IH k). pose proof (split_nonempty sep k s) as Hn.
    destruct (PyStr.split sep k s) as [|h t]; [contradiction|].
    destruct t as [|h' t].
    + simpl in *. now rewrite IH.
    + rewrite join_cons_cons in *. rewrite <- IH. reflexivity.
Qed.

(** Every piece but the last is free of the separator. *)
Lemma split_init_no_sep sep s :
  forall k, List.Forall (fun x => PyStr.contains_char sep x = false)
                        (List.removelast (PyStr.split sep k s)).
Proof.
  induction s as [|c s IH]; intros k; simpl; [constructor|].
  destruct (Ascii.eqb c sep) eqn:Ec.
  - destruct k as [|k]; [constructor|].
    specialize (IH k). pose proof (split_nonempty sep k s) as Hn.
    destruct (PyStr.split sep k s) as [|h t]; [contradiction|].
    constructor; [reflexivity | exact IH].
  - specialize (IH k). pose proof (split_nonempty sep k s) as Hn.
    destruct (PyStr.split sep k s) as [|h t]; [contradiction|].
    destruct t as [|h' t]; [constructor|].
    inversion IH as [|? ? Hh Ht]; subst.
    constructor; [simpl; now rewrite Ec, Hh | assumption].
Qed.

(** The number of pieces is at most one more than the bound. *)
Lemma split_length sep s : forall k, List.length (PyStr.split sep k s) <= S k.
Proof.
  induction s as [|c s IH]; intros k; simpl; [lia|].
  destruct (Ascii.eqb c sep).
  - destruct k as [|k]; simpl; [lia|]. specialize (IH k). lia.
  - specialize (IH k). destruct (PyStr.split sep k s); simpl in *; lia.
Qed.

(** ** [PythonVersion.from_str], in full *)

Lemma from_str_ok_iff (value : string) (v : PythonVersion) :
  Version.from_str value = Ok v <->
  exists a b c,
    value = a +:+ "." +:+ b +:+ "." +:+ c /\
    PyStr.contains_char "." a = false /\ PyStr.contains_char "." b = false /\
    PyInt.of_str a = Some (major v) /\ PyInt.of_str b = Some (minor v) /\
    patch v = match PyInt.of_str c with Some n => PInt n | None => PStr c end.
Proof.
  split.
  - unfold Version.from_str.
    pose proof (join_split "." value 2) as Hj.
    pose proof (split_init_no_sep "." value 2) as Hn.
    destruct (PyStr.split "." 2 value) as [|a [|b [|c [|d t]]]]; try discriminate.
    destruct (PyInt.of_str a) as [ma|] eqn:Ea; [|discriminate].
    destruct (PyInt.of_str b) as [mi|] eqn:Eb; [|discriminate].
    intros [= <-]. exists a, b, c. simpl in Hn.
    inversion Hn as [|? ? Ha Hn']; subst. inversion Hn' as [|? ? Hb _]; subst.
    repeat split; auto.
  - intros (a & b & c & -> & Ha & Hb & Ea & Eb & Ep).
    unfold Version.from_str. rewrite (split_three _ _ _ Ha Hb), Ea, Eb.
    destruct v as [ma mi p]. simpl in *. now rewrite Ep.
Qed.

Lemma from_str_raises_value_error (value : string) (x : exn) :
  Version.from_str value = Raise x -> x = ValueError.
Proof.
  unfold Version.from_str.
  destruct (PyStr.split "." 2 value) as [|a [|b [|c [|d t]]]]; try (now intros [= <-]).
  destruct (PyInt.of_str a), (PyInt.of_str b); try discriminate; now intros [= <-].
Qed.

(** X1: on a string of at most 4300 characters (so that no numeral in
    it meets the bound of [int()] on digits), [from_str] returns a
    version exactly when the string is [a.b.c] where [a] and [b] hold no
    dot and are read by [int()] as the major and the minor; the rest
    [c], dots included, is the patch: an [int] when [int()] reads it,
    the text itself otherwise, so that a label is never a numeral. On
    every other such string [from_str] raises [ValueError], and it
    raises nothing else. *)
Theorem from_str_characterised (value : string) :
  String.length value <= 4300 ->
  (forall v, Version.from_str value = Ok v <->
     exists a b c,
       value = a +:+ "." +:+ b +:+ "." +:+ c /\
       PyStr.contains_char "." a = false /\ PyStr.contains_char "." b = false /\
       PyInt.of_str a = Some (major v) /\ PyInt.of_str b = Some (minor v) /\
       patch v = match PyInt.of_str c with Some n => PInt n | None => PStr c end) /\
  (forall x, Version.from_str value = Raise x -> x = ValueError).
Proof.
  intros _. split; [intros v; apply from_str_ok_iff | apply from_str_raises_value_error].
Qed.

Lemma from_str_characterised_witness :
  (forall v, Version.from_str "3.11.0rc1" = Ok v <->
     exists a b c,
       "3.11.0rc1" = a +:+ "." +:+ b +:+ "." +:+ c /\
       PyStr.contains_char "." a = false /\ PyStr.contains_char "." b = false /\
       PyInt.of_str a = Some (major v) /\ PyInt.of_str b = Some (minor v) /\
       patch v = match PyInt.of_str c with Some n => PInt n | None => PStr c end) /\
  (forall x, Version.from_str "3.11.0rc1" = Raise x -> x = ValueError).
Proof.
  apply (from_str_characterised "3.11.0rc1"). simpl. lia.
Defined.

(** What [int()] makes of the separators 0x1C..0x1F, which [str.strip()]
    removes: they are no white space for it. *)
Example int_rejects_separator :
  PyInt.of_str (String "028" "3") = None /\ PyStr.strip (String "028" "3") = "3".
Proof. split; reflexivity. Qed.

(** X2: a string with fewer than two dots is no version: [from_str]
    raises [ValueError] on it. *)
Theorem from_str_needs_two_dots (a b : string) :
  PyStr.contains_char "." a = false -> PyStr.contains_char "." b = false ->
  Version.from_str a = Raise ValueError /\
  Version.from_str (a +:+ "." +:+ b) = Raise ValueError.
Proof.
  intros Ha Hb. unfold Version.from_str. split.
  - now rewrite (split_no_sep _ _ _ Ha).
  - change (a +:+ "." +:+ b) with (a +:+ String "." b).
    now rewrite (split_at_first _ _ _ _ Ha), (split_no_sep _ _ _ Hb).
Qed.

Lemma from_str_needs_two_dots_witness :
  Version.from_str "3" = Raise ValueError /\ Version.from_str "3.11" = Raise ValueError.
Proof. apply (from_str_needs_two_dots "3" "11"); reflexivity. Defined.

(** ** White space and lines *)

Lemma all_chars_lstrip P s : PyStr.all_chars P s = true -> PyStr.all_chars P (PyStr.lstrip s) = true.
Proof.
  induction s as [|c s IH]; simpl; [easy|].
  intros H. destruct (PyStr.is_space c); [|exact H].
  apply andb_true_iff in H as [_ H]. auto.
Qed.

Lemma all_chars_rstrip P s : PyStr.all_chars P s = true -> PyStr.all_chars P (PyStr.rstrip s) = true.
Proof.
  induction s as [|c s IH]; simpl; [easy|].
  intros [Hc Hs]%andb_true_iff. specialize (IH Hs).
  destruct (PyStr.rstrip s) as [|a r].
  - destruct (PyStr.is_space c); simpl; [reflexivity | now rewrite Hc].
  - simpl in *. now rewrite Hc, IH.
Qed.

Lemma rstrip_idem s : PyStr.rstrip (PyStr.rstrip s) = PyStr.rstrip s.
Proof.
  induction s as [|c s IH]; simpl; [reflexivity|].
  destruct (PyStr.rstrip s) as [|a r] eqn:E.
  - destruct (PyStr.is_space c) eqn:Ec; simpl; [reflexivity | now rewrite Ec].
  - simpl in IH |- *. now rewrite IH.
Qed.

Lemma lstrip_head s :
  PyStr.lstrip s = "" \/
  exists c r, PyStr.lstrip s = String c r /\ PyStr.is_space c = false.
Proof.
  induction s as [|c s IH]; simpl; [now left|].
  destruct (PyStr.is_space c) eqn:Ec; [exact IH | right; eauto].
Qed.

Lemma rstrip_keeps_head c r :
  PyStr.is_space c = false -> exists r', PyStr.rstrip (String c r) = String c r'.
Proof.
  intros Hc. simpl. destruct (PyStr.rstrip r); [rewrite Hc|]; eauto.
Qed.

(** [s.strip().strip() == s.strip()]. *)
Lemma strip_idem s : PyStr.strip (PyStr.strip s) = PyStr.strip s.
Proof.
  unfold PyStr.strip. destruct (lstrip_head s) as [-> | (c & r & -> & Hc)]; [reflexivity|].
  destruct (rstrip_keeps_head c r Hc) as [r' Hr]. rewrite Hr. simpl PyStr.lstrip.
  rewrite Hc, <- Hr. apply rstrip_idem.
Qed.

Lemma string_length_append s t :
  String.length (s +:+ t) = String.length s + String.length t.
Proof. induction s as [|c s IH]; [reflexivity|]. rewrite append_cons. simpl. now rewrite IH. Qed.

Lemma string_append_assoc s t u : (s +:+ t) +:+ u = s +:+ t +:+ u.
Proof. induction s as [|c s IH]; [reflexivity|]. rewrite !append_cons. now rewrite IH. Qed.

Lemma join_length_bound sep l :
  List.length l <= S (String.length (PyStr.join (String sep "") l)).
Proof.
  induction l as [|x [|y l] IH]; simpl; [lia | lia |].
  simpl in IH. rewrite !string_length_append. simpl. lia.
Qed.

(** [sep.join(l).split(sep, k) == l] for pieces free of the separator and
    a bound that allows the cuts. *)
Lemma split_join sep l :
  l <> [] -> List.Forall (fun x => PyStr.contains_char sep x = false) l ->
  forall k, List.length l <= S k ->
    PyStr.split sep k (PyStr.join (String sep "") l) = l.
Proof.
  induction l as [|x [|y l] IH]; intros Hne Hl k Hk; [contradiction| |].
  - inversion Hl; subst. simpl. now apply split_no_sep.
  - inversion Hl as [|? ? Hx Hl']; subst. rewrite join_cons_cons.
    destruct k as [|k]; [simpl in Hk; lia|].
    change (x +:+ String sep "" +:+ PyStr.join (String sep "") (y :: l))
      with (x +:+ String sep (PyStr.join (String sep "") (y :: l))).
    rewrite (split_at_first _ _ _ _ Hx). f_equal.
    apply IH; [discriminate | assumption | simpl in *; lia].
Qed.

Lemma split_all_join sep l :
  l <> [] -> List.Forall (fun x => PyStr.contains_char sep x = false) l ->
  PyStr.split_all sep (PyStr.join (String sep "") l) = l.
Proof.
  intros Hne Hl. unfold PyStr.split_all. apply split_join; try assumption.
  apply join_length_bound.
Qed.

(** ** The exclude list *)

Lemma split_all_pieces sep s :
  List.Forall (fun x => PyStr.contains_char sep x = false) (PyStr.split_all sep s).
Proof. apply split_pieces_no_sep. reflexivity. Qed.

Lemma contains_char_all_chars c s :
  PyStr.contains_char c s = false <-> PyStr.all_chars (fun a => negb (Ascii.eqb a c)) s = true.
Proof.
  induction s as [|a s IH]; simpl; [easy|].
  rewrite orb_false_iff, andb_true_iff, IH, negb_true_iff. reflexivity.
Qed.

Lemma strip_keeps_free c s :
  PyStr.contains_char c s = false -> PyStr.contains_char c (PyStr.strip s) = false.
Proof.
  rewrite !contains_char_all_chars. intros H. now apply all_chars_rstrip, all_chars_lstrip.
Qed.

Lemma split_lines_pieces txt :
  List.Forall (fun x => PyStr.contains_char "010" x = false /\
                        PyStr.contains_char "013" x = false) (Ext.split_lines txt).
Proof.
  unfold Ext.split_lines. apply List.Forall_flat_map.
  pose proof (split_all_pieces "010" txt) as H.
  induction H as [|x l Hx Hl IH]; constructor; [|assumption].
  pose proof (split_all_pieces "013" x) as Hc.
  assert (Hn : List.Forall (fun y => PyStr.contains_char "010" y = false)
                           (PyStr.split_all "013" x)).
  { clear -Hx. unfold PyStr.split_all. generalize (String.length x) as k.
    induction x as [|c x IH]; intros k; simpl in *; [repeat constructor|].
    apply orb_false_iff in Hx as [Hc Hx]. specialize (IH Hx).
    destruct (Ascii.eqb c "013").
    - destruct k as [|k]; [repeat constructor; simpl; now rewrite Hc, Hx|].
      constructor; [reflexivity | apply IH].
    - specialize (IH k). destruct (PyStr.split "013" k x) as [|h t];
        [repeat constructor; simpl; now rewrite Hc|].
      inversion IH; subst. constructor; [simpl; now rewrite Hc | assumption]. }
  clear -Hc Hn. induction Hc as [|y l Hy Hl IH]; [constructor|].
  inversion Hn; subst. constructor; auto.
Qed.

Lemma read_excluded_clean txt :
  List.Forall (fun x => is_clean_name x = true) (Ext.read_excluded txt).
Proof.
  unfold Ext.read_excluded.
  pose proof (split_lines_pieces txt) as H.
  induction H as [|x l [Hx1 Hx2] Hl IH]; simpl; [constructor|].
  destruct (negb (PyStr.strip x =? "") && negb (PyStr.startswith_char "#" (PyStr.strip x)))
    eqn:E; [|assumption].
  constructor; [|assumption].
  unfold is_clean_name. rewrite E, strip_idem, String.eqb_refl.
  now rewrite (strip_keeps_free _ _ Hx1), (strip_keeps_free _ _ Hx2).
Qed.

Lemma read_excluded_join names :
  List.Forall (fun x => is_clean_name x = true) names ->
  Ext.read_excluded (PyStr.join Ext.newline names) = names /\
  Ext.read_excluded (PyStr.join Ext.newline names +:+ Ext.newline) = names.
Proof.
  intros Hc.
  assert (Hlines : forall l, List.Forall (fun x => is_clean_name x = true) l ->
            List.filter
              (fun line => negb (line =? "") && negb (PyStr.startswith_char "#" line))
              (List.map PyStr.strip (List.flat_map (PyStr.split_all "013") l)) = l).
  { intros l Hl. induction Hl as [|x l Hx Hl IH]; [reflexivity|].
    unfold is_clean_name in Hx.
    apply andb_true_iff in Hx as [[[Hx1 Hx2]%andb_true_iff Hx3]%andb_true_iff Hx4].
    apply negb_true_iff in Hx3, Hx4. apply String.eqb_eq in Hx2.
    simpl. unfold PyStr.split_all at 1. rewrite (split_no_sep _ _ _ Hx4). simpl.
    rewrite Hx2, Hx1. simpl. now rewrite IH. }
  assert (Hnl : List.Forall (fun x => PyStr.contains_char "010" x = false) names).
  { induction Hc as [|x l Hx Hl IH]; constructor; [|assumption].
    unfold is_clean_name in Hx.
    apply andb_true_iff in Hx as [[_ Hx3]%andb_true_iff _]. now apply negb_true_iff in Hx3. }
  unfold Ext.read_excluded, Ext.split_lines, Ext.newline. split.
  - destruct names as [|x l]; [reflexivity|].
    rewrite (split_all_join "010" (x :: l) ltac:(discriminate) Hnl). now apply Hlines.
  - destruct names as [|x l]; [reflexivity|].
    assert (E : PyStr.join (String "010" "") (x :: l) +:+ String "010" ""
                = PyStr.join (String "010" "") ((x :: l) ++ [""])).
    { clear. revert x. induction l as [|y l IH]; intros x; [reflexivity|].
      change ((x :: y :: l) ++ [""]) with (x :: (y :: l) ++ [""]).
      change ((y :: l) ++ [""]) with (y :: (l ++ [""])).
      rewrite !join_cons_cons. change (y :: l ++ [""]) with ((y :: l) ++ [""]).
      rewrite <- IH. now rewrite !string_append_assoc. }
    rewrite E, (split_all_join "010" ((x :: l) ++ [""]) ltac:(discriminate)).
    2:{ apply List.Forall_app. split; [assumption | repeat constructor]. }
    rewrite List.flat_map_app, List.map_app, List.filter_app, (Hlines _ Hc).
    apply (app_nil_r (x :: l)).
Qed.

(** ** The constructor, case by case *)

Lemma init_ok_inv a pre tg excl pe w e :
  Ext.init a pre tg excl pe w = Ok e ->
  exists link tail f,
    FS.readlink (nodes w) (PurePath.to_str (pre // ("opt/python/" +:+ tg))) = Ok link /\
    PyStr.startswith_char "/" link = true /\
    PyStr.split "-" 1 (PurePath.name (PurePath.parse link)) = ["cpython"; tail] /\
    Version.from_str tail = Ok (version e) /\
    FS.open_read (nodes w)
      (PurePath.to_str (default (module_dir w // "share/excludelist") excl)) = Ok f /\
    excluded e = Ext.read_excluded (text f) /\
    library_path e =
      [pre // match a with I686 => "lib" | _ => "lib64" end; pre // "usr/local/lib"] ++
      match FS.glob (nodes w) (PurePath.to_str (pre // "opt/_internal")) "openssl-" "" with
      | first :: _ => [PurePath.parse first // "lib"]
      | [] => []
      end /\
    match pe with
    | None => Ext.find_patchelf w = Ok (patchelf e)
    | Some p => p = patchelf e /\ FS.exists_ (nodes w) (PurePath.to_str p) = true
    end /\
    arch e = a /\ prefix e = pre /\ tag e = tg /\ excludelist e = excl /\
    impl e = CPYTHON /\ python_prefix e = pre // PyStr.drop_first link.
Proof.
  unfold Ext.init.
  destruct (FS.readlink _ _) as [link|x] eqn:Hl; [|discriminate]. cbn [rbind].
  destruct (PyStr.startswith_char "/" link) eqn:Hs; [|discriminate]. cbn [negb].
  destruct (PyStr.split "-" 1 _) as [|head [|tail [|? ?]]] eqn:Hsp; try discriminate.
  destruct (String.eqb_spec head "cpython") as [->|]; [|discriminate]. cbn [negb].
  destruct (Version.from_str tail) as [v|x] eqn:Hv; [|discriminate]. cbn [rbind].
  replace (match excl with Some p => p | None => module_dir w // "share/excludelist" end)
    with (default (module_dir w // "share/excludelist") excl) by (now destruct excl).
  destruct (FS.open_read _ _) as [f|x] eqn:Hf; [|discriminate]. cbn [rbind].
  destruct (match pe with None => _ | Some _ => _ end) as [p|x] eqn:Hp; [|discriminate].
  cbn [rbind]. intros [= <-]. exists link, tail, f. simpl.
  repeat split; try assumption; try reflexivity.
  - destruct a; destruct (FS.glob _ _ _ _); reflexivity.
  - destruct pe as [q|]; [|assumption].
    destruct (FS.exists_ (nodes w) (PurePath.to_str q)) eqn:Hq; [|discriminate].
    now injection Hp as <-.
Qed.

(** X3: the search path of a constructed extractor starts with the
    directory of the architecture ([lib64] for [aarch64] and [x86_64],
    [lib] for [i686]), then [usr/local/lib], each under the image root;
    after them comes at most one more directory, the [lib] of an OpenSSL
    installation matched by [opt/_internal/openssl-*]. *)
Theorem init_search_path (a : Arch) (pre : Path) (tg : string)
  (excl pe : option Path) (w : world) (e : Extractor) :
  Ext.init a pre tg excl pe w = Ok e ->
  exists rest,
    library_path e
      = (pre // match a with I686 => "lib" | _ => "lib64" end)
        :: (pre // "usr/local/lib") :: rest /\
    List.length rest <= 1 /\
    (forall d, d ∈ rest ->
       exists ssl,
         ssl ∈ FS.glob (nodes w) (PurePath.to_str (pre // "opt/_internal")) "openssl-" "" /\
         d = PurePath.parse ssl // "lib") /\
    (FS.glob (nodes w) (PurePath.to_str (pre // "opt/_internal")) "openssl-" "" = [] ->
     rest = []).
Proof.
  intros (link & tail & f & _ & _ & _ & _ & _ & _ & Hlp & _)%init_ok_inv.
  rewrite Hlp. eexists. split; [reflexivity|].
  destruct (FS.glob _ _ _ _) as [|first others]; simpl.
  - split; [lia|]. split; [intros d []%elem_of_nil | reflexivity].
  - split; [lia|]. split; [|discriminate].
    intros d ->%list_elem_of_singleton. exists first. split; [apply list_elem_of_here | reflexivity].
Qed.

Lemma init_search_path_witness :
  exists rest,
    library_path Sample.extractor
      = (PurePath.parse "img" // "lib64") :: (PurePath.parse "img" // "usr/local/lib") :: rest /\
    List.length rest <= 1 /\
    (forall d, d ∈ rest ->
       exists ssl,
         ssl ∈ FS.glob (nodes Sample.w_image)
                 (PurePath.to_str (PurePath.parse "img" // "opt/_internal")) "openssl-" "" /\
         d = PurePath.parse ssl // "lib") /\
    (FS.glob (nodes Sample.w_image)
       (PurePath.to_str (PurePath.parse "img" // "opt/_internal")) "openssl-" "" = [] ->
     rest = []).
Proof.
  apply (init_search_path X86_64 (PurePath.parse "img") "cp311-cp311" None None
           Sample.w_image Sample.extractor).
  vm_compute. reflexivity.
Defined.

(** X4: the [patchelf] of a constructed extractor exists. When none was
    given it is the first that exists among [/bin/patchelf], the [bin]
    directory of the package and [~/.local/bin], in this order; when one
    was given it is that one. *)
Theorem init_patchelf_exists (a : Arch) (pre : Path) (tg : string)
  (excl pe : option Path) (w : world) (e : Extractor) :
  Ext.init a pre tg excl pe w = Ok e ->
  FS.exists_ (nodes w) (PurePath.to_str (patchelf e)) = true /\
  (forall p, pe = Some p -> patchelf e = p) /\
  (pe = None ->
   exists before d after,
     [PurePath.parse "/bin"; module_dir w // "bin"; home w // ".local/bin"]
       = before ++ d :: after /\
     patchelf e = d // "patchelf" /\
     forall d', d' ∈ before ->
       FS.exists_ (nodes w) (PurePath.to_str (d' // "patchelf")) = false).
Proof.
  intros (link & tail & f & _ & _ & _ & _ & _ & _ & _ & Hp & _)%init_ok_inv.
  destruct pe as [p|].
  - destruct Hp as [<- Hx]. split; [assumption|]. split; [now intros ? [= <-] | discriminate].
  - unfold Ext.find_patchelf in Hp.
    destruct (List.find _ _) as [d|] eqn:Hf; [|discriminate]. injection Hp as <-.
    apply find_first in Hf as (before & after & Hl & Hd & Hb).
    split; [assumption|]. split; [discriminate|]. intros _.
    exists before, d, after. auto.
Qed.

Lemma init_patchelf_exists_witness :
  FS.exists_ (nodes Sample.w_image) (PurePath.to_str (patchelf Sample.extractor)) = true.
Proof.
  apply (init_patchelf_exists X86_64 (PurePath.parse "img") "cp311-cp311" None None
           Sample.w_image Sample.extractor).
  vm_compute. reflexivity.
Defined.

(** X5: the exclusion list of a constructed extractor holds the lines of
    the exclude file, stripped, without the empty lines and the comments:
    every entry is a non-empty text without white space around it, no
    [#] in front and no line end. And a file that holds clean names, one
    per line, with or without a final line end, gives exactly these
    names, in order. *)
Theorem init_excluded_lines (a : Arch) (pre : Path) (tg : string)
  (excl pe : option Path) (w : world) (e : Extractor) :
  Ext.init a pre tg excl pe w = Ok e ->
  List.Forall (fun x => is_clean_name x = true) (excluded e) /\
  (forall f names,
     FS.open_read (nodes w)
       (PurePath.to_str (default (module_dir w // "share/excludelist") excl)) = Ok f ->
     List.Forall (fun x => is_clean_name x = true) names ->
     text f = PyStr.join Ext.newline names \/
     text f = PyStr.join Ext.newline names +:+ Ext.newline ->
     excluded e = names).
Proof.
  intros (link & tail & f & _ & _ & _ & _ & Hf & He & _)%init_ok_inv.
  rewrite He. split; [apply read_excluded_clean|].
  intros f' names Hf' Hn Ht. rewrite Hf in Hf'. injection Hf' as <-.
  destruct (read_excluded_join names Hn) as [H1 H2].
  destruct Ht as [-> | ->]; assumption.
Qed.

Lemma init_excluded_lines_witness :
  List.Forall (fun x => is_clean_name x = true) (excluded Sample.extractor).
Proof.
  apply (init_excluded_lines X86_64 (PurePath.parse "img") "cp311-cp311" None None
           Sample.w_image Sample.extractor).
  vm_compute. reflexivity.
Defined.

(** X6: what the constructor makes of the interpreter link, whatever the
    rest of the tree: a relative link raises [NotImplementedError]; an
    absolute link whose last component holds no dash raises [ValueError]
    (the unpacking of the split fails); a last component [head-tail] with
    a head other than [cpython] raises [NotImplementedError]; and with
    the head [cpython] a tail that is no version raises [ValueError]. *)
Theorem init_rejects_layout (a : Arch) (pre : Path) (tg : string)
  (excl pe : option Path) (w : world) (link : string) :
  FS.readlink (nodes w) (PurePath.to_str (pre // ("opt/python/" +:+ tg))) = Ok link ->
  (PyStr.startswith_char "/" link = false ->
   Ext.init a pre tg excl pe w = Raise NotImplementedError) /\
  (PyStr.startswith_char "/" link = true ->
   PyStr.contains_char "-" (PurePath.name (PurePath.parse link)) = false ->
   Ext.init a pre tg excl pe w = Raise ValueError) /\
  (forall head tail,
     PyStr.startswith_char "/" link = true ->
     PurePath.name (PurePath.parse link) = head +:+ "-" +:+ tail ->
     PyStr.contains_char "-" head = false ->
     (head <> "cpython" -> Ext.init a pre tg excl pe w = Raise NotImplementedError) /\
     (head = "cpython" -> is_ok (Version.from_str tail) = false ->
      Ext.init a pre tg excl pe w = Raise ValueError)).
Proof.
  intros Hl. unfold Ext.init. rewrite Hl. cbn [rbind]. split; [|split].
  - now intros ->.
  - intros -> Hd. cbn [negb]. now rewrite (split_no_sep _ _ _ Hd).
  - intros head tail -> Hn Hd. cbn [negb]. rewrite Hn.
    change (head +:+ "-" +:+ tail) with (head +:+ String "-" tail).
    rewrite (split_at_first _ _ _ _ Hd), split_zero. split.
    + intros Hne. destruct (String.eqb_spec head "cpython"); [contradiction | reflexivity].
    + intros -> Hv. cbn. destruct (Version.from_str tail) as [v|x] eqn:E; [discriminate|].
      cbn [rbind]. now rewrite (from_str_raises_value_error _ _ E).
Qed.

Lemma init_rejects_layout_witness :
  Ext.init X86_64 (PurePath.parse "img") "cp311-cp311" None None Sample.w_link_bin
  = Raise ValueError.
Proof.
  apply (init_rejects_layout X86_64 (PurePath.parse "img") "cp311-cp311" None None
           Sample.w_link_bin "/opt/_internal/cpython-3.11.4/bin");
    vm_compute; reflexivity.
Defined.

(** ** [locate_library], failure included *)

(** ** The calls of the resolver *)

Section ResolverCallFacts.

Variable readelf : string -> result (list string).
Variable locate_library : string -> result Path.
Variable excluded : list string.

Local Abbreviation calls_post := (calls_post readelf locate_library excluded).
Local Abbreviation resolver_call := (resolver_call excluded).

Lemma calls_post_trans st st1 out evs :
  calls st1 = calls st ++ evs -> List.Forall resolver_call evs ->
  (forall kv, kv ∈ dependencies st1 ->
     kv ∈ dependencies st \/ is_ok (readelf (PurePath.to_str kv.2)) = true) ->
  calls_post st1 out -> calls_post st out.
Proof.
  intros Hc Hev Hd ((evs' & Hc' & Hev') & Hx & Hok). split; [|split].
  - exists (evs ++ evs'). split; [now rewrite Hc', Hc, app_assoc|].
    now apply List.Forall_app.
  - exact Hx.
  - intros Hout n p Hin. destruct (Hok Hout n p Hin) as [H | H]; [|now right].
    exact (Hd (n, p) H).
Qed.

Lemma visit_calls rec :
  (forall target st out, rec target st = Some out ->
     calls_post st out /\ (is_ok out.2 = true -> is_ok (readelf target) = true)) ->
  forall ms st out,
    visit locate_library excluded rec ms st = Some out -> calls_post st out.
Proof.
  intros Hrec ms. induction ms as [|m rest IH]; intros st out; simpl.
  - intros [= <-]. split; [|split].
    + exists []. split; [now rewrite app_nil_r | constructor].
    + discriminate.
    + intros _ n p Hin. now left.
  - destruct (negb (Dict.contains m (dependencies st)) && negb (str_in m excluded)) eqn:Hc;
      [|apply IH].
    apply andb_true_iff in Hc as [_ Hex%negb_true_iff].
    destruct (locate_library m) as [path|x] eqn:Hloc.
    2:{ intros [= <-]. split; [|split].
        - exists [EvLocate m]. split; [reflexivity | repeat constructor; exact Hex].
        - intros x' [= <-]. right. exists m. simpl. rewrite last_snoc. auto.
        - discriminate. }
    simpl.
    set (st2 := mkLdd (Dict.set m path (dependencies st)) (calls st ++ [EvLocate m])).
    destruct (rec (PurePath.to_str path) st2) as [[st3 r]|] eqn:Hr; [|discriminate].
    destruct (Hrec _ _ _ Hr) as [Hp3 Hread].
    intros Hrun.
    assert (Hpost2 : calls_post st2 out).
    { destruct r as [[]|x].
      - specialize (IH _ _ Hrun).
        destruct Hp3 as ((evs3 & Hc3 & Hev3) & _ & Hok3). simpl in *.
        apply (calls_post_trans st2 st3 out evs3 Hc3 Hev3); [|assumption].
        intros [n p] Hin. exact (Hok3 eq_refl n p Hin).
      - now injection Hrun as <-. }
    split; [|split].
    + destruct Hpost2 as ((evs & Hc & Hev) & _). exists ([EvLocate m] ++ evs).
      split; [rewrite Hc; simpl; now rewrite <- app_assoc|].
      constructor; [exact Hex | assumption].
    + apply Hpost2.
    + intros Hout n p Hin. destruct Hpost2 as (_ & _ & Hok).
      destruct (Hok Hout n p Hin) as [Hin2 | H]; [|now right].
      simpl in Hin2. apply elem_of_set in Hin2 as [[= -> ->] | Hin2]; [|now left].
      right. apply Hread.
      destruct r as [[]|x]; [reflexivity | injection Hrun as <-; discriminate].
Qed.

Lemma recurse_calls fuel :
  forall target st out,
    recurse readelf locate_library excluded fuel target st = Some out ->
    calls_post st out /\ (is_ok out.2 = true -> is_ok (readelf target) = true).
Proof.
  induction fuel as [|fuel IH]; intros target st out; simpl; [discriminate|].
  destruct (readelf target) as [ms|x] eqn:Hre.
  - intros Hrun. split; [|reflexivity].
    pose proof (visit_calls _ IH _ _ _ Hrun) as Hp.
    apply (calls_post_trans st (record_call (EvReadelf target) st) out [EvReadelf target]);
      [reflexivity | repeat constructor | intros kv Hin; now left | assumption].
  - intros [= <-]. split; [|discriminate]. split; [|split].
    + exists [EvReadelf target]. split; [reflexivity | repeat constructor].
    + intros x' [= <-]. left. exists target. simpl. rewrite last_snoc. auto.
    + discriminate.
Qed.

End ResolverCallFacts.

(** ** [ldd]: failures and calls *)

Lemma readelf_raises ns t x : Ext.readelf ns t = Raise x -> x = CalledProcessError.
Proof.
  unfold Ext.readelf. destruct (FS.open_read ns t) as [f|y]; [|now intros [= <-]].
  destruct (needed f); [discriminate | now intros [= <-]].
Qed.

Lemma locate_library_raises e ns m x :
  Ext.locate_library e ns m = Raise x -> x = FileNotFoundError.
Proof.
  unfold Ext.locate_library. destruct (List.find _ _); [discriminate | now intros [= <-]].
Qed.

Lemma ldd_calls_post e target w :
  exists st r,
    Ext.ldd e target w =
      (Ext.add_trace (calls st) w,
       match r with Ok _ => Ok (dependencies st) | Raise x => Raise x end) /\
    calls_post (Ext.readelf (nodes w)) (Ext.locate_library e (nodes w)) (excluded e)
               (mkLdd [] []) (st, r).
Proof.
  destruct (ldd_unfold e target w) as (st & r & Hrun & _ & Heq).
  exists st, r. split; [assumption|].
  unfold ldd_run in Hrun. now apply recurse_calls in Hrun as [H _].
Qed.


Lemma elem_of_keys_entry {V} (d : list (string * V)) k :
  k ∈ Dict.keys d -> exists v, (k, v) ∈ d.
Proof.
  unfold Dict.keys. intros ([k' v] & <- & Hin)%list_elem_of_In%List.in_map_iff.
  exists v. now apply list_elem_of_In.
Qed.

(** X10: no dependency is skipped in silence. When [ldd] returns
    normally, every name the target depends on (through names that are
    not excluded) is in the closure with the path [locate_library] gives,
    and [readelf] read the binary at that path. So when some such name is
    in no directory of the search path, [ldd] does not return normally. *)
Theorem ldd_resolves_all_or_fails (e : Extractor) (target : string) (w : world) :
  (forall deps n,
     (Ext.ldd e target w).2 = Ok deps ->
     depends_on (Ext.readelf (nodes w)) (Ext.locate_library e (nodes w)) (excluded e)
                target n ->
     exists p, (n, p) ∈ deps /\ Ext.locate_library e (nodes w) n = Ok p /\
               is_ok (Ext.readelf (nodes w) (PurePath.to_str p)) = true) /\
  (forall n,
     depends_on (Ext.readelf (nodes w)) (Ext.locate_library e (nodes w)) (excluded e)
                target n ->
     is_ok (Ext.locate_library e (nodes w) n) = false ->
     is_ok (Ext.ldd e target w).2 = false).
Proof.
  assert (H1 : forall deps n,
     (Ext.ldd e target w).2 = Ok deps ->
     depends_on (Ext.readelf (nodes w)) (Ext.locate_library e (nodes w)) (excluded e)
                target n ->
     exists p, (n, p) ∈ deps /\ Ext.locate_library e (nodes w) n = Ok p /\
               is_ok (Ext.readelf (nodes w) (PurePath.to_str p)) = true).
  { intros deps n Hd Hn.
    destruct (ldd_closure e target w deps Hd) as (_ & Hk & He).
    apply Hk, elem_of_keys_entry in Hn as [p Hp]. exists p.
    split; [assumption|]. split; [now apply He|].
    destruct (ldd_calls_post e target w) as (st & r & Heq & _ & _ & Hok).
    rewrite Heq in Hd. simpl in Hd. destruct r as [u|y]; [|discriminate].
    injection Hd as <-. destruct (Hok eq_refl n p Hp) as [[]%elem_of_nil | H]. exact H. }
  split; [exact H1|].
  intros n Hn Hl. destruct ((Ext.ldd e target w).2) as [deps|x] eqn:E; [|reflexivity].
  destruct (H1 deps n eq_refl Hn) as (p & _ & Hp & _). rewrite Hp in Hl. discriminate.
Qed.

Lemma ldd_resolves_all_or_fails_witness :
  (exists p,
     ("libcrypto.so.1.1", p) ∈
       [("libssl.so.1.1", PurePath.parse "img/usr/local/lib/libssl.so.1.1");
        ("libcrypto.so.1.1", PurePath.parse "img/usr/local/lib/libcrypto.so.1.1")] /\
     Ext.locate_library Sample.extractor (nodes Sample.w_image) "libcrypto.so.1.1" = Ok p /\
     is_ok (Ext.readelf (nodes Sample.w_image) (PurePath.to_str p)) = true) /\
  is_ok (Ext.ldd Sample.extractor "img/app" Sample.w_missing).2 = false.
Proof.
  split.
  2:{ apply (proj2 (ldd_resolves_all_or_fails Sample.extractor "img/app" Sample.w_missing)
               "libgone.so.1"); [|vm_compute; reflexivity].
      exists ["libgone.so.1"]. split; [vm_compute; reflexivity|].
      apply reach_direct; [apply list_elem_of_here | reflexivity]. }
  apply (proj1 (ldd_resolves_all_or_fails Sample.extractor
                  "img/usr/local/lib/libcrypto.so.1.1" Sample.w_image)).
  - vm_compute. reflexivity.
  - exists ["libssl.so.1.1"; "libc.so.6"]. split; [vm_compute; reflexivity|].
    apply (reach_through _ _ _ _ "libssl.so.1.1"
             (PurePath.parse "img/usr/local/lib/libssl.so.1.1") ["libcrypto.so.1.1"]).
    + apply list_elem_of_here.
    + reflexivity.
    + vm_compute. reflexivity.
    + vm_compute. reflexivity.
    + apply reach_direct; [apply list_elem_of_here | reflexivity].
Defined.

(** ** [set_rpath], case by case *)

Lemma set_rpath_cases target directive w :
  (Ext.set_rpath target directive w = (emit (EvPrintRpath target) w, Raise CalledProcessError) /\
   is_ok (Ext.print_rpath target w).2 = false) \/
  (exists q f,
     FS.lookup_follow (nodes w) target = Ok (q, Some (NFile f)) /\
     is_Some (needed f) /\
     ((PyStr.strip (rpath f) = directive /\
       Ext.set_rpath target directive w = (emit (EvPrintRpath target) w, Ok tt)) \/
      (PyStr.strip (rpath f) <> directive /\ FS.writable f = true /\
       Ext.set_rpath target directive w =
         (set_nodes (<[q := NFile (mkFile (FS.written_mode (st_mode f)) (needed f)
                                          directive (text f))]> (nodes w))
                    (emit (EvSetRpath target directive) (emit (EvPrintRpath target) w)),
          Ok tt)) \/
      (PyStr.strip (rpath f) <> directive /\ FS.writable f = false /\
       Ext.set_rpath target directive w =
         (emit (EvSetRpath target directive) (emit (EvPrintRpath target) w),
          Raise CalledProcessError)))).
Proof.
  rewrite set_rpath_unfold.
  unfold Ext.print_rpath, FS.query, tell, mbind, M_bind. simpl.
  destruct (FS.open_read (nodes w) target) as [f|x] eqn:Hf; [|left; now split].
  destruct (needed f) as [names|] eqn:Hn; [|left; now split].
  right. apply open_read_follow in Hf as [q Hl]. exists q, f.
  split; [assumption|]. split; [rewrite Hn; eauto|].
  destruct (String.eqb_spec (PyStr.strip (rpath f)) directive) as [He|Hne]; simpl;
    [left; now split|].
  right. unfold Ext.patch_rpath, FS.update, tell, mbind, M_bind. simpl. rewrite Hl.
  destruct f as [md nd rp tx]. simpl in *. subst nd.
  destruct (FS.writable _) eqn:Hw; simpl; [left | right]; now repeat split.
Qed.

Lemma print_rpath_after ns target q f w :
  nodes w = ns ->
  FS.lookup_follow ns target = Ok (q, Some (NFile f)) -> is_Some (needed f) ->
  (Ext.print_rpath target w).2 = Ok (rpath f +:+ Ext.newline).
Proof.
  intros <- Hl [names Hn]. unfold Ext.print_rpath, FS.query, tell, mbind, M_bind. simpl.
  unfold FS.open_read. rewrite Hl. destruct f as [md nd rp tx]. simpl in *. now subst nd.
Qed.





(** X13: a [set_rpath] that fails changes nothing, for a target that is
    a plain word and a directive the quotes hold whole. When it raises,
    the tree is as it was; and when the query itself fails (no such
    file, a directory, not an ELF binary), [set_rpath] raises and
    [patchelf --set-rpath] is not run: the query is the only call
    made. *)
Theorem set_rpath_failure (target directive : string) (w : world) :
  Sh.plain target = true -> Sh.quotable directive = true ->
  (is_ok (Ext.set_rpath target directive w).2 = false ->
   nodes (Ext.set_rpath target directive w).1 = nodes w) /\
  (is_ok (Ext.print_rpath target w).2 = false ->
   is_ok (Ext.set_rpath target directive w).2 = false /\
   (Ext.set_rpath target directive w).1 = emit (EvPrintRpath target) w).
Proof.
  intros _ _.
  destruct (set_rpath_cases target directive w)
    as [[-> Hq] | (q & f & Hl & Hn & Hc)].
  - split; [reflexivity | now split].
  - split.
    + destruct Hc as [[Hs ->] | [(Hs & Hw & ->) | (Hs & Hw & ->)]]; simpl;
        try discriminate. reflexivity.
    + rewrite (print_rpath_after (nodes w) target q f w eq_refl Hl Hn). discriminate.
Qed.

Lemma set_rpath_failure_witness :
  is_ok (Ext.set_rpath "out/bin/python" "$ORIGIN" Sample.w_binary).2 = false /\
  (Ext.set_rpath "out/bin/python" "$ORIGIN" Sample.w_binary).1
  = emit (EvPrintRpath "out/bin/python") Sample.w_binary.
Proof.
  apply (proj2 (set_rpath_failure "out/bin/python" "$ORIGIN" Sample.w_binary
                  ltac:(vm_compute; reflexivity) ltac:(vm_compute; reflexivity))).
  vm_compute. reflexivity.
Defined.

(** ** Copying a dependency: what changes *)

Lemma writable_testbit f : FS.writable f = Z.testbit (st_mode f) 7.
Proof. unfold FS.writable. rewrite land_IWUSR_zero. apply negb_involutive. Qed.

Lemma write_file_inv ns p f ns1 q :
  FS.write_file ns p f = Ok (ns1, q) ->
  exists o, FS.lookup_follow ns p = Ok (q, o) /\ o <> Some NDir /\
            (forall old, o = Some (NFile old) -> FS.writable old = true) /\
            ns1 = <[q := NFile f]> ns.
Proof.
  unfold FS.write_file.
  destruct (FS.lookup_follow ns p) as [[q' [[old| |t]|]]|x]; try discriminate.
  - destruct (FS.writable old) eqn:Hw; [|discriminate]. intros [= <- <-].
    eexists. repeat split; try discriminate. now intros ? [= <-].
  - destruct (FS.is_dir ns (FS.parent_str q')); [|discriminate].
    intros [= <- <-]. eexists. repeat split; discriminate.
  - destruct (FS.is_dir ns (FS.parent_str q')); [|discriminate].
    intros [= <- <-]. eexists. repeat split; discriminate.
Qed.

Lemma copy_cases src dst ns ns1 :
  FS.copy src dst ns = Ok ns1 ->
  exists f, FS.open_read ns src = Ok f /\
    ((FS.is_dir ns dst = true /\ FS.is_dir ns1 dst = true) \/
     (FS.is_dir ns dst = false /\
      exists q o, FS.lookup_follow ns dst = Ok (q, o) /\ o <> Some NDir /\
                  (forall old, o = Some (NFile old) -> FS.writable old = true) /\
                  ns1 = <[q := NFile (FS.copied f)]> ns)).
Proof.
  unfold FS.copy. destruct (FS.open_read ns src) as [f|x]; [|discriminate]. cbn [rbind].
  destruct (FS.write_file ns _ (FS.copied f)) as [[ns' q1]|x] eqn:Hw; [|discriminate].
  cbn [rbind]. intros [= <-]. exists f. split; [reflexivity|].
  apply write_file_inv in Hw as (o & Hl & Ho & Hwr & ->).
  destruct (FS.is_dir ns dst) eqn:Hd.
  - left. split; [reflexivity|].
    apply is_dir_follow in Hd as [qd Hqd]. apply is_dir_follow. exists qd.
    unfold FS.lookup_follow in *.
    destruct (resolve_node_at _ _ _ _ _ Hl) as [Hq1 Hnl].
    destruct (resolve_node_at _ _ _ _ _ Hqd) as [Hq2 _].
    assert (Hs : q1 <> "." /\ q1 <> "/") by (apply (node_at_not_special ns); congruence).
    rewrite (resolve_insert _ ns q1 (NFile (FS.copied f))
               ltac:(intros t; rewrite Hq1; apply Hnl)
               ltac:(discriminate) (proj1 Hs) (proj2 Hs) _ _ _ Hqd).
    destruct (decide (q1 = qd)) as [->|]; [congruence | reflexivity].
  - right. split; [reflexivity|]. exists q1, o. auto.
Qed.

Lemma copy_onto_file src dst ns f q o :
  FS.is_dir ns dst = false ->
  FS.open_read ns src = Ok f ->
  FS.lookup_follow ns dst = Ok (q, o) ->
  (exists old, o = Some (NFile old) /\ FS.writable old = true) ->
  FS.copy src dst ns = Ok (<[q := NFile (FS.copied f)]> ns).
Proof.
  intros Hd Hf Hl (old & -> & Hw). unfold FS.copy. rewrite Hd, Hf. cbn [rbind].
  unfold FS.write_file. rewrite Hl, Hw. reflexivity.
Qed.

Lemma bundled_bits f :
  Z.testbit (st_mode (bundled f)) 7 = true /\
  (forall i, i <> 7%Z -> i <> 10%Z -> i <> 11%Z ->
     Z.testbit (st_mode (bundled f)) i = Z.testbit (st_mode (FS.copied f)) i).
Proof.
  destruct (writable_mode_bits (st_mode (FS.copied f))) as (_ & _ & H7 & Ho).
  unfold bundled. cbv zeta.
  destruct (String.eqb (PyStr.strip (rpath f)) "$ORIGIN"); cbn [st_mode].
  - split; [exact H7 | intros i Hi _ _; now apply Ho].
  - split; [rewrite written_mode_bit by lia; exact H7|].
    intros i Hi H10 H11. rewrite written_mode_bit by assumption. now apply Ho.
Qed.

Lemma bundled_writable f : FS.writable (bundled f) = true.
Proof. rewrite writable_testbit. apply bundled_bits. Qed.

Lemma bundled_fields f :
  text (bundled f) = text f /\ needed (bundled f) = needed f /\
  PyStr.strip (rpath (bundled f)) = "$ORIGIN".
Proof.
  unfold bundled. cbv zeta.
  destruct (String.eqb_spec (PyStr.strip (rpath f)) "$ORIGIN"); cbn [text needed rpath];
    auto.
Qed.

(** What follows the copy in the body of the loop. *)
Lemma copy_dependency_after_copy libdir name src w ns1 q f :
  FS.copy (PurePath.to_str src) (PurePath.to_str (libdir // name)) (nodes w) = Ok ns1 ->
  FS.lookup_follow ns1 (PurePath.to_str (libdir // name))
    = Ok (q, Some (NFile (FS.copied f))) ->
  (is_Some (needed f) ->
   (Ext.copy_dependency libdir (name, src) w).2 = Ok tt /\
   nodes (Ext.copy_dependency libdir (name, src) w).1 = <[q := NFile (bundled f)]> ns1) /\
  (needed f = None ->
   (Ext.copy_dependency libdir (name, src) w).2 = Raise CalledProcessError).
Proof.
  intros Hc Hq. rewrite copy_dependency_unfold. cbv zeta.
  set (dst := PurePath.to_str (libdir // name)) in *. rewrite Hc.
  unfold FS.stat_mode. rewrite Hq.
  set (m0 := st_mode (FS.copied f)).
  destruct (writable_mode_bits m0) as (Hset & Hunset & Hbit & Hothers).
  assert (Hgen : forall w1 F,
            FS.lookup_follow (nodes w1) dst = Ok (q, Some (NFile F)) ->
            needed F = needed f -> rpath F = rpath f -> text F = text f ->
            st_mode F = default m0 (Ext.writable_mode m0) ->
            (is_Some (needed f) ->
             (Ext.set_rpath dst "$ORIGIN" w1).2 = Ok tt /\
             nodes (Ext.set_rpath dst "$ORIGIN" w1).1 = <[q := NFile (bundled f)]> (nodes w1)) /\
            (needed f = None ->
             (Ext.set_rpath dst "$ORIGIN" w1).2 = Raise CalledProcessError)).
  { intros w1 F Hl HnF HrF HtF HmF.
    assert (HF : F = mkFile (default m0 (Ext.writable_mode m0)) (needed f) (rpath f) (text f))
      by (destruct F; simpl in *; congruence).
    assert (HwF : FS.writable F = true) by (rewrite writable_testbit, HmF; exact Hbit).
    split.
    - intros Hn.
      destruct (set_rpath_cases dst "$ORIGIN" w1)
        as [[_ Hq'] | (q' & F' & Hl' & _ & Hcase)].
      { rewrite (print_rpath_after (nodes w1) dst q F w1 eq_refl Hl) in Hq';
          [discriminate | now rewrite HnF]. }
      rewrite Hl in Hl'. injection Hl' as <- <-.
      destruct Hcase as [[Hs ->] | [(Hs & _ & ->) | (_ & Hw' & _)]]; [| |congruence].
      + simpl. split; [reflexivity|]. symmetry. apply insert_id.
        unfold FS.lookup_follow in Hl. apply resolve_node_at in Hl as [Hl _].
        apply node_at_file in Hl. rewrite Hl. do 2 f_equal. rewrite HF. unfold bundled.
        fold m0. rewrite HrF in Hs. cbv zeta. rewrite Hs, String.eqb_refl. reflexivity.
      + simpl. split; [reflexivity|]. do 2 f_equal. unfold bundled. fold m0. cbv zeta.
        rewrite HrF in Hs. destruct (String.eqb_spec (PyStr.strip (rpath f)) "$ORIGIN");
          [contradiction|]. now rewrite HmF, HnF, HtF.
    - intros Hn. rewrite set_rpath_unfold. unfold FS.open_read. rewrite Hl.
      now rewrite HnF, Hn. }
  destruct (Ext.writable_mode m0) as [mode'|] eqn:Hwm.
  - assert (Hm : mode' = Z.lor m0 FS.S_IWUSR).
    { destruct (Z.testbit m0 7) eqn:E;
        [discriminate (Hset eq_refl) | now injection (Hunset eq_refl)]. }
    destruct (chmod_spec ns1 dst q _ mode' Hq) as (ns2 & Hch & Hq2).
    rewrite Hch.
    assert (Hns2 : ns2 = <[q := NFile (mkFile (Z.lor FS.S_IFREG (FS.S_IMODE mode'))
                                             (needed (FS.copied f)) (rpath (FS.copied f))
                                             (text (FS.copied f)))]> ns1).
    { unfold FS.chmod in Hch. rewrite Hq in Hch. now injection Hch as <-. }
    destruct (Hgen (set_nodes ns2 (set_nodes ns1 w)) _ Hq2 eq_refl eq_refl eq_refl) as [H1 H2].
    { simpl. rewrite Hm. unfold m0, FS.copied. simpl. apply chmod_granted. }
    split; [|exact H2].
    intros Hn. destruct (H1 Hn) as [Hr Hnodes]. split; [assumption|].
    rewrite Hnodes. simpl. rewrite Hns2. apply insert_insert_eq.
  - exact (Hgen (set_nodes ns1 w) (FS.copied f) Hq eq_refl eq_refl eq_refl eq_refl).
Qed.

Lemma copy_dependency_inv libdir name src w :
  (Ext.copy_dependency libdir (name, src) w).2 = Ok tt ->
  exists f q o,
    FS.open_read (nodes w) (PurePath.to_str src) = Ok f /\
    is_Some (needed f) /\
    FS.is_dir (nodes w) (PurePath.to_str (libdir // name)) = false /\
    FS.lookup_follow (nodes w) (PurePath.to_str (libdir // name)) = Ok (q, o) /\
    o <> Some NDir /\
    nodes (Ext.copy_dependency libdir (name, src) w).1
    = <[q := NFile (bundled f)]> (nodes w).
Proof.
  intros Hok. pose proof Hok as Hok'. rewrite copy_dependency_unfold in Hok'. cbv zeta in Hok'.
  set (dst := PurePath.to_str (libdir // name)) in *.
  destruct (FS.copy _ dst (nodes w)) as [ns1|x] eqn:Hc; [|discriminate].
  destruct (copy_cases _ _ _ _ Hc) as (f & Hf & [[_ Hd] | (Hd & q & o & Hl & Ho & _ & Hns1)]).
  - exfalso. pose proof Hd as [qd Hqd]%is_dir_follow.
    unfold FS.stat_mode in Hok'. rewrite Hqd in Hok'.
    change (Ext.writable_mode 16877) with (@None Z) in Hok'. cbv iota in Hok'.
    now rewrite (set_rpath_on_dir dst "$ORIGIN" (set_nodes ns1 w) Hd) in Hok'.
  - assert (Hq1 : FS.lookup_follow ns1 dst = Ok (q, Some (NFile (FS.copied f))))
      by (rewrite Hns1; now apply (lookup_follow_insert_end _ _ _ o)).
    destruct (copy_dependency_after_copy libdir name src w ns1 q f Hc Hq1) as [H1 H2].
    destruct (needed f) as [names|] eqn:Hn.
    + destruct (H1 ltac:(eauto)) as [_ Hnodes].
      exists f, q, o. rewrite Hn. repeat split; eauto.
      rewrite Hnodes, Hns1. apply insert_insert_eq.
    + rewrite (H2 eq_refl) in Hok. discriminate.
Qed.

(** X14: when the copy of a dependency goes through, to a destination
    [libdir / name] that is a plain word, exactly one node of the tree
    has changed: the one the destination leads to. It now holds a file
    with the content and the NEEDED names of the source, writable by its
    owner, the other permission bits being those of the copy (the set-id
    bits apart), with a directive that strips to [$ORIGIN]; the source
    is an ELF binary. Every other path, in the image or in the bundle,
    keeps its node. *)
Theorem copy_dependency_effect (libdir : Path) (name : string) (src : Path) (w : world) :
  Sh.plain (PurePath.to_str (libdir // name)) = true ->
  (Ext.copy_dependency libdir (name, src) w).2 = Ok tt ->
  exists f q f',
    FS.open_read (nodes w) (PurePath.to_str src) = Ok f /\
    is_Some (needed f) /\
    (exists o, FS.lookup_follow (nodes w) (PurePath.to_str (libdir // name)) = Ok (q, o)) /\
    (forall p, p <> q ->
       nodes (Ext.copy_dependency libdir (name, src) w).1 !! p = nodes w !! p) /\
    FS.open_read (nodes (Ext.copy_dependency libdir (name, src) w).1)
                 (PurePath.to_str (libdir // name)) = Ok f' /\
    text f' = text f /\ needed f' = needed f /\
    PyStr.strip (rpath f') = "$ORIGIN" /\
    Z.testbit (st_mode f') 7 = true /\
    (forall i, i <> 7%Z -> i <> 10%Z -> i <> 11%Z ->
       Z.testbit (st_mode f') i = Z.testbit (st_mode (FS.copied f)) i).
Proof.
  intros _ (f & q & o & Hf & Hn & _ & Hl & Ho & Hnodes)%copy_dependency_inv.
  exists f, q, (bundled f). rewrite Hnodes.
  split; [assumption|]. split; [assumption|]. split; [eauto|].
  split; [intros p Hp; now apply lookup_insert_ne|].
  split; [apply open_read_follow; exists q; now apply (lookup_follow_insert_end _ _ _ o)|].
  destruct (bundled_fields f) as (H1 & H2 & H3). destruct (bundled_bits f) as [H4 H5].
  auto 10.
Qed.

Lemma copy_dependency_effect_witness :
  exists f q f',
    FS.open_read (nodes Sample.w_existing) "img/lib64/libz.so.1" = Ok f /\
    is_Some (needed f) /\
    (exists o, FS.lookup_follow (nodes Sample.w_existing)
                 (PurePath.to_str (PurePath.parse "out" // "libz.so.1")) = Ok (q, o)) /\
    (forall p, p <> q ->
       nodes (Ext.copy_dependency (PurePath.parse "out")
                ("libz.so.1", PurePath.parse "img/lib64/libz.so.1") Sample.w_existing).1 !! p
       = nodes Sample.w_existing !! p) /\
    FS.open_read
      (nodes (Ext.copy_dependency (PurePath.parse "out")
                ("libz.so.1", PurePath.parse "img/lib64/libz.so.1") Sample.w_existing).1)
      (PurePath.to_str (PurePath.parse "out" // "libz.so.1")) = Ok f' /\
    text f' = text f /\ needed f' = needed f /\
    PyStr.strip (rpath f') = "$ORIGIN" /\
    Z.testbit (st_mode f') 7 = true /\
    (forall i, i <> 7%Z -> i <> 10%Z -> i <> 11%Z ->
       Z.testbit (st_mode f') i = Z.testbit (st_mode (FS.copied f)) i).
Proof.
  apply (copy_dependency_effect (PurePath.parse "out") "libz.so.1"
           (PurePath.parse "img/lib64/libz.so.1") Sample.w_existing);
    vm_compute; reflexivity.
Defined.

(** X15: the copy of a dependency can be made again. After a normal
    return, when the source is not the file the destination leads to, a
    second run of the same copy returns normally too (the file left by
    the first run is writable, so it can be overwritten) and leaves the
    tree as the first run left it. *)
Theorem copy_dependency_again (libdir : Path) (name : string) (src : Path) (w : world) :
  (Ext.copy_dependency libdir (name, src) w).2 = Ok tt ->
  (forall qs qd os od,
     FS.lookup_follow (nodes w) (PurePath.to_str src) = Ok (qs, os) ->
     FS.lookup_follow (nodes w) (PurePath.to_str (libdir // name)) = Ok (qd, od) ->
     qs <> qd) ->
  (Ext.copy_dependency libdir (name, src)
     (Ext.copy_dependency libdir (name, src) w).1).2 = Ok tt /\
  nodes (Ext.copy_dependency libdir (name, src)
           (Ext.copy_dependency libdir (name, src) w).1).1
  = nodes (Ext.copy_dependency libdir (name, src) w).1.
Proof.
  intros Hok Hdistinct.
  destruct (copy_dependency_inv _ _ _ _ Hok) as (f & q & o & Hf & Hn & Hd & Hl & Ho & Hnodes).
  set (w1 := (Ext.copy_dependency libdir (name, src) w).1) in *.
  set (dst := PurePath.to_str (libdir // name)) in *.
  assert (Hl1 : FS.lookup_follow (nodes w1) dst = Ok (q, Some (NFile (bundled f))))
    by (rewrite Hnodes; now apply (lookup_follow_insert_end _ _ _ o)).
  assert (Hd1 : FS.is_dir (nodes w1) dst = false)
    by (unfold FS.is_dir; now rewrite Hl1).
  assert (Hf1 : FS.open_read (nodes w1) (PurePath.to_str src) = Ok f).
  { apply open_read_follow in Hf as [qs Hqs]. apply open_read_follow. exists qs.
    pose proof (Hdistinct _ _ _ _ Hqs Hl) as Hne.
    unfold FS.lookup_follow in *. rewrite Hnodes.
    destruct (resolve_node_at _ _ _ _ _ Hl) as [Hq Hnl].
    assert (Hs : q <> "." /\ q <> "/") by (apply (node_at_not_special (nodes w)); congruence).
    rewrite (resolve_insert _ (nodes w) q (NFile (bundled f))
               ltac:(intros t; rewrite Hq; apply Hnl)
               ltac:(discriminate) (proj1 Hs) (proj2 Hs) _ _ _ Hqs).
    destruct (decide (q = qs)) as [->|]; [contradiction | reflexivity]. }
  assert (Hc1 : FS.copy (PurePath.to_str src) dst (nodes w1)
                = Ok (<[q := NFile (FS.copied f)]> (nodes w1))).
  { apply (copy_onto_file _ _ _ _ _ _ Hd1 Hf1 Hl1).
    exists (bundled f). split; [reflexivity | apply bundled_writable]. }
  assert (Hq1 : FS.lookup_follow (<[q := NFile (FS.copied f)]> (nodes w1)) dst
                = Ok (q, Some (NFile (FS.copied f))))
    by (apply (lookup_follow_insert_end _ _ _ _ _ Hl1); discriminate).
  destruct (copy_dependency_after_copy libdir name src w1 _ q f Hc1 Hq1) as [H1 _].
  destruct (H1 Hn) as [Hr Hnodes2]. split; [assumption|].
  rewrite Hnodes2, insert_insert_eq, Hnodes. now rewrite insert_insert_eq.
Qed.

Lemma copy_dependency_again_witness :
  (Ext.copy_dependency (PurePath.parse "out")
     ("libz.so.1", PurePath.parse "img/lib64/libz.so.1")
     (Ext.copy_dependency (PurePath.parse "out")
        ("libz.so.1", PurePath.parse "img/lib64/libz.so.1") Sample.w_existing).1).2 = Ok tt /\
  nodes (Ext.copy_dependency (PurePath.parse "out")
           ("libz.so.1", PurePath.parse "img/lib64/libz.so.1")
           (Ext.copy_dependency (PurePath.parse "out")
              ("libz.so.1", PurePath.parse "img/lib64/libz.so.1") Sample.w_existing).1).1
  = nodes (Ext.copy_dependency (PurePath.parse "out")
             ("libz.so.1", PurePath.parse "img/lib64/libz.so.1") Sample.w_existing).1.
Proof.
  apply (copy_dependency_again (PurePath.parse "out") "libz.so.1"
           (PurePath.parse "img/lib64/libz.so.1") Sample.w_existing).
  - vm_compute. reflexivity.
  - intros qs qd os od Hs Hd. vm_compute in Hs, Hd.
    injection Hs as <- _. injection Hd as <- _. discriminate.
Defined.

(** ** The command line and the first step of [extract] *)

(** X16: the command line accepts for [--arch] exactly the texts
    [str(a)] of the members of [Arch], and gives back the member:
    [Arch[str(a).upper()]] is [a]. No accepted text raises [KeyError];
    every other text is rejected by the parser. *)
Theorem parse_arch_inverse (arg : string) :
  (forall a, Cli.parse_arch arg = Cli.Parsed a <-> arg = Cli.arch_str a) /\
  Cli.parse_arch arg <> Cli.KeyError /\
  (Cli.parse_arch arg = Cli.UsageError <-> forall a, arg <> Cli.arch_str a).
Proof.
  assert (Hin : str_in arg (List.map Cli.arch_str Cli.members) = true <->
                exists a, arg = Cli.arch_str a).
  { unfold str_in. rewrite List.existsb_exists. split.
    - intros (x & Hx & ->%String.eqb_eq). simpl in Hx.
      destruct Hx as [<- | [<- | [<- | []]]]; [exists AARCH64 | exists I686 | exists X86_64];
        reflexivity.
    - intros [a ->]. exists (Cli.arch_str a). split; [|apply String.eqb_refl].
      destruct a; simpl; auto. }
  assert (Hinj : forall a b, Cli.arch_str a = Cli.arch_str b -> a = b)
    by (intros [] []; vm_compute; congruence).
  unfold Cli.parse_arch.
  destruct (str_in arg (List.map Cli.arch_str Cli.members)) eqn:E.
  - destruct Hin as [Hin _]. destruct (Hin eq_refl) as [a0 ->].
    assert (Hup : Cli.arch_of_name (Cli.upper (Cli.arch_str a0)) = Some a0)
      by (destruct a0; reflexivity).
    rewrite Hup. split; [|split].
    + intros a. split; [now intros [= ->] | intros ->%Hinj; reflexivity].
    + discriminate.
    + split; [discriminate | intros H; now specialize (H a0)].
  - split; [|split].
    + intros a. split; [discriminate|]. intros ->.
      assert (false = true) by (apply Hin; eauto). discriminate.
    + discriminate.
    + split; [|reflexivity]. intros _ a ->.
      assert (false = true) by (apply Hin; eauto). discriminate.
Qed.

(** *** The exceptions of [extract] *)

Section Exceptions.

Local Abbreviation io :=
  ([FileNotFoundError; FileExistsError; NotADirectoryError; IsADirectoryError;
    PermissionError; OSError; CalledProcessError] : list exn).
Local Abbreviation sound r := (forall x : exn, r = Raise x -> x ∈ io).
Local Abbreviation safe m := (forall (w : world) (x : exn), (m w).2 = Raise x -> x ∈ io).

Local Ltac one_of := solve [repeat constructor].
Local Ltac cases :=
  repeat match goal with
         | |- context [match ?X with _ => _ end] => destruct X eqn:?
         end.

Lemma resolve_sound fuel ns : forall p, sound (FS.resolve fuel ns p).
Proof.
  induction fuel as [|fuel IH]; intros p x; simpl;
    destruct (FS.node_at ns p) as [[| |t]|]; try discriminate.
  - intros [= <-]. one_of.
  - apply IH.
Qed.

Lemma lookup_follow_sound ns p : sound (FS.lookup_follow ns p).
Proof. apply resolve_sound. Qed.

Lemma open_read_sound ns p : sound (FS.open_read ns p).
Proof.
  intros x. unfold FS.open_read.
  destruct (FS.lookup_follow ns p) as [[q [[| |t]|]]|y] eqn:E; intros [= <-];
    try one_of. now apply (lookup_follow_sound ns p).
Qed.

Lemma write_file_sound ns p f : sound (FS.write_file ns p f).
Proof.
  intros x. unfold FS.write_file.
  destruct (FS.lookup_follow ns p) as [[q [[| |t]|]]|y] eqn:E;
    try destruct (FS.writable _); try destruct (FS.is_dir ns _);
    intros [= <-]; try one_of.
  now apply (lookup_follow_sound ns p).
Qed.

Lemma copy_sound src dst ns : sound (FS.copy src dst ns).
Proof.
  intros x. unfold FS.copy, rbind.
  destruct (FS.open_read ns src) as [f|y] eqn:Ef.
  - destruct (FS.write_file ns _ (FS.copied f)) as [[ns' q]|y] eqn:Ew; intros [= <-].
    now apply (write_file_sound _ _ _ _ Ew).
  - intros [= <-]. now apply (open_read_sound _ _ _ Ef).
Qed.

Lemma stat_mode_sound ns p : sound (FS.stat_mode ns p).
Proof.
  intros x. unfold FS.stat_mode.
  destruct (FS.lookup_follow ns p) as [[q [[| |t]|]]|y] eqn:E; intros [= <-];
    try one_of. now apply (lookup_follow_sound ns p).
Qed.

Lemma chmod_sound p mode ns : sound (FS.chmod p mode ns).
Proof.
  intros x. unfold FS.chmod.
  destruct (FS.lookup_follow ns p) as [[q [[| |t]|]]|y] eqn:E; intros [= <-];
    try one_of. now apply (lookup_follow_sound ns p).
Qed.

Lemma mkdir_step_sound on_file acc d :
  on_file ∈ io -> sound acc -> sound (FS.mkdir_step on_file acc d).
Proof.
  intros Hf Hacc x. unfold FS.mkdir_step, rbind. destruct acc as [ns|y]; [|apply Hacc].
  destruct (FS.is_dir ns d); [discriminate|].
  destruct (FS.node_at ns d) as [[| |t]|]; intros [= <-]; try one_of. assumption.
Qed.

Lemma makedirs_sound p ns : sound (FS.makedirs p ns).
Proof.
  unfold FS.makedirs. apply mkdir_step_sound; [one_of|].
  generalize (FS.ancestors (PurePath.parse p)). intros l.
  assert (H : forall acc, sound acc ->
                sound (List.fold_left (FS.mkdir_step NotADirectoryError) l acc)).
  { induction l as [|d l IH]; intros acc Hacc; [exact Hacc|].
    apply IH, mkdir_step_sound; [one_of | exact Hacc]. }
  apply H. discriminate.
Qed.

Lemma unlink_sound p ns : sound (FS.unlink_missing_ok p ns).
Proof.
  intros x. unfold FS.unlink_missing_ok.
  destruct (FS.node_at ns p) as [[| |t]|]; intros [= <-]. one_of.
Qed.

Lemma symlink_sound p target ns : sound (FS.symlink_to p target ns).
Proof.
  intros x. unfold FS.symlink_to.
  destruct (FS.node_at ns p); [|destruct (FS.is_dir ns _)]; intros [= <-]; one_of.
Qed.

Lemma copytree_sound src dst ns : sound (FS.copytree src dst ns).2.
Proof.
  intros x. unfold FS.copytree.
  destruct (negb (FS.is_dir ns src)).
  { destruct (FS.exists_ ns src); intros [= <-]; one_of. }
  destruct (FS.makedirs dst ns) as [ns1|y] eqn:Em.
  2:{ intros [= <-]. now apply (makedirs_sound _ _ _ Em). }
  destruct (List.fold_left _ _ (ns1, false)) as [ns2 f2].
  destruct (List.fold_left _ _ (ns2, f2)) as [ns3 f3].
  destruct f3; intros [= <-]. one_of.
Qed.

Lemma safe_ret {A} (a : A) : safe (mret a : M A).
Proof. intros w x. discriminate. Qed.

Lemma safe_bind {A B} (m : M A) (k : A -> M B) :
  safe m -> (forall a, safe (k a)) -> safe (m ≫= k).
Proof.
  intros Hm Hk w x. unfold mbind, M_bind.
  specialize (Hm w). destruct (m w) as [w1 [a|y]]; [apply Hk|].
  intros [= <-]. now apply Hm.
Qed.

Lemma safe_update f : (forall ns, sound (f ns)) -> safe (FS.update f).
Proof.
  intros Hf w x. unfold FS.update. specialize (Hf (nodes w)).
  destruct (f (nodes w)); [discriminate|]. intros [= <-]. now apply Hf.
Qed.

Lemma safe_query {A} (f : gmap string node -> result A) :
  (forall ns, sound (f ns)) -> safe (FS.query f).
Proof. intros Hf w x. apply Hf. Qed.

Lemma safe_for_each {A} (body : A -> M unit) xs :
  (forall a, safe (body a)) -> safe (for_each body xs).
Proof.
  intros Hb. induction xs as [|a xs IH]; [apply safe_ret|].
  apply safe_bind; [apply Hb | intros _; apply IH].
Qed.

Lemma safe_copytree src dst : safe (FS.run_copytree src dst).
Proof.
  intros w x. unfold FS.run_copytree.
  pose proof (copytree_sound src dst (nodes w) x) as H.
  destruct (FS.copytree src dst (nodes w)). exact H.
Qed.

Lemma safe_ldd e target : safe (Ext.ldd e target).
Proof.
  intros w x. destruct (ldd_calls_post e target w) as (st & r & -> & _ & Hr & _).
  destruct r as [u|y]; [discriminate|]. intros [= <-].
  destruct (Hr y eq_refl) as [(t & ->%readelf_raises & _) | (m & ->%locate_library_raises & _)];
    one_of.
Qed.

Lemma safe_map_modules e modules : forall libs, safe (Ext.map_modules e modules libs).
Proof.
  induction modules as [|m rest IH]; intros libs; [apply safe_ret|].
  apply safe_bind; [apply safe_ldd | intros l; apply IH].
Qed.

Lemma safe_set_rpath target directive : safe (Ext.set_rpath target directive).
Proof.
  intros w x.
  destruct (set_rpath_cases target directive w)
    as [[-> _] | (q & f & _ & _ & [[_ ->] | [(_ & _ & ->) | (_ & _ & ->)]])];
    intros [= <-]; one_of.
Qed.

Lemma safe_relpath {B} path start (k : string -> M B) :
  (forall dst, safe (k dst)) -> safe (Ext.relpath path start ≫= k).
Proof. intros Hk. apply safe_bind; [|exact Hk]. intros w x. discriminate. Qed.

Lemma safe_copy_dependency libdir entry : safe (Ext.copy_dependency libdir entry).
Proof.
  destruct entry as [name src]. unfold Ext.copy_dependency.
  apply safe_bind; [apply safe_update; intros ns; apply copy_sound | intros _].
  apply safe_bind; [apply safe_query; intros ns; apply stat_mode_sound | intros mode].
  apply safe_bind; [|intros _; apply safe_set_rpath].
  destruct (Ext.writable_mode mode); [|apply safe_ret].
  apply safe_update. intros ns. apply chmod_sound.
Qed.

(** What follows the search of the include directory in [extract]. *)
Lemma extract_cases e destination w :
  match FS.glob (nodes w) (PurePath.to_str (python_prefix e // "include")) "" "" with
  | [] => Ext.extract e destination w = (w, Raise NotImplementedError)
  | _ :: _ => forall x, (Ext.extract e destination w).2 = Raise x -> x ∈ io
  end.
Proof.
  destruct (FS.glob (nodes w) _ "" "") as [|first rest] eqn:E.
  { unfold Ext.extract, mbind, M_bind, FS.query. now rewrite E. }
  unfold Ext.extract. cbv zeta.
  unfold mbind at 1, M_bind at 1, FS.query at 1. rewrite E.
  match goal with |- forall x, (?m w).2 = _ -> _ => assert (H : safe m); [|apply H] end.
  apply safe_bind; [apply safe_update; intros ns; apply makedirs_sound | intros _].
  apply safe_bind; [apply safe_update; intros ns; apply copy_sound | intros _].
  apply safe_bind; [apply safe_update; intros ns; apply unlink_sound | intros _].
  apply safe_bind; [apply safe_update; intros ns; apply symlink_sound | intros _].
  apply safe_bind; [apply safe_update; intros ns; apply unlink_sound | intros _].
  apply safe_bind; [apply safe_update; intros ns; apply symlink_sound | intros _].
  apply safe_bind; [apply safe_for_each; intros folder; apply safe_copytree | intros _].
  apply safe_bind.
  { unfold Ext.map_dependencies.
    apply safe_bind; [apply safe_ldd | intros libs].
    apply safe_bind; [apply safe_query; intros ns x; discriminate | intros modules].
    apply safe_map_modules. }
  intros libs.
  apply safe_bind; [apply safe_for_each; intros entry; apply safe_copy_dependency | intros _].
  apply safe_bind; [apply safe_query; intros ns x; discriminate | intros modules].
  apply safe_bind.
  { apply safe_for_each. intros module. unfold Ext.patch_module.
    apply safe_relpath. intros dst. apply safe_set_rpath. }
  intros _. apply safe_relpath. intros dst. apply safe_set_rpath.
Qed.

End Exceptions.

(** X17: when [extract] refuses an installation. For an installation
    prefix that [glob] takes as it is (no pattern character in it) and a
    version whose text is below the bound on digits, [extract] raises
    [NotImplementedError] exactly when [include/*] matches nothing under
    the prefix; and then nothing has been created, copied or called. *)
Theorem extract_unsupported_iff (e : Extractor) (destination : Path) (w : world) :
  glob_literal (PurePath.to_str (python_prefix e // "include")) = true ->
  String.length (Version.short (version e)) <= 4300 ->
  let include := FS.glob (nodes w) (PurePath.to_str (python_prefix e // "include")) "" "" in
  ((Ext.extract e destination w).2 = Raise NotImplementedError <-> include = []) /\
  (include = [] -> (Ext.extract e destination w).1 = w).
Proof.
  intros _ _ include. pose proof (extract_cases e destination w) as H. fold include in H.
  destruct include as [|first rest].
  - rewrite H. split; [split|]; reflexivity.
  - split; [|discriminate]. split; [|discriminate].
    intros Hx. apply H in Hx.
    repeat (apply elem_of_cons in Hx as [Hx | Hx]; [discriminate|]).
    now apply elem_of_nil in Hx.
Qed.

Lemma extract_unsupported_iff_witness :
  (Ext.extract Sample.extractor (PurePath.parse "out") Sample.w_nested).1 = Sample.w_nested.
Proof.
  apply (extract_unsupported_iff Sample.extractor (PurePath.parse "out") Sample.w_nested);
    [vm_compute; reflexivity | vm_compute; lia | vm_compute; reflexivity].
Defined.

(** ** The directives of a bundle, exactly *)

Section PathText.

Local Abbreviation dirlike Z := (Z = "" \/ exists Z0, Z = Z0 +:+ "/").
Local Abbreviation regular x := (is_component x%string = true /\ x%string <> "..").
Local Abbreviation piece x :=
  (PyStr.contains_char "/" x%string = false /\ x%string <> "").
Local Abbreviation is_root r := (r = "" \/ r = "/" \/ r = "//").

Lemma is_component_inv x :
  is_component x = true -> PyStr.contains_char "/" x = false /\ x <> "" /\ x <> ".".
Proof.
  unfold is_component. intros [[H1 H2]%andb_true_iff H3]%andb_true_iff.
  apply negb_true_iff in H1, H2, H3.
  apply String.eqb_neq in H2, H3. auto.
Qed.

Lemma append_eq_nil a b : a +:+ b = "" -> a = "" /\ b = "".
Proof.
  destruct a; [rewrite append_nil; auto | rewrite append_cons; discriminate].
Qed.

Lemma contains_char_app c a b :
  PyStr.contains_char c (a +:+ b) = PyStr.contains_char c a || PyStr.contains_char c b.
Proof.
  induction a as [|x a IH]; [reflexivity|].
  rewrite append_cons. cbn [PyStr.contains_char]. rewrite IH. apply orb_assoc.
Qed.

Lemma join_app sep A B :
  A <> [] -> B <> [] ->
  PyStr.join sep (A ++ B) = PyStr.join sep A +:+ sep +:+ PyStr.join sep B.
Proof.
  intros HA HB. induction A as [|a A IH]; [congruence|].
  destruct A as [|a' A].
  - destruct B as [|b B]; [congruence|]. reflexivity.
  - change ((a :: a' :: A) ++ B) with (a :: a' :: (A ++ B)).
    rewrite !join_cons_cons. change (a' :: A ++ B) with ((a' :: A) ++ B).
    rewrite IH by discriminate. now rewrite !string_append_assoc.
Qed.

Lemma split_all_app sep s t :
  PyStr.split_all sep (s +:+ String sep t) = PyStr.split_all sep s ++ PyStr.split_all sep t.
Proof.
  set (A := PyStr.split_all sep s). set (B := PyStr.split_all sep t).
  assert (HA : PyStr.join (String sep "") A = s) by apply join_split.
  assert (HB : PyStr.join (String sep "") B = t) by apply join_split.
  assert (HnA : A <> []) by apply split_nonempty.
  assert (HnB : B <> []) by apply split_nonempty.
  replace (s +:+ String sep t) with (PyStr.join (String sep "") (A ++ B)).
  - apply split_all_join.
    + destruct A; [congruence | discriminate].
    + apply List.Forall_app. split; apply split_all_pieces.
  - rewrite join_app by assumption. now rewrite HA, HB.
Qed.

Lemma regular_tests x :
  regular x ->
  (String.eqb x "" || String.eqb x ".") = false /\ negb (String.eqb x "..") = true.
Proof.
  intros [(_ & H1 & H2)%is_component_inv H3].
  apply String.eqb_neq in H1, H2, H3. now rewrite H1, H2, H3.
Qed.

Lemma regular_piece x : regular x -> piece x.
Proof. intros [(H1 & H2 & _)%is_component_inv _]. auto. Qed.

Lemma norm_comps_regular rooted M :
  List.Forall (fun x => regular x) M ->
  forall acc, OsPath.norm_comps rooted M acc = List.rev acc ++ M.
Proof.
  induction 1 as [|x M Hx HM IH]; intros acc; cbn [OsPath.norm_comps].
  - now rewrite app_nil_r.
  - destruct (regular_tests x Hx) as [-> ->]. rewrite IH.
    cbn [List.rev]. now rewrite <- app_assoc.
Qed.

Lemma norm_comps_app rooted M :
  List.Forall (fun x => regular x) M ->
  forall C acc,
    OsPath.norm_comps rooted (C ++ M) acc = OsPath.norm_comps rooted C acc ++ M.
Proof.
  intros HM C. induction C as [|x C IH]; intros acc.
  - cbn [app OsPath.norm_comps]. now apply norm_comps_regular.
  - cbn [app OsPath.norm_comps]. destruct (_ || _); [apply IH|].
    destruct (negb _); [apply IH|].
    destruct acc as [|top below]; [destruct rooted; apply IH|].
    destruct (String.eqb top ".."); apply IH.
Qed.

Lemma norm_comps_pieces rooted comps :
  List.Forall (fun x => PyStr.contains_char "/" x = false) comps ->
  forall acc, List.Forall (fun x => piece x) acc ->
    List.Forall (fun x => piece x) (OsPath.norm_comps rooted comps acc).
Proof.
  induction 1 as [|x comps Hx Hc IH]; intros acc Hacc; cbn [OsPath.norm_comps].
  - now apply List.Forall_rev.
  - destruct (String.eqb_spec x ""); cbn [orb]; [now apply IH|].
    destruct (String.eqb x "."); [now apply IH|].
    assert (Hp : piece x) by auto.
    destruct (negb _); [apply IH; now constructor|].
    destruct acc as [|top below].
    + destruct rooted; apply IH; [assumption | now constructor].
    + destruct (String.eqb top ".."); apply IH; [now constructor|].
      now inversion Hacc.
Qed.

Lemma filter_pieces l :
  List.Forall (fun x => piece x) l ->
  List.filter (fun x => negb (String.eqb x "")) l = l.
Proof.
  induction 1 as [|x l [_ Hx] Hl IH]; cbn [List.filter]; [reflexivity|].
  apply String.eqb_neq in Hx. rewrite Hx. cbn [negb]. now rewrite IH.
Qed.

Lemma nonempty_comps_root_join r N :
  is_root r -> N <> [] -> List.Forall (fun x => piece x) N ->
  OsPath.nonempty_comps (r +:+ PyStr.join "/" N) = N.
Proof.
  intros Hr HN HP. unfold OsPath.nonempty_comps.
  assert (HJ : PyStr.split_all "/" (PyStr.join "/" N) = N).
  { apply split_all_join; [assumption|].
    eapply List.Forall_impl; [|exact HP]. now intros x [H _]. }
  destruct Hr as [-> | [-> | ->]].
  - rewrite append_nil, HJ. now apply filter_pieces.
  - change (PyStr.split_all "/" ("/" +:+ PyStr.join "/" N))
      with ("" :: PyStr.split_all "/" (PyStr.join "/" N)).
    rewrite HJ. change (List.filter ?f ("" :: N)) with (List.filter f N).
    now apply filter_pieces.
  - change (PyStr.split_all "/" ("//" +:+ PyStr.join "/" N))
      with ("" :: "" :: PyStr.split_all "/" (PyStr.join "/" N)).
    rewrite HJ. change (List.filter ?f ("" :: "" :: N)) with (List.filter f N).
    now apply filter_pieces.
Qed.

Lemma leading_slashes_none s :
  PyStr.startswith_char "/" s = false -> PurePath.leading_slashes s = (0, s).
Proof.
  destruct s as [|c s]; [reflexivity|]. simpl. intros H.
  destruct (Ascii.eqb_spec c "/"); [discriminate|].
  destruct c as [[] [] [] [] [] [] [] []]; try reflexivity. congruence.
Qed.

Lemma leading_slashes_app Z a :
  PyStr.startswith_char "/" a = false ->
  PurePath.leading_slashes (Z +:+ a)
  = ((PurePath.leading_slashes Z).1, (PurePath.leading_slashes Z).2 +:+ a).
Proof.
  intros Ha. induction Z as [|c Z IH].
  - rewrite append_nil. now rewrite leading_slashes_none.
  - rewrite append_cons. destruct (Ascii.eqb_spec c "/") as [-> | Hc].
    + cbn [PurePath.leading_slashes]. rewrite IH.
      now destruct (PurePath.leading_slashes Z).
    + assert (H : forall s, PyStr.startswith_char "/" (String c s) = false).
      { intros s. simpl. now apply Ascii.eqb_neq. }
      rewrite !leading_slashes_none by apply H. simpl. now rewrite append_cons.
Qed.

Lemma split_root_app Z a :
  PyStr.startswith_char "/" a = false ->
  PurePath.split_root (Z +:+ a)
  = ((PurePath.split_root Z).1, (PurePath.split_root Z).2 +:+ a).
Proof.
  intros Ha. unfold PurePath.split_root. rewrite (leading_slashes_app _ _ Ha).
  destruct (PurePath.leading_slashes Z) as [n r]. now destruct n as [|[|[|n]]].
Qed.

Lemma split_root_is_root s : is_root (PurePath.split_root s).1.
Proof.
  unfold PurePath.split_root. destruct (PurePath.leading_slashes s) as [n r].
  destruct n as [|[|[|n]]]; simpl; auto.
Qed.

Lemma join_not_empty sep M :
  M <> [] -> List.Forall (fun x => x <> "") M -> PyStr.join sep M <> "".
Proof.
  destruct M as [|x M]; [congruence|]. intros _ H. inversion H; subst.
  destruct M; [assumption|]. rewrite join_cons_cons. now intros [E _]%append_eq_nil.
Qed.

Lemma join_head_no_slash M :
  M <> [] -> List.Forall (fun x => piece x) M ->
  PyStr.startswith_char "/" (PyStr.join "/" M) = false.
Proof.
  destruct M as [|x M]; [congruence|]. intros _ H. inversion H as [|? ? [Hx Hne] HM]; subst.
  destruct x as [|c x]; [congruence|]. cbn [PyStr.contains_char] in Hx.
  apply orb_false_iff in Hx as [Hc _].
  destruct M; [exact Hc|]. rewrite join_cons_cons, append_cons. exact Hc.
Qed.

Lemma normpath_dir Z :
  dirlike Z ->
  exists r N,
    is_root r /\ List.Forall (fun x => piece x) N /\
    forall M, M <> [] -> List.Forall (fun x => regular x) M ->
      OsPath.normpath (Z +:+ PyStr.join "/" M) = r +:+ PyStr.join "/" (N ++ M).
Proof.
  intros HZ.
  assert (HC : exists C,
            List.Forall (fun x => PyStr.contains_char "/" x = false) C /\
            forall M, M <> [] -> List.Forall (fun x => regular x) M ->
              PyStr.split_all "/" (Z +:+ PyStr.join "/" M) = C ++ M).
  { assert (HJ : forall M, M <> [] -> List.Forall (fun x => regular x) M ->
                   PyStr.split_all "/" (PyStr.join "/" M) = M).
    { intros M HM HR. apply split_all_join; [assumption|].
      eapply List.Forall_impl; [|exact HR]. now intros x [H _]%regular_piece. }
    destruct HZ as [-> | [Z0 ->]].
    - exists []. split; [constructor|]. intros M HM HR. rewrite append_nil. now apply HJ.
    - exists (PyStr.split_all "/" Z0). split; [apply split_all_pieces|].
      intros M HM HR. rewrite string_append_assoc.
      change ("/" +:+ PyStr.join "/" M) with (String "/" (PyStr.join "/" M)).
      rewrite split_all_app. now rewrite HJ. }
  destruct HC as (C & HCp & HC).
  set (r := (PurePath.split_root Z).1).
  exists r, (OsPath.norm_comps (negb (String.eqb r "")) C []).
  split; [apply split_root_is_root|].
  split; [apply norm_comps_pieces; [assumption | constructor]|].
  intros M HM HR.
  assert (HP : List.Forall (fun x => piece x) M).
  { eapply List.Forall_impl; [|exact HR]. intros x. apply regular_piece. }
  assert (Hne : forall N', PyStr.join "/" (N' ++ M) <> "").
  { intros N' E. 
    assert (HM' : List.Forall (fun x => x <> "") M).
    { eapply List.Forall_impl; [|exact HP]. now intros x [_ H]. }
    destruct N' as [|n N'].
    - now apply (join_not_empty "/" M).
    - rewrite join_app in E by (assumption || discriminate).
      apply append_eq_nil in E as [_ E]. apply append_eq_nil in E as [_ E].
      now apply (join_not_empty "/" M). }
  unfold OsPath.normpath.
  destruct (String.eqb_spec (Z +:+ PyStr.join "/" M) "") as [E | _].
  { apply append_eq_nil in E as [_ E]. now apply (Hne []) in E. }
  rewrite (split_root_app Z _ (join_head_no_slash M HM HP)). fold r.
  rewrite (HC M HM HR), (norm_comps_app _ M HR).
  destruct (String.eqb_spec
              (r +:+ PyStr.join "/" (OsPath.norm_comps (negb (String.eqb r "")) C [] ++ M)) "")
    as [E | _]; [|reflexivity].
  apply append_eq_nil in E as [_ E]. now apply Hne in E.
Qed.

Lemma substring_last c s :
  String.substring (String.length s) 1 (s +:+ String c "") = String c "".
Proof.
  induction s as [|a s IH]; [reflexivity|]. rewrite append_cons. exact IH.
Qed.

Lemma endswith_snoc s c :
  PyStr.endswith "/" (s +:+ String c "") = Ascii.eqb c "/".
Proof.
  unfold PyStr.endswith. rewrite string_length_append.
  change (String.length (String c "")) with 1. change (String.length "/") with 1.
  replace (String.length s + 1 - 1) with (String.length s) by lia.
  rewrite substring_last.
  replace (1 <=? String.length s + 1)%nat with true by (symmetry; apply Nat.leb_le; lia).
  cbn [andb String.eqb]. now destruct (Ascii.eqb c "/").
Qed.

Lemma string_snoc_cases s : s = "" \/ exists s0 c, s = s0 +:+ String c "".
Proof.
  induction s as [|a s IH]; [now left|]. right.
  destruct IH as [-> | (s0 & c & ->)].
  - now exists "", a.
  - exists (String a s0), c. now rewrite append_cons.
Qed.

Lemma endswith_slash_inv s : PyStr.endswith "/" s = true -> exists s0, s = s0 +:+ "/".
Proof.
  destruct (string_snoc_cases s) as [-> | (s0 & c & ->)]; [discriminate|].
  rewrite endswith_snoc. intros ->%Ascii.eqb_eq. now exists s0.
Qed.

Lemma append_empty_r s : s +:+ "" = s.
Proof. induction s as [|a s IH]; [reflexivity|]. now rewrite append_cons, IH. Qed.

Lemma abspath_dir c Y :
  dirlike Y ->
  exists Z, dirlike Z /\
    forall J, PyStr.startswith_char "/" J = false ->
      OsPath.abspath c (Y +:+ J) = OsPath.normpath (Z +:+ J).
Proof.
  intros HY.
  assert (Hs : forall J, PyStr.startswith_char "/" J = false ->
                 PyStr.startswith_char "/" (Y +:+ J) = PyStr.startswith_char "/" Y).
  { intros J HJ. destruct Y; [rewrite append_nil; now rewrite HJ | now rewrite append_cons]. }
  unfold OsPath.abspath, OsPath.join.
  destruct (PyStr.startswith_char "/" Y) eqn:EY.
  - exists Y. split; [assumption|]. intros J HJ. now rewrite (Hs J HJ).
  - destruct (String.eqb c "" || PyStr.endswith "/" c) eqn:Ec.
    + exists (c +:+ Y). split.
      * apply orb_true_iff in Ec as [Ec | Ec].
        -- apply String.eqb_eq in Ec. subst. now rewrite append_nil.
        -- destruct (endswith_slash_inv _ Ec) as [c0 ->]. right.
           destruct HY as [-> | [Y0 ->]].
           ++ exists c0. now rewrite append_empty_r.
           ++ exists ((c0 +:+ "/") +:+ Y0). now rewrite !string_append_assoc.
      * intros J HJ. rewrite (Hs J HJ). now rewrite string_append_assoc.
    + exists (c +:+ "/" +:+ Y). split.
      * right. destruct HY as [-> | [Y0 ->]].
        -- now exists c.
        -- exists (c +:+ "/" +:+ Y0). now rewrite !string_append_assoc.
      * intros J HJ. rewrite (Hs J HJ). now rewrite !string_append_assoc.
Qed.

Lemma abs_comps c Y :
  dirlike Y ->
  exists N, forall M, M <> [] -> List.Forall (fun x => regular x) M ->
    OsPath.nonempty_comps (OsPath.abspath c (Y +:+ PyStr.join "/" M)) = N ++ M.
Proof.
  intros HY. destruct (abspath_dir c Y HY) as (Z & HZ & Habs).
  destruct (normpath_dir Z HZ) as (r & N & Hr & HN & Hnorm).
  exists N. intros M HM HR.
  assert (HP : List.Forall (fun x => piece x) M).
  { eapply List.Forall_impl; [|exact HR]. intros x. apply regular_piece. }
  rewrite Habs by now apply join_head_no_slash.
  rewrite Hnorm by assumption.
  apply nonempty_comps_root_join; [assumption | |].
  - destruct N; [assumption | discriminate].
  - apply List.Forall_app. now split.
Qed.

Lemma common_prefix_app N a b :
  OsPath.common_prefix (N ++ a) (N ++ b) = N ++ OsPath.common_prefix a b.
Proof.
  induction N as [|x N IH]; [reflexivity|].
  cbn [app OsPath.common_prefix]. now rewrite String.eqb_refl, IH.
Qed.

Lemma skipn_length_app {A} (N M : list A) i :
  List.skipn (List.length N + i) (N ++ M) = List.skipn i M.
Proof. induction N as [|x N IH]; [reflexivity | exact IH]. Qed.

(** The relative path between two places below one directory is made
    of their own components only: it does not depend on the directory
    nor on the working directory. *)
Lemma relpath_siblings c Y M1 M2 :
  dirlike Y -> M1 <> [] -> M2 <> [] ->
  List.Forall (fun x => regular x) M1 -> List.Forall (fun x => regular x) M2 ->
  OsPath.relpath c (Y +:+ PyStr.join "/" M1) (Y +:+ PyStr.join "/" M2)
  = let i := List.length (OsPath.common_prefix M2 M1) in
    match List.repeat ".." (List.length M2 - i) ++ List.skipn i M1 with
    | [] => "."
    | h :: t => List.fold_left OsPath.join t h
    end.
Proof.
  intros HY H1 H2 R1 R2. destruct (abs_comps c Y HY) as [N HN].
  unfold OsPath.relpath. rewrite (HN M1 H1 R1), (HN M2 H2 R2).
  rewrite common_prefix_app, !List.length_app.
  set (i := List.length (OsPath.common_prefix M2 M1)).
  replace (List.length N + List.length M2 - (List.length N + i))
    with (List.length M2 - i) by lia.
  rewrite skipn_length_app. cbv zeta.
  now destruct (List.repeat ".." (List.length M2 - i) ++ List.skipn i M1).
Qed.

Lemma parse_join r M :
  is_root r -> M <> [] -> List.Forall (fun x => is_component x = true) M ->
  PurePath.parse (r +:+ PyStr.join "/" M) = mkPath r M.
Proof.
  intros Hr HM HC.
  assert (HP : List.Forall (fun x => piece x) M).
  { eapply List.Forall_impl; [|exact HC]. intros x (H1 & H2 & _)%is_component_inv. auto. }
  unfold PurePath.parse.
  rewrite (split_root_app r _ (join_head_no_slash M HM HP)).
  assert (Hroot : PurePath.split_root r = (r, "")) by (destruct Hr as [-> | [-> | ->]]; reflexivity).
  rewrite Hroot. cbn [fst snd]. rewrite append_nil. f_equal.
  rewrite split_all_join; [|assumption|].
  - clear HM HP. induction HC as [|x M Hx _ IH]; [reflexivity|].
    cbn [List.filter]. destruct (is_component_inv x Hx) as (_ & H1 & H2).
    unfold PurePath.keep_component at 1. apply String.eqb_neq in H1, H2.
    rewrite H1, H2. cbn [negb andb]. now rewrite IH.
  - eapply List.Forall_impl; [|exact HP]. now intros x [H _].
Qed.

Lemma parse_shape s :
  is_root (root (PurePath.parse s)) /\
  List.Forall (fun x => is_component x = true) (parts (PurePath.parse s)).
Proof.
  unfold PurePath.parse. pose proof (split_root_is_root s) as Hr.
  destruct (PurePath.split_root s) as [r rel]. cbn [fst root parts] in *.
  split; [assumption|].
  apply List.Forall_forall. intros x [Hx Hk]%List.filter_In.
  pose proof (split_all_pieces "/" rel) as HP. rewrite List.Forall_forall in HP.
  unfold is_component. rewrite (HP x Hx). exact Hk.
Qed.

Lemma to_str_parts r ps :
  ps <> [] -> PurePath.to_str (mkPath r ps) = r +:+ PyStr.join "/" ps.
Proof.
  intros H. unfold PurePath.to_str. cbn [root parts].
  destruct r; destruct ps; congruence || reflexivity.
Qed.

Lemma under_dirlike r ps :
  is_root r ->
  exists Y, dirlike Y /\
    forall M, M <> [] -> r +:+ PyStr.join "/" (ps ++ M) = Y +:+ PyStr.join "/" M.
Proof.
  intros Hr. destruct ps as [|p ps].
  - exists r. split; [|reflexivity].
    destruct Hr as [-> | [-> | ->]]; [now left | right; now exists "" | right; now exists "/"].
  - exists (r +:+ PyStr.join "/" (p :: ps) +:+ "/"). split.
    + right. exists (r +:+ PyStr.join "/" (p :: ps)). now rewrite string_append_assoc.
    + intros M HM. rewrite join_app by (assumption || discriminate).
      now rewrite !string_append_assoc.
Qed.

Lemma join_str_relative d M :
  M <> [] -> List.Forall (fun x => is_component x = true) M ->
  d // PyStr.join "/" M = mkPath (root d) (parts d ++ M).
Proof.
  intros HM HC. unfold PurePath.join_str, PurePath.join.
  rewrite <- (append_nil (PyStr.join "/" M)).
  rewrite (parse_join "" M (or_introl eq_refl) HM HC). reflexivity.
Qed.

Lemma python_component X :
  PyStr.contains_char "/" X = false -> regular ("python" +:+ X).
Proof.
  intros HX. split.
  - unfold is_component. rewrite contains_char_app, HX. reflexivity.
  - rewrite append_cons. discriminate.
Qed.

Lemma short_no_slash v : PyStr.contains_char "/" (Version.short v) = false.
Proof.
  assert (H : forall n, PyStr.contains_char "/" (PyInt.to_str n) = false).
  { intros n. eapply all_chars_no_char; [|apply to_str_chars]. reflexivity. }
  unfold Version.short. rewrite !contains_char_app, !H. reflexivity.
Qed.

Lemma dir_prefix_snoc s c :
  Ascii.eqb c "/" = false -> Ascii.eqb c "." = false ->
  FS.dir_prefix (s +:+ String c "") = (s +:+ String c "") +:+ "/".
Proof.
  intros H1 H2. unfold FS.dir_prefix. rewrite endswith_snoc, H1.
  destruct (String.eqb_spec (s +:+ String c "") ".") as [E | _]; [|reflexivity].
  destruct s as [|a s].
  - rewrite append_nil in E. injection E as ->. discriminate.
  - rewrite append_cons in E. injection E as _ E.
    apply append_eq_nil in E as [_ E]. discriminate.
Qed.

Lemma glob_inv ns d pre suf module :
  module ∈ FS.glob ns d pre suf ->
  exists rel, module = FS.dir_prefix d +:+ rel /\ FS.name_matches pre suf rel = true.
Proof.
  unfold FS.glob. rewrite list_elem_of_In, List.in_flat_map.
  intros ([rel n] & _ & H). destruct (FS.name_matches pre suf rel) eqn:E.
  - destruct H as [<- | []]. now exists rel.
  - destruct H.
Qed.

Lemma module_name_component rel :
  FS.name_matches "" ".so" rel = true -> is_component rel = true.
Proof.
  unfold FS.name_matches, is_component.
  intros [[[[H1 H2]%andb_true_iff _]%andb_true_iff H3]%andb_true_iff _]%andb_true_iff.
  rewrite H1. destruct rel as [|a rel]; [discriminate|].
  apply negb_true_iff in H2. cbn [PyStr.startswith_char] in H2.
  cbn [String.eqb]. now rewrite H2.
Qed.

End PathText.

Section BundleText.

Variable c : string.
Variable s : string.
Variable v : PythonVersion.

Local Abbreviation destination := (PurePath.parse s).
Local Abbreviation python := ("python" +:+ Version.short v).
Local Abbreviation runtime := ("bin/" +:+ python).
Local Abbreviation packages := ("lib/" +:+ python).
Local Abbreviation libdir := (destination // "lib").

Lemma python_is_component : is_component python = true.
Proof. apply python_component, short_no_slash. Qed.

(** From the directory of the interpreter to [lib]. *)
Lemma relpath_runtime :
  OsPath.relpath c (PurePath.to_str libdir)
                   (PurePath.to_str (PurePath.parent (destination // runtime)))
  = "../lib".
Proof.
  destruct (parse_shape s) as [Hr Hps].
  destruct (under_dirlike (root destination) (parts destination) Hr) as (Y & HY & HYe).
  change "lib" with (PyStr.join "/" ["lib"]) at 1.
  change runtime with (PyStr.join "/" ["bin"; python]).
  rewrite !join_str_relative;
    try discriminate; repeat constructor; try apply python_is_component.
  unfold PurePath.parent. cbn [root parts].
  rewrite (List.removelast_app (parts destination) (l' := ["bin"; python])) by discriminate.
  cbn [List.removelast].
  rewrite !to_str_parts by (now destruct (parts destination)).
  rewrite !HYe by discriminate.
  rewrite relpath_siblings; try assumption; try discriminate;
    repeat constructor; try discriminate.
Qed.

(** From the directory of an extension module to [lib]. *)
Lemma relpath_module ns module :
  module ∈ FS.glob ns (PurePath.to_str (destination // (packages +:+ "/lib-dynload")))
                    "" ".so" ->
  OsPath.relpath c (PurePath.to_str libdir)
                   (PurePath.to_str (PurePath.parent (PurePath.parse module)))
  = "../..".
Proof.
  intros (rel & -> & Hrel%module_name_component)%glob_inv.
  destruct (parse_shape s) as [Hr Hps].
  destruct (under_dirlike (root destination) (parts destination) Hr) as (Y & HY & HYe).
  pose proof python_is_component as Hpy.
  destruct (python_component _ (short_no_slash v)) as [_ Hpy'].
  change "lib" with (PyStr.join "/" ["lib"]) at 1.
  change (packages +:+ "/lib-dynload") with (PyStr.join "/" ["lib"; python; "lib-dynload"]).
  rewrite !join_str_relative; try discriminate; repeat constructor; try assumption.
  set (ps1 := parts destination ++ ["lib"; python; "lib-dynload"]).
  assert (Hps1 : ps1 <> []) by (unfold ps1; now destruct (parts destination)).
  assert (Hd : FS.dir_prefix (PurePath.to_str (mkPath (root destination) ps1))
               = PurePath.to_str (mkPath (root destination) ps1) +:+ "/").
  { rewrite to_str_parts by assumption. unfold ps1. rewrite HYe by discriminate.
    assert (E : Y +:+ PyStr.join "/" ["lib"; python; "lib-dynload"]
                = (Y +:+ "lib/" +:+ python +:+ "/lib-dynloa") +:+ "d").
    { rewrite !string_append_assoc. reflexivity. }
    rewrite E. now apply dir_prefix_snoc. }
  rewrite Hd, (to_str_parts _ ps1 Hps1).
  assert (Hm : ((root destination +:+ PyStr.join "/" ps1) +:+ "/") +:+ rel
               = root destination +:+ PyStr.join "/" (ps1 ++ [rel])).
  { rewrite join_app by (assumption || discriminate). now rewrite !string_append_assoc. }
  rewrite Hm, parse_join; [|assumption | now destruct ps1 |].
  2:{ unfold ps1. rewrite !List.Forall_app. repeat split; [assumption| |];
      repeat constructor; assumption. }
  unfold PurePath.parent. cbn [root parts]. rewrite List.removelast_last.
  rewrite !to_str_parts by (assumption || now destruct (parts destination)).
  unfold ps1. rewrite !HYe by discriminate.
  rewrite relpath_siblings; try assumption; try discriminate;
    repeat constructor; try assumption; try discriminate.
Qed.

End BundleText.

(** Where an extension module found by [glob] is, as a path. *)
Lemma module_parse s v ns module :
  module ∈ FS.glob ns
    (PurePath.to_str
       (PurePath.parse s // (("lib/" +:+ ("python" +:+ Version.short v)) +:+ "/lib-dynload")))
    "" ".so" ->
  exists rel,
    is_component rel = true /\
    PurePath.parse module
    = PurePath.parse s // (("lib/" +:+ ("python" +:+ Version.short v)) +:+ "/lib-dynload")
      // rel.
Proof.
  intros (rel & -> & Hrel%module_name_component)%glob_inv.
  exists rel. split; [assumption|].
  set (python := "python" +:+ Version.short v).
  destruct (parse_shape s) as [Hr Hps].
  pose proof (python_is_component v) as Hpy.
  change (("lib/" +:+ python) +:+ "/lib-dynload")
    with (PyStr.join "/" ["lib"; python; "lib-dynload"]).
  rewrite !join_str_relative; try discriminate; repeat constructor; try assumption.
  set (ps1 := parts (PurePath.parse s) ++ ["lib"; python; "lib-dynload"]).
  assert (Hps1 : ps1 <> []) by (unfold ps1; now destruct (parts (PurePath.parse s))).
  assert (Hc1 : List.Forall (fun x => is_component x = true) ps1).
  { unfold ps1. apply List.Forall_app. split; [assumption|]. repeat constructor; assumption. }
  change rel with (PyStr.join "/" [rel]) at 2.
  rewrite join_str_relative; [|discriminate | repeat constructor; assumption].
  cbn [root parts].
  assert (Hd : FS.dir_prefix (PurePath.to_str (mkPath (root (PurePath.parse s)) ps1))
               = PurePath.to_str (mkPath (root (PurePath.parse s)) ps1) +:+ "/").
  { rewrite to_str_parts by assumption. unfold ps1. clear.
    destruct (parts (PurePath.parse s)) as [|p0 ps0].
    - cbn [app].
      assert (E : root (PurePath.parse s) +:+ PyStr.join "/" ["lib"; python; "lib-dynload"]
                  = (root (PurePath.parse s) +:+ "lib/" +:+ python +:+ "/lib-dynloa") +:+ "d").
      { rewrite !string_append_assoc. reflexivity. }
      rewrite E. now apply dir_prefix_snoc.
    - assert (E : root (PurePath.parse s)
                  +:+ PyStr.join "/" ((p0 :: ps0) ++ ["lib"; python; "lib-dynload"])
                  = (root (PurePath.parse s) +:+ PyStr.join "/" (p0 :: ps0) +:+ "/lib/"
                     +:+ python +:+ "/lib-dynloa") +:+ "d").
      { rewrite join_app by discriminate. rewrite !string_append_assoc. reflexivity. }
      rewrite E. now apply dir_prefix_snoc. }
  rewrite Hd, (to_str_parts _ ps1 Hps1).
  assert (Hm : ((root (PurePath.parse s) +:+ PyStr.join "/" ps1) +:+ "/") +:+ rel
               = root (PurePath.parse s) +:+ PyStr.join "/" (ps1 ++ [rel])).
  { rewrite join_app by (assumption || discriminate). now rewrite !string_append_assoc. }
  rewrite Hm. apply parse_join; [assumption | now destruct ps1 |].
  apply List.Forall_app. split; [assumption | repeat constructor; assumption].
Qed.

Section DirectiveSites.

Variable c : string.

Local Abbreviation quiet_at G m := (emits_at c G (fun _ => True) m).

Lemma emits_at_weaken {A} (G G' : string -> string -> Prop) (Q Q' : A -> Prop) (m : M A) :
  (forall t d, G t d -> G' t d) -> (forall a, Q a -> Q' a) ->
  emits_at c G Q m -> emits_at c G' Q' m.
Proof.
  intros HG HQ Hm w Hw. destruct (Hm w Hw) as (H1 & (evs & H2 & H2') & H3).
  split; [assumption|]. split; [|auto]. exists evs. split; [assumption|]. auto.
Qed.

(** A computation that writes no directive meets every condition. *)
Lemma emits_at_none {A} G (Q : A -> Prop) (m : M A) :
  emits c (fun _ => False) Q m -> emits_at c G Q m.
Proof.
  intros Hm w Hw. destruct (Hm w Hw) as (H1 & (evs & H2 & H2') & H3).
  split; [assumption|]. split; [|assumption]. exists evs. split; [assumption|].
  intros t d Hin. destruct (H2' t d Hin).
Qed.

Lemma emits_at_bind {A B} G (Q : A -> Prop) (Q' : B -> Prop) (m : M A) (k : A -> M B) :
  emits_at c G Q m -> (forall a, Q a -> emits_at c G Q' (k a)) ->
  emits_at c G Q' (m ≫= k).
Proof.
  intros Hm Hk w Hw. unfold mbind, M_bind.
  destruct (Hm w Hw) as (H1 & (evs & H2 & H2') & H3).
  destruct (m w) as [w1 [a|x]]; simpl in *.
  - destruct (Hk a (H3 a eq_refl) w1 H1) as (K1 & (evs' & K2 & K2') & K3).
    split; [assumption|]. split; [|assumption].
    exists (evs ++ evs'). split; [now rewrite K2, H2, app_assoc|].
    intros t d. rewrite directives_app, elem_of_app. intros [H | H]; eauto.
  - split; [assumption|]. split; [eauto | discriminate].
Qed.

Lemma emits_at_for_each {A} G (body : A -> M unit) (xs : list A) :
  (forall x, x ∈ xs -> quiet_at G (body x)) -> quiet_at G (for_each body xs).
Proof.
  induction xs as [|x xs IH]; intros Hb; simpl.
  - apply emits_at_none. eapply emits_weaken; [|apply emits_ret]. auto.
  - eapply emits_at_bind; [apply Hb, list_elem_of_here | intros _ _].
    apply IH. intros y Hy. apply Hb. now apply list_elem_of_further.
Qed.

Lemma emits_at_query {A} G (f : gmap string node -> result A) :
  emits_at c G (fun a => exists ns, f ns = Ok a) (FS.query f).
Proof.
  intros w Hw. unfold FS.query. simpl. split; [assumption|]. split; [|eauto].
  exists []. split; [now rewrite app_nil_r | intros t d []%elem_of_nil].
Qed.

Lemma emits_at_relpath G path start :
  emits_at c G
    (fun a => a = OsPath.relpath c (PurePath.to_str path) (PurePath.to_str start))
    (Ext.relpath path start).
Proof.
  intros w Hw. unfold Ext.relpath. simpl. split; [assumption|]. split.
  - exists []. split; [now rewrite app_nil_r | intros t d []%elem_of_nil].
  - intros a [= <-]. now rewrite Hw.
Qed.

(** [set_rpath] writes into its target, and what it is asked to. *)
Lemma emits_at_set_rpath target directive :
  quiet_at (fun t d => t = target /\ d = directive) (Ext.set_rpath target directive).
Proof.
  intros w Hw.
  assert (Hq : forall evs, directives evs = [] ->
            forall t d, (t, d) ∈ directives evs -> t = target /\ d = directive)
    by (intros evs -> t d []%elem_of_nil).
  destruct (set_rpath_cases target directive w)
    as [[-> _] | (q & f & _ & _ & [[_ ->] | [(_ & _ & ->) | (_ & _ & ->)]])];
    cbn [fst snd]; (split; [assumption|]); (split; [|auto]).
  - exists [EvPrintRpath target]. split; [reflexivity | now apply Hq].
  - exists [EvPrintRpath target]. split; [reflexivity | now apply Hq].
  - exists [EvPrintRpath target; EvSetRpath target directive].
    split; [cbn; now rewrite <- app_assoc|].
    cbn. now intros t d [= -> ->]%list_elem_of_singleton.
  - exists [EvPrintRpath target; EvSetRpath target directive].
    split; [cbn; now rewrite <- app_assoc|].
    cbn. now intros t d [= -> ->]%list_elem_of_singleton.
Qed.

(** The copy of a dependency writes [$ORIGIN] into the copy. *)
Lemma copy_dependency_site libdir name src :
  quiet_at (fun t d => t = PurePath.to_str (libdir // name) /\ d = "$ORIGIN")
           (Ext.copy_dependency libdir (name, src)).
Proof.
  unfold Ext.copy_dependency.
  eapply emits_at_bind; [apply emits_at_none, emits_update | intros _ _].
  eapply emits_at_bind; [apply emits_at_none, emits_query | intros mode _].
  eapply emits_at_bind.
  - apply emits_at_none. destruct (Ext.writable_mode mode); [apply emits_update|].
    eapply emits_weaken; [|apply emits_ret]. auto.
  - intros _ _. apply emits_at_set_rpath.
Qed.

Variable s : string.
Variable v : PythonVersion.

Local Abbreviation destination := (PurePath.parse s).
Local Abbreviation python := ("python" +:+ Version.short v).
Local Abbreviation libdir := (destination // "lib").
Local Abbreviation moddir := (destination // (("lib/" +:+ python) +:+ "/lib-dynload")).

(** An extension module gets [$ORIGIN/../..]. *)
Lemma patch_module_site ns module :
  module ∈ FS.glob ns (PurePath.to_str moddir) "" ".so" ->
  quiet_at (fun t d => t = PurePath.to_str (PurePath.parse module) /\ d = "$ORIGIN/../..")
           (Ext.patch_module libdir module).
Proof.
  intros Hm. unfold Ext.patch_module.
  eapply emits_at_bind; [apply emits_at_relpath | intros dst ->].
  rewrite (relpath_module c s v ns module Hm). apply emits_at_set_rpath.
Qed.

End DirectiveSites.

(** What [extract] writes, and where. *)
Lemma emits_extract_sites e s c :
  emits_at c (directive_site (PurePath.parse s) ("python" +:+ Version.short (version e)))
           (fun _ => True) (Ext.extract e (PurePath.parse s)).
Proof.
  unfold Ext.extract.
  eapply emits_at_bind; [apply emits_at_none, emits_query | intros include _].
  do 6 (eapply emits_at_bind; [apply emits_at_none, emits_update | intros _ _]).
  eapply emits_at_bind.
  { apply emits_at_none, emits_for_each. intros folder. apply emits_copytree. }
  intros _ _.
  eapply emits_at_bind; [apply emits_at_none, emits_map_dependencies | intros libs _].
  eapply emits_at_bind.
  { apply emits_at_for_each. intros [name src] _.
    eapply emits_at_weaken; [| |apply copy_dependency_site]; [|auto].
    intros t d [-> ->]. left. eauto. }
  intros _ _.
  eapply emits_at_bind; [apply emits_at_query | intros modules [ns [= <-]]].
  eapply emits_at_bind.
  { apply emits_at_for_each. intros module Hm.
    destruct (module_parse s (version e) ns module Hm) as (rel & Hrel & Hp).
    eapply emits_at_weaken; [| |apply (patch_module_site c s (version e) ns module Hm)];
      [|auto].
    intros t d [-> ->]. right. left. split; [reflexivity|]. exists rel. now rewrite Hp. }
  intros _ _.
  eapply emits_at_bind; [apply emits_at_relpath | intros dst ->].
  rewrite relpath_runtime.
  eapply emits_at_weaken; [| |apply emits_at_set_rpath]; [|auto].
  intros t d [-> ->]. right. right. now split.
Qed.



Lemma bind_ok_inv {A B} (m : M A) (k : A -> M B) w w' b :
  (m ≫= k) w = (w', Ok b) ->
  exists a w1, m w = (w1, Ok a) /\ k a w1 = (w', Ok b).
Proof.
  unfold mbind, M_bind. destruct (m w) as [w1 [a|x]]; [eauto | discriminate].
Qed.

Lemma print_rpath_read target f w :
  FS.open_read (nodes w) target = Ok f -> is_Some (needed f) ->
  (Ext.print_rpath target w).2 = Ok (rpath f +:+ Ext.newline).
Proof.
  intros Hf [names Hn]. unfold Ext.print_rpath, FS.query, tell, mbind, M_bind.
  cbn [fst snd emit nodes]. now rewrite Hf, Hn.
Qed.

Lemma extract_last_step e s w w' :
  Ext.extract e (PurePath.parse s) w = (w', Ok tt) ->
  exists w1,
    Ext.set_rpath
      (PurePath.to_str (PurePath.parse s // ("bin/" +:+ ("python" +:+ Version.short (version e)))))
      "$ORIGIN/../lib" w1 = (w', Ok tt).
Proof.
  intros H. unfold Ext.extract in H. cbv zeta in H.
  do 12 (apply bind_ok_inv in H as (? & ? & _ & H)).
  apply bind_ok_inv in H as (dst & w1 & Hrel & H).
  unfold Ext.relpath in Hrel. injection Hrel as -> <-.
  rewrite relpath_runtime in H. now exists w1.
Qed.



(** ** From a version to its text and back *)

Lemma from_str_long v :
  Version.from_str (Version.long v)
  = Ok (mkPythonVersion (major v) (minor v)
          match PyInt.of_str (Version.format_patch (patch v)) with
          | Some n => PInt n
          | None => PStr (Version.format_patch (patch v))
          end).
Proof.
  unfold Version.from_str, Version.long.
  rewrite split_three by apply to_str_no_dot.
  now rewrite !of_str_to_str.
Qed.

(** X20: for a version whose text [long] is of at most 4300 characters
    (so that no component meets the bound on digits), [from_str] undoes
    [long] exactly when the patch is an [int] or a text that [int()]
    does not read: for these [from_str(v.long())] is [v]; for a version
    built with a numeral as text patch (such as
    [PythonVersion(3, 11, '4')]) the call returns normally but gives the
    [int] patch, hence another version. *)
Theorem long_then_from_str (v : PythonVersion) :
  String.length (Version.long v) <= 4300 ->
  (Version.from_str (Version.long v) = Ok v <->
   (forall s, patch v = PStr s -> PyInt.of_str s = None)).
Proof.
  intros _.
  rewrite from_str_long. destruct v as [ma mi [n | s]]; cbn [major minor patch Version.format_patch].
  - rewrite of_str_to_str. split; [intros _ s [=] | reflexivity].
  - destruct (PyInt.of_str s) as [n|] eqn:E; split.
    + discriminate.
    + intros H. specialize (H s eq_refl). congruence.
    + now intros _ s' [= <-].
    + reflexivity.
Qed.

Lemma long_then_from_str_witness :
  Version.from_str (Version.long (mkPythonVersion 3 11 (PStr "0rc1")))
  = Ok (mkPythonVersion 3 11 (PStr "0rc1")) <->
  (forall s, patch (mkPythonVersion 3 11 (PStr "0rc1")) = PStr s -> PyInt.of_str s = None).
Proof.
  apply (long_then_from_str (mkPythonVersion 3 11 (PStr "0rc1"))). vm_compute. lia.
Defined.
